(** * Step Functions workflows of the Textract grader

    The repository declares three state machines through the CDK:
    the document-analysis job runner, the orientation-correction pipeline
    and the top-level orchestrator.  The constructs are embedded as the
    code builds them (a scope of named states that [next], [when] and
    [otherwise] mutate), and an interpreter of the States Language runs
    the resulting graphs against an explicit model of the services they
    call. *)

From Stdlib Require Import ZArith Lia List String Ascii Bool.
From stdpp Require Import base option strings pretty list gmap.
Import ListNotations.

Set Warnings "-register-all".
Local Open Scope Z_scope.

(* ================================================================== *)
(** * JSON values, as the execution record carries them               *)
(* ================================================================== *)

Module Json.

(** Objects keep their fields in insertion order, as JS objects do. *)
Inductive json : Type :=
| JNull
| JBool (b : bool)
| JNum (n : Z)
| JStr (s : string)
| JArr (items : list json)
| JObj (fields : list (string * json)).

Fixpoint lookup_field (k : string) (fs : list (string * json)) : option json :=
  match fs with
  | [] => None
  | (k', v) :: fs' => if String.eqb k k' then Some v else lookup_field k fs'
  end.

(** Assigning a field replaces it in place when it exists and appends it
    otherwise. *)
Fixpoint set_field (k : string) (v : json) (fs : list (string * json))
  : list (string * json) :=
  match fs with
  | [] => [(k, v)]
  | (k', v') :: fs' =>
      if String.eqb k k' then (k', v) :: fs' else (k', v') :: set_field k v fs'
  end.

(** One segment of a JsonPath: [.name] or [.[i]]. *)
Inductive seg : Type :=
| Field (name : string)
| Index (i : nat).

Definition path := list seg.

Definition jstep (s : seg) (j : json) : option json :=
  match s, j with
  | Field k, JObj fs => lookup_field k fs
  | Index i, JArr xs => nth_error xs i
  | _, _ => None
  end.

Fixpoint jget (p : path) (j : json) : option json :=
  match p with
  | [] => Some j
  | s :: p' =>
      match jstep s j with
      | Some j' => jget p' j'
      | None => None
      end
  end.

(** Writing at a reference path: missing intermediate objects are created,
    a non-object on the way (or an array index) is a path failure. *)
Fixpoint jset (p : path) (v : json) (j : json) : option json :=
  match p with
  | [] => Some v
  | Field k :: p' =>
      match j with
      | JObj fs =>
          let sub := match lookup_field k fs with
                     | Some s => s
                     | None => JObj []
                     end in
          match jset p' v sub with
          | Some s' => Some (JObj (set_field k s' fs))
          | None => None
          end
      | _ => None
      end
  | Index _ :: _ => None
  end.

Definition is_present (p : path) (j : json) : bool :=
  match jget p j with Some _ => true | None => false end.

End Json.
Import Json.

(* ================================================================== *)
(** * Strings: the JS string operations the constructs use            *)
(* ================================================================== *)

Module Str.

Definition is_lower (c : ascii) : bool :=
  let n := nat_of_ascii c in (97 <=? n)%nat && (n <=? 122)%nat.
Definition is_upper (c : ascii) : bool :=
  let n := nat_of_ascii c in (65 <=? n)%nat && (n <=? 90)%nat.
Definition is_digit (c : ascii) : bool :=
  let n := nat_of_ascii c in (48 <=? n)%nat && (n <=? 57)%nat.

Definition upper_char (c : ascii) : ascii :=
  if is_lower c then ascii_of_nat (nat_of_ascii c - 32) else c.
Definition lower_char (c : ascii) : ascii :=
  if is_upper c then ascii_of_nat (nat_of_ascii c + 32) else c.

Fixpoint map_string (f : ascii -> ascii) (s : string) : string :=
  match s with
  | EmptyString => EmptyString
  | String c s' => String (f c) (map_string f s')
  end.

Definition toUpperCase := map_string upper_char.
Definition toLowerCase := map_string lower_char.

(** [s.charAt(0)] and [s.substring(1)]. *)
Definition charAt0 (s : string) : string :=
  match s with
  | EmptyString => EmptyString
  | String c _ => String c EmptyString
  end.
Definition substring1 (s : string) : string :=
  match s with
  | EmptyString => EmptyString
  | String _ s' => s'
  end.

(** [s.split(c)] for a one-character separator. *)
Fixpoint split_aux (sep : ascii) (cur : string) (s : string) : list string :=
  match s with
  | EmptyString => [String.rev cur]
  | String c s' =>
      if Ascii.eqb c sep then String.rev cur :: split_aux sep EmptyString s'
      else split_aux sep (String c cur) s'
  end.
Definition split (sep : ascii) (s : string) : list string :=
  split_aux sep EmptyString s.

Definition join (l : list string) : string :=
  fold_right String.append EmptyString l.

Fixpoint drop_string (n : nat) (s : string) : string :=
  match n, s with
  | O, _ => s
  | S n', String _ s' => drop_string n' s'
  | S _, EmptyString => EmptyString
  end.

(** [s.replace(pat, by)] with a string pattern: the first occurrence only. *)
Fixpoint replace_first (pat by_ : string) (s : string) : string :=
  if String.prefix pat s then String.append by_ (drop_string (String.length pat) s)
  else match s with
       | EmptyString => EmptyString
       | String c s' => String c (replace_first pat by_ s')
       end.

Fixpoint digits_to_nat (acc : nat) (s : string) : option nat :=
  match s with
  | EmptyString => Some acc
  | String c s' =>
      if is_digit c
      then digits_to_nat (10 * acc + (nat_of_ascii c - 48))%nat s'
      else None
  end.

End Str.

(* ================================================================== *)
(** * JsonPath expressions as the source writes them                  *)
(* ================================================================== *)

Module JsonPath.

(** A segment between dots: [name], or [[i]] for an array index. *)
Definition parse_seg (s : string) : option seg :=
  match s with
  | String "[" rest =>
      match Str.split "]" rest with
      | [ds; EmptyString] =>
          match ds with
          | EmptyString => None
          | _ => option_map Index (Str.digits_to_nat 0 ds)
          end
      | _ => None
      end
  | _ => Some (Field s)
  end.

Fixpoint parse_segs (l : list string) : option path :=
  match l with
  | [] => Some []
  | s :: l' =>
      match parse_seg s, parse_segs l' with
      | Some x, Some p => Some (x :: p)
      | _, _ => None
      end
  end.

(** Where a path reads from: the state input ([$...]) or the context
    object ([$$...]). *)
Inductive root : Type := Input | Context.

Definition parse (s : string) : option (root * path) :=
  match s with
  | String "$" (String "$" rest) =>
      match rest with
      | EmptyString => Some (Context, [])
      | String "." rest' => option_map (pair Context) (parse_segs (Str.split "." rest'))
      | _ => None
      end
  | String "$" rest =>
      match rest with
      | EmptyString => Some (Input, [])
      | String "." rest' => option_map (pair Input) (parse_segs (Str.split "." rest'))
      | _ => None
      end
  | _ => None
  end.

(** Resolve a path expression against the state input and the context. *)
Definition eval (expr : string) (input ctx : json) : option json :=
  match parse expr with
  | Some (Input, p) => jget p input
  | Some (Context, p) => jget p ctx
  | None => None
  end.

(** A reference path (ResultPath, OutputPath, InputPath) addresses the
    state input only. *)
Definition reference (expr : string) : option path :=
  match parse expr with
  | Some (Input, p) => Some p
  | _ => None
  end.

End JsonPath.

(* ================================================================== *)
(** * The States Language: states, templates, conditions              *)
(* ================================================================== *)

Module ASL.

(** ** Payload templates ([parameters], [resultSelector])

    [PathAt e] is [sfn.JsonPath.stringAt(e)]: [e] is a JsonPath, or an
    intrinsic call [States.Format('...', p1, ..., pn)]. *)
Inductive tmpl : Type :=
| Lit (j : json)
| PathAt (expr : string)
| Obj (fields : list (string * tmpl)).

Fixpoint trim_left (s : string) : string :=
  match s with
  | String " " s' => trim_left s'
  | _ => s
  end.

Fixpoint take_quoted (acc : string) (s : string) : option (string * string) :=
  match s with
  | EmptyString => None
  | String "'" rest => Some (String.rev acc, rest)
  | String c rest => take_quoted (String c acc) rest
  end.

Fixpoint strip_last (c : ascii) (s : string) : option string :=
  match s with
  | EmptyString => None
  | String a EmptyString => if Ascii.eqb a c then Some EmptyString else None
  | String a s' => option_map (String a) (strip_last c s')
  end.

(** Reads [States.Format('<fmt>', <path>, ...)] into the format string and
    its argument paths. *)
Definition parse_format (e : string) : option (string * list string) :=
  if String.prefix "States.Format(" e then
    match strip_last ")" (Str.drop_string 14 e) with
    | Some (String "'" body) =>
        match take_quoted EmptyString body with
        | Some (fmt, rest) =>
            match Str.split "," rest with
            | _ :: args => Some (fmt, map trim_left args)
            | [] => None
            end
        | None => None
        end
    | _ => None
    end
  else None.

(** [States.Format]: each [{}] takes the next argument; the arguments must
    be used up exactly. *)
Fixpoint format (fmt : string) (args : list string) : option string :=
  match fmt with
  | EmptyString => match args with [] => Some EmptyString | _ => None end
  | String "{" (String "}" rest) =>
      match args with
      | a :: args' => option_map (String.append a) (format rest args')
      | [] => None
      end
  | String c rest => option_map (String c) (format rest args)
  end.

(** How an argument is printed inside the formatted string. *)
Definition format_arg (j : json) : option string :=
  match j with
  | JStr s => Some s
  | JBool true => Some "true"%string
  | JBool false => Some "false"%string
  | JNull => Some "null"%string
  | _ => None
  end.

Fixpoint eval_args (args : list string) (input ctx : json) : option (list string) :=
  match args with
  | [] => Some []
  | a :: args' =>
      match JsonPath.eval a input ctx with
      | Some j =>
          match format_arg j, eval_args args' input ctx with
          | Some s, Some l => Some (s :: l)
          | _, _ => None
          end
      | None => None
      end
  end.

Definition eval_expr (e : string) (input ctx : json) : option json :=
  match parse_format e with
  | Some (fmt, args) =>
      match eval_args args input ctx with
      | Some l => option_map JStr (format fmt l)
      | None => None
      end
  | None => JsonPath.eval e input ctx
  end.

Fixpoint eval_tmpl (t : tmpl) (input ctx : json) : option json :=
  match t with
  | Lit j => Some j
  | PathAt e => eval_expr e input ctx
  | Obj fields =>
      let fix go (fs : list (string * tmpl)) : option (list (string * json)) :=
        match fs with
        | [] => Some []
        | (k, t') :: fs' =>
            match eval_tmpl t' input ctx, go fs' with
            | Some v, Some r => Some ((k, v) :: r)
            | _, _ => None
            end
        end in
      option_map JObj (go fields)
  end.

(** ** Choice conditions *)
Inductive condition : Type :=
| StringEquals (variable value : string)
| IsPresent (variable : string).

(** [None] is a runtime failure: a compared variable that does not
    resolve. *)
Definition eval_cond (c : condition) (input ctx : json) : option bool :=
  match c with
  | StringEquals v s =>
      match JsonPath.eval v input ctx with
      | Some (JStr x) => Some (String.eqb x s)
      | Some _ => Some false
      | None => None
      end
  | IsPresent v =>
      match JsonPath.eval v input ctx with
      | Some _ => Some true
      | None => Some false
      end
  end.

(** The first rule whose condition holds; [Some None] when none does. *)
Fixpoint choose (rules : list (condition * string)) (input ctx : json)
  : option (option string) :=
  match rules with
  | [] => Some None
  | (c, target) :: rules' =>
      match eval_cond c input ctx with
      | Some true => Some (Some target)
      | Some false => choose rules' input ctx
      | None => None
      end
  end.

(** ** Task resources and error policies *)
Inductive resource : Type :=
| LambdaInvoke (functionName : string)
| CallAwsService (service action : string)
| StartExecution (stateMachine : string).

Record retrier : Type := mkRetrier {
  errorEquals : list string;
  intervalSeconds : Z;
  maxAttempts : nat;
  backoffRate : Z
}.

Record catcher : Type := mkCatcher {
  catchErrors : list string;
  catchResultPath : string;
  catchNext : string
}.

Record task : Type := mkTask {
  taskResource : resource;
  taskParameters : option tmpl;
  taskResultSelector : option tmpl;
  taskResultPath : string;
  taskOutputPath : string;
  taskRetry : list retrier;
  taskCatch : list catcher
}.

Inductive state : Type :=
| Task (spec : task) (next : option string)
| Pass (parameters : option tmpl) (resultPath : string) (next : option string)
| Wait (seconds : Z) (next : option string)
| Choice (choices : list (condition * string)) (default : option string)
| Fail (error cause : string)
| Parallel (branches : list string) (resultSelector : option tmpl)
           (next : option string).

(** What a service call returns to the task. *)
Inductive task_result : Type :=
| TOk (result : json)
| TErr (error cause : string).

(** Selector, then ResultPath into the raw input, then OutputPath. *)
Definition apply_result (input result : json) (selector : option tmpl)
    (resultPath outputPath : string) (ctx : json) : option json :=
  match (match selector with
         | None => Some result
         | Some t => eval_tmpl t result ctx
         end) with
  | None => None
  | Some sel =>
      match JsonPath.reference resultPath with
      | None => None
      | Some p =>
          match jset p sel input with
          | None => None
          | Some merged =>
              match JsonPath.reference outputPath with
              | None => None
              | Some q => jget q merged
              end
          end
      end
  end.

Definition error_matches (names : list string) (e : string) : bool :=
  existsb (fun n => String.eqb n e || String.eqb n "States.ALL"
                    || String.eqb n "States.TaskFailed") names.

Fixpoint find_retrier (rs : list retrier) (counts : list nat) (e : string)
  : option (nat * retrier * nat) :=
  match rs, counts with
  | r :: rs', c :: counts' =>
      if error_matches (errorEquals r) e then Some (O, r, c)
      else match find_retrier rs' counts' e with
           | Some (i, r', c') => Some (S i, r', c')
           | None => None
           end
  | _, _ => None
  end.

Fixpoint bump (i : nat) (counts : list nat) : list nat :=
  match i, counts with
  | O, c :: cs => S c :: cs
  | S i', c :: cs => c :: bump i' cs
  | _, [] => []
  end.

Definition find_catcher (cs : list catcher) (e : string) : option catcher :=
  find (fun c => error_matches (catchErrors c) e) cs.

Definition error_output (e c : string) : json :=
  JObj [("Error"%string, JStr e); ("Cause"%string, JStr c)].

(** A call that takes no time on the workflow's clock. *)
Definition instant {W : Type} (call : W -> task_result * W) (w : W) (t : Z)
  : task_result * W * Z :=
  let '(r, w') := call w in (r, w', t).

Section Retry.
Context {W : Type}.

  (** Runs [act]; on an error a retrier accepts, sleeps
      [interval * backoff ^ attempt] seconds and runs it again, until the
      retrier's attempts are used up. *)
Fixpoint with_retry (budget : nat) (rs : list retrier) (counts : list nat)
      (act : W -> Z -> task_result * W * Z) (w : W) (t : Z)
    : task_result * W * Z :=
    match act w t with
    | (TOk v, w', t') => (TOk v, w', t')
    | (TErr e c, w', t') =>
        match budget, find_retrier rs counts e with
        | S budget', Some (i, r, n) =>
            if (n <? maxAttempts r)%nat
            then with_retry budget' rs (bump i counts) act w'
                   (t' + intervalSeconds r * backoffRate r ^ Z.of_nat n)
            else (TErr e c, w', t')
        | _, _ => (TErr e c, w', t')
        end
    end.

Definition retry_budget (rs : list retrier) : nat :=
    fold_right (fun r n => (maxAttempts r + n)%nat) O rs.
End Retry.

(** ** State machines and their executions *)

Record machine : Type := mkMachine {
  startAt : string;
  states : gmap string state;
  timeoutSeconds : option Z
}.

Inductive outcome : Type :=
| Succeeded (output : json)
| Failed (error cause : string)
| TimedOut
| OutOfFuel.

(** The context object [$$] of an execution. *)
Definition context (name : string) (input : json) : json :=
  JObj [("Execution"%string,
         JObj [("Name"%string, JStr name); ("Input"%string, input)])].

Fixpoint dedup (l : list nat) : list nat :=
  match l with
  | [] => []
  | x :: l' => x :: List.filter (fun y => negb (Nat.eqb x y)) (dedup l')
  end.

(** The order in which [n] parallel branches run to completion: the
    scheduler's order first, the branches it does not mention after. *)
Definition completion_order (n : nat) (sched : list nat) : list nat :=
  let s := dedup (List.filter (fun i => Nat.ltb i n) sched) in
  s ++ List.filter (fun i => negb (existsb (Nat.eqb i) s)) (seq 0 n).

Section Interpreter.
Context {W : Type}.

  (** The services behind the task resources: a call made at time [t]
      reads and updates the world and returns at a later time. *)
Variable invoke : resource -> json -> W -> Z -> task_result * W * Z.
  (** Completion order of parallel branches. *)
Variable schedule : list nat.
Variable m : machine.
Variable ctx : json.

Record result : Type := mkResult {
    res_outcome : outcome;
    res_trace : list string;
    res_clock : Z;
    res_world : W
  }.

Definition entered (name : string) (r : result) : result :=
    mkResult (res_outcome r) (name :: res_trace r) (res_clock r) (res_world r).

Definition timed_out (t : Z) : bool :=
    match timeoutSeconds m with
    | Some limit => limit <=? t
    | None => false
    end.

Definition runtime_error (t : Z) (w : W) : result :=
    mkResult (Failed "States.Runtime" "path or state could not be resolved") [] t w.

  (** Runs the branches in completion order from the same input and
      start time; each output lands at its branch's index. *)
Fixpoint run_branches (recur : string -> json -> Z -> W -> result)
      (branches : list string) (order : list nat) (input : json) (t0 : Z)
      (outs : list json) (tr : list string) (tmax : Z) (w : W)
    : outcome * list string * Z * W :=
    match order with
    | [] => (Succeeded (JArr outs), tr, tmax, w)
    | i :: order' =>
        match nth_error branches i with
        | None => run_branches recur branches order' input t0 outs tr tmax w
        | Some b =>
            let r := recur b input t0 w in
            match res_outcome r with
            | Succeeded out =>
                run_branches recur branches order' input t0
                  (<[i := out]> outs) (tr ++ res_trace r)
                  (Z.max tmax (res_clock r)) (res_world r)
            | o => (o, tr ++ res_trace r, Z.max tmax (res_clock r), res_world r)
            end
        end
    end.

Definition continue (recur : string -> json -> Z -> W -> result)
      (next : option string) (out : json) (t : Z) (w : W) : result :=
    match next with
    | Some n => recur n out t w
    | None => mkResult (Succeeded out) [] t w
    end.

  (** One state, entered with [input] at time [t]; [recur] runs the rest
      of the execution. *)
Definition exec (recur : string -> json -> Z -> W -> result)
      (st : state) (input : json) (t : Z) (w : W) : result :=
    match st with
    | Pass params rp next =>
        match (match params with
               | Some p => eval_tmpl p input ctx
               | None => Some input
               end) with
        | None => runtime_error t w
        | Some v =>
            match apply_result input v None rp "$" ctx with
            | Some out => continue recur next out t w
            | None => runtime_error t w
            end
        end
    | Wait secs next => continue recur next input (t + secs) w
    | Choice rules dflt =>
        match choose rules input ctx with
        | Some (Some target) => recur target input t w
        | Some None =>
            match dflt with
            | Some target => recur target input t w
            | None => mkResult (Failed "States.NoChoiceMatched" "") [] t w
            end
        | None => runtime_error t w
        end
    | Fail e c => mkResult (Failed e c) [] t w
    | Task spec next =>
        match (match taskParameters spec with
               | Some p => eval_tmpl p input ctx
               | None => Some input
               end) with
        | None => runtime_error t w
        | Some request =>
            let '(r, w', t') :=
              with_retry (retry_budget (taskRetry spec)) (taskRetry spec)
                (map (fun _ => O) (taskRetry spec))
                (invoke (taskResource spec) request) w t in
            match r with
            | TOk v =>
                match apply_result input v (taskResultSelector spec)
                        (taskResultPath spec) (taskOutputPath spec) ctx with
                | Some out => continue recur next out t' w'
                | None => runtime_error t' w'
                end
            | TErr e c =>
                match find_catcher (taskCatch spec) e with
                | Some h =>
                    match apply_result input (error_output e c) None
                            (catchResultPath h) "$" ctx with
                    | Some out => recur (catchNext h) out t' w'
                    | None => runtime_error t' w'
                    end
                | None => mkResult (Failed e c) [] t' w'
                end
            end
        end
    | Parallel branches sel next =>
        let n := length branches in
        let '(o, tr, t', w') :=
          run_branches recur branches (completion_order n schedule) input t
            (replicate n JNull) [] t w in
        match o with
        | Succeeded arr =>
            match apply_result input arr sel "$" "$" ctx with
            | Some out =>
                let r := continue recur next out t' w' in
                mkResult (res_outcome r) (tr ++ res_trace r) (res_clock r) (res_world r)
            | None =>
                mkResult (Failed "States.Runtime" "path or state could not be resolved")
                  tr t' w'
            end
        | o' => mkResult o' tr t' w'
        end
    end.

  (** The execution from state [cur]: the workflow timeout is checked as
      each state is entered, and not while a state runs: the clock of a
      result tells whether its last state ended before the timeout. *)
Fixpoint run (fuel : nat) (cur : string) (input : json) (t : Z) (w : W)
    : result :=
    match fuel with
    | O => mkResult OutOfFuel [] t w
    | S fuel' =>
        if timed_out t then mkResult TimedOut [] t w
        else match states m !! cur with
             | None => runtime_error t w
             | Some st => entered cur (exec (run fuel') st input t w)
             end
    end.

Definition execute (fuel : nat) (input : json) (w : W) : result :=
    run fuel (startAt m) input 0 w.

End Interpreter.

End ASL.

(* ================================================================== *)
(** * The CDK layer: constructs in a scope, chained by mutation       *)
(* ================================================================== *)

Module Cdk.
Import ASL.

(** The states created so far, by construct id.  [next], [when] and
    [otherwise] update the state a handle names, so every chain holding
    that handle sees the change. *)
Definition scope := gmap string state.

(** Construct-building code: it reads and updates the scope, and throws
    (here [None]) on a duplicate id or an illegal chaining. *)
Definition build (A : Type) : Type := scope -> option (A * scope).

Definition ret {A} (a : A) : build A := fun g => Some (a, g).
Definition bind {A B} (x : build A) (f : A -> build B) : build B :=
  fun g => match x g with
           | Some (a, g') => f a g'
           | None => None
           end.

Notation "'let*' x := c 'in' k" := (bind c (fun x => k))
  (at level 10, x name, c at level 100, k at level 200).

(** An [IChainable]: where the chain starts and which states still have
    an open [Next]. *)
Record chain : Type := mkChain {
  chainStart : string;
  chainEnds : list string
}.

Definition construct (id : string) (st : state) (ends : list string) : build chain :=
  fun g => match g !! id with
           | Some _ => None
           | None => Some (mkChain id ends, <[id := st]> g)
           end.

(** [state.next(target)]: only a state with an open [Next] accepts it. *)
Definition make_next (target : string) (st : state) : option state :=
  match st with
  | Task spec None => Some (Task spec (Some target))
  | Pass p rp None => Some (Pass p rp (Some target))
  | Wait secs None => Some (Wait secs (Some target))
  | Parallel bs sel None => Some (Parallel bs sel (Some target))
  | _ => None
  end.

Fixpoint link_all (ends : list string) (target : string) (g : scope) : option scope :=
  match ends with
  | [] => Some g
  | e :: ends' =>
      match g !! e with
      | Some st =>
          match make_next target st with
          | Some st' => link_all ends' target (<[e := st']> g)
          | None => None
          end
      | None => None
      end
  end.

(** [a.next(b)]: every open end of [a] continues at the start of [b]. *)
Definition next (a b : chain) : build chain :=
  fun g => match chainEnds a with
           | [] => None
           | ends =>
               match link_all ends (chainStart b) g with
               | Some g' => Some (mkChain (chainStart a) (chainEnds b), g')
               | None => None
               end
           end.

(** [choice.when(cond, target)] *)
Definition when (c : chain) (cond : condition) (target : chain) : build chain :=
  fun g => match g !! chainStart c with
           | Some (Choice rules d) =>
               Some (c, <[chainStart c := Choice (rules ++ [(cond, chainStart target)]) d]> g)
           | _ => None
           end.

(** [choice.otherwise(target)] *)
Definition otherwise (c : chain) (target : chain) : build chain :=
  fun g => match g !! chainStart c with
           | Some (Choice rules None) =>
               Some (c, <[chainStart c := Choice rules (Some (chainStart target))]> g)
           | _ => None
           end.

(** [parallel.branch(chain)] *)
Definition branch (p : chain) (b : chain) : build chain :=
  fun g => match g !! chainStart p with
           | Some (Parallel bs sel n) =>
               Some (p, <[chainStart p := Parallel (bs ++ [chainStart b]) sel n]> g)
           | _ => None
           end.

Definition outgoing (st : state) : list string :=
  match st with
  | Task _ n | Pass _ _ n | Wait _ n | Parallel _ _ n => option_list n
  | Choice rules d => option_list d ++ map snd rules
  | Fail _ _ => []
  end.

Definition nextable (st : state) : bool :=
  match st with
  | Choice _ _ | Fail _ _ => false
  | _ => true
  end.

Definition mem (x : string) (l : list string) : bool := existsb (String.eqb x) l.

(** The states reachable from the queue that have no way out. *)
Fixpoint reachable_ends (fuel : nat) (g : scope) (queue visited found : list string)
  : list string :=
  match fuel, queue with
  | S fuel', s :: queue' =>
      if mem s visited then reachable_ends fuel' g queue' visited found
      else match g !! s with
           | Some st =>
               match outgoing st with
               | [] => reachable_ends fuel' g queue' (s :: visited) (found ++ [s])
               | out => reachable_ends fuel' g (out ++ queue') (s :: visited) found
               end
           | None => reachable_ends fuel' g queue' (s :: visited) found
           end
  | _, _ => found
  end.

(** [choice.afterwards()]: a chain whose open ends are the open ends of
    all the branches of the choice. *)
Definition afterwards (c : chain) : build chain :=
  fun g =>
    let n := size g in
    let ends := reachable_ends (S n * S n)%nat g [chainStart c] [] [] in
    Some (mkChain (chainStart c)
            (List.filter (fun e => match g !! e with
                              | Some st => nextable st
                              | None => false
                              end) ends), g).

(** ** The state constructs *)

Definition new_Pass (id : string) (parameters : option tmpl) (resultPath : string)
  : build chain := construct id (Pass parameters resultPath None) [id].

Definition new_Wait (id : string) (seconds : Z) : build chain :=
  construct id (Wait seconds None) [id].

Definition new_Choice (id : string) : build chain :=
  construct id (Choice [] None) [].

Definition new_Fail (id : string) (cause error : string) : build chain :=
  construct id (Fail error cause) [].

Definition new_Parallel (id : string) (resultSelector : option tmpl) : build chain :=
  construct id (Parallel [] resultSelector None) [id].

(** [tasks.CallAwsService]: the parameters go to the SDK call as they
    are; no retrier or catcher unless the code adds one. *)
Definition new_CallAwsService (id service action : string) (parameters : tmpl)
    (resultSelector : tmpl) (resultPath : string) : build chain :=
  construct id
    (Task (mkTask (CallAwsService service action) (Some parameters)
             (Some resultSelector) resultPath "$" [] []) None) [id].

(** The retrier [tasks.LambdaInvoke] attaches when
    [retryOnServiceExceptions] is left at its default (true). *)
Definition lambdaServiceRetry : retrier :=
  mkRetrier ["Lambda.ServiceException"; "Lambda.AWSLambdaException";
             "Lambda.SdkClientException"]%string 2 6 2.

(** [tasks.LambdaInvoke]: the payload defaults to the whole state input,
    and the task result is the Invoke response, which holds the function's
    return value under [Payload]. *)
Definition new_LambdaInvoke (id : string) (lambdaFunction : string)
    (resultPath outputPath : string) (retryOnServiceExceptions : option bool)
  : build chain :=
  construct id
    (Task (mkTask (LambdaInvoke lambdaFunction)
             (Some (Obj [("FunctionName", Lit (JStr lambdaFunction));
                         ("Payload", PathAt "$")]%string))
             None resultPath outputPath
             (if default true retryOnServiceExceptions then [lambdaServiceRetry] else [])
             []) None) [id].

(** [tasks.StepFunctionsStartExecution] with [RUN_JOB]: the task waits for
    the started execution and its result is that execution's description. *)
Definition new_StepFunctionsStartExecution (id : string) (stateMachine : string)
    (input : tmpl) (resultPath outputPath : string) : build chain :=
  construct id
    (Task (mkTask (StartExecution stateMachine)
             (Some (Obj [("Input", input);
                         ("StateMachineArn", Lit (JStr stateMachine))]%string))
             None resultPath outputPath [] []) None) [id].

(** [new sfn.StateMachine(this, id, { definition, timeout })] *)
Definition new_StateMachine (definition : chain) (timeout : Z) : build machine :=
  fun g => Some (mkMachine (chainStart definition) g (Some timeout), g).

Definition minutes (n : Z) : Z := 60 * n.
Definition seconds (n : Z) : Z := n.

(** Raw States Language fields: a key ending in [.$] holds a path. *)
Definition raw_fields (l : list (string * string)) : tmpl :=
  Obj (map (fun kv => match strip_last "$" (fst kv) with
                      | Some k =>
                          match strip_last "." k with
                          | Some k' => (k', PathAt (snd kv))
                          | None => (fst kv, Lit (JStr (snd kv)))
                          end
                      | None => (fst kv, Lit (JStr (snd kv)))
                      end) l).

(** Runs the constructor code in an empty scope. *)
Definition synth (b : build machine) : option machine :=
  match b ∅ with
  | Some (m, _) => Some m
  | None => None
  end.

(** The machine a constructor leaves in its [stateMachine] property. *)
Definition stateMachine (b : build machine) : machine :=
  default (mkMachine EmptyString ∅ None) (synth b).

End Cdk.

(* ================================================================== *)
(** * The repository's constructs                                     *)
(* ================================================================== *)

Import ASL Cdk.

(** ** lib/lambda-helper.ts *)
Module LambdaHelper.

Definition capitalized (c : string) : string :=
  Str.toUpperCase (Str.charAt0 c) +:+ Str.toLowerCase (Str.substring1 c).

(** [getLambdaFunction]: the construct id the function gets. *)
Definition getLambdaFunction (assetPath : string) : string :=
  Str.join (map (fun c => capitalized c +:+ "Function") (Str.split "-" assetPath)).

Definition getLambdaInvokeTask (lambdaFunction : string) : build chain :=
  let name := Str.replace_first "Function" "Task" lambdaFunction in
  new_LambdaInvoke name lambdaFunction "$.results" "$.results.Payload" None.

End LambdaHelper.

(** ** The document-analysis job runner *)
Module Textract.

Definition construct (pdfSourceBucket destinationBucket : string) : build machine :=
  let* runAmazonTextract :=
    new_CallAwsService "RunAmazonTextract" "textract" "startDocumentAnalysis"
      (Obj [("ClientRequestToken", PathAt "$$.Execution.Name");
            ("DocumentLocation",
             Obj [("S3Object",
                   Obj [("Bucket", Lit (JStr pdfSourceBucket));
                        ("Name", PathAt "$.key")])]);
            ("FeatureTypes", Lit (JArr [JStr "FORMS"; JStr "TABLES"]));
            ("JobTag", PathAt "$$.Execution.Name");
            ("OutputConfig",
             Obj [("S3Bucket", Lit (JStr destinationBucket));
                  ("S3Prefix", PathAt "$.key")])])
      (Obj [("JobId", PathAt "$.JobId")])
      "$.textract" in
  let* getDocumentAnalysis :=
    new_CallAwsService "GetDocumentAnalysis" "textract" "getDocumentAnalysis"
      (Obj [("JobId", PathAt "$.textract.JobId");
            ("MaxResults", Lit (JNum 1))])
      (Obj [("JobStatus", PathAt "$.JobStatus")])
      "$.status" in
  let* jobFailed :=
    new_Fail "Job Failed" "Amazon Textract Job Failed" "DescribeJob returned FAILED" in
  let* jobFinish :=
    new_Pass "Job Finish"
      (Some (Obj [("key", PathAt "$.key");
                  ("JobId", PathAt "$.textract.JobId");
                  ("textractPrefix",
                   PathAt "States.Format('{}/{}', $.key, $.textract.JobId)")]))
      "$" in
  let* wait := new_Wait "Wait 1 minute" (minutes 1) in
  let* choice := new_Choice "Check Job Status" in
  let* choice :=
    when choice (StringEquals "$.status.JobStatus" "FAILED") jobFailed in
  let* choice :=
    when choice (StringEquals "$.status.JobStatus" "SUCCEEDED") jobFinish in
  let* choice := otherwise choice wait in
  let* c1 := next runAmazonTextract wait in
  let* c2 := next c1 getDocumentAnalysis in
  let* definition := next c2 choice in
  new_StateMachine definition (minutes 180).

End Textract.

(** ** The orientation-correction pipeline *)
Module CorrectPdf.

Definition construct : build machine :=
  let pdfToImagesFunction := LambdaHelper.getLambdaFunction "pdf-to-Images" in
  let analyzeDocumentImagesFunction :=
    LambdaHelper.getLambdaFunction "analyze-document-images" in
  let correctImageOrientationFunction :=
    LambdaHelper.getLambdaFunction "correct-image-orientation" in
  let imagesToPdfFunction := LambdaHelper.getLambdaFunction "images-to-pdf" in
  let* pdfToImagesTask := LambdaHelper.getLambdaInvokeTask pdfToImagesFunction in
  let* analyzeDocumentImagesTask :=
    LambdaHelper.getLambdaInvokeTask analyzeDocumentImagesFunction in
  let* correctImageOrientationTask :=
    LambdaHelper.getLambdaInvokeTask correctImageOrientationFunction in
  let* imagesToPdfTask := LambdaHelper.getLambdaInvokeTask imagesToPdfFunction in
  let* skipRotationChoice := new_Choice "Skip Rotation Choice" in
  let* skipFixing := new_Pass "Skip Fixing Rotation" None "$" in
  let* skipRotationChoice :=
    when skipRotationChoice (IsPresent "$.skipRotation") skipFixing in
  let* c1 := next analyzeDocumentImagesTask correctImageOrientationTask in
  let* wait5 := new_Wait "Wait 5 seconds" (seconds 5) in
  let* c2 := next c1 wait5 in
  let* skipRotationChoice := otherwise skipRotationChoice c2 in
  let* after := afterwards skipRotationChoice in
  let* c3 := next after imagesToPdfTask in
  let* definition := next pdfToImagesTask skipRotationChoice in
  new_StateMachine definition (minutes 180).

End CorrectPdf.

(** ** The top-level orchestrator *)
Module Assignments.

Definition correctPdfOrientationStateMachine := "CorrectPdfOrientationStateMachineConstruct".
Definition amazonTextractMultiPagesDocumentsStateMachine :=
  "AmazonTextractMultiPagesDocumentsStateMachineConstruct".
Definition transformFormResultStateMachine := "TransformFormResultStateMachineConstruct".
Definition generateMarkResultStateMachine := "GenerateMarkResultStateMachineConstruct".

Definition getStateMachineExecution (sid : string) (stateMachine : string)
    (inputPath : option string) : build chain :=
  new_StepFunctionsStartExecution sid stateMachine
    (PathAt (default "$.Input" inputPath)) "$.results" "$.results".

Definition construct : build machine :=
  let* scriptsCorrectPdfOrientationStateMachineExecution :=
    getStateMachineExecution "ScriptsCorrectPdfOrientationStateMachineExecution"
      correctPdfOrientationStateMachine None in
  let* answerCorrectPdfOrientationStateMachineExecution :=
    getStateMachineExecution "AnswerCorrectPdfOrientationStateMachineExecution"
      correctPdfOrientationStateMachine None in
  let* answerAmazonTextractMultiPagesDocumentsStateMachineExecution :=
    getStateMachineExecution
      "AnswerAmazonTextractMultiPagesDocumentsStateMachineExecution"
      amazonTextractMultiPagesDocumentsStateMachine None in
  let* scriptsAmazonTextractMultiPagesDocumentsStateMachineExecution :=
    getStateMachineExecution
      "ScriptsAmazonTextractMultiPagesDocumentsStateMachineExecution"
      amazonTextractMultiPagesDocumentsStateMachine None in
  let* answerTransformFormResultStateMachineExecution :=
    getStateMachineExecution "AnswerTransformFormResultStateMachineExecution"
      transformFormResultStateMachine (Some "$.Output") in
  let* scriptsTransformFormResultStateMachineExecution :=
    getStateMachineExecution "ScriptsTransformFormResultStateMachineExecution"
      transformFormResultStateMachine (Some "$.Output") in
  let* generateMarkResultStateMachineExecution :=
    getStateMachineExecution "GenerateMarkResultStateMachineExecution"
      generateMarkResultStateMachine (Some "$") in
  let* start := new_Pass "StartPass" None "$" in
  let* standardAnswerPass :=
    new_Pass "StandardAnswerPass"
      (Some (Obj [("key", PathAt "$.standardAnswerKey");
                  ("skipRotation", Lit (JBool true))]))
      "$.Input" in
  let* scriptsPass :=
    new_Pass "ScriptsPass"
      (Some (Obj [("key", PathAt "$.scriptsKey")]))
      "$.Input" in
  let* parallel :=
    new_Parallel "ProcessParallel"
      (Some (raw_fields [("scripts.$", "$.[0].Output");
                         ("standardAnswer.$", "$.[1].Output")])) in
  let* b1 := next scriptsPass scriptsCorrectPdfOrientationStateMachineExecution in
  let* b1 := next b1 scriptsAmazonTextractMultiPagesDocumentsStateMachineExecution in
  let* b1 := next b1 scriptsTransformFormResultStateMachineExecution in
  let* parallel := branch parallel b1 in
  let* b2 := next standardAnswerPass answerCorrectPdfOrientationStateMachineExecution in
  let* b2 := next b2 answerAmazonTextractMultiPagesDocumentsStateMachineExecution in
  let* b2 := next b2 answerTransformFormResultStateMachineExecution in
  let* parallel := branch parallel b2 in
  let* c := next start parallel in
  let* definition := next c generateMarkResultStateMachineExecution in
  new_StateMachine definition (minutes 180).

End Assignments.

(* ================================================================== *)
(** * The services behind the tasks                                   *)
(* ================================================================== *)

(** ** Amazon Textract, as the runner uses it

    [startDocumentAnalysis] is idempotent on its [ClientRequestToken]: a
    token the service has seen names the job it started then.
    [getDocumentAnalysis] reports the job's status at each poll. *)
Module TextractService.

Record world : Type := mkWorld {
  started : list string;
  tokens : gmap string string;
  newJobId : nat -> string;
  jobStatus : string -> nat -> string;
  polls : nat
}.

Definition start_job (token : option string) (w : world) : string * world :=
  let id := newJobId w (length (started w)) in
  (id, mkWorld (started w ++ [id])
         (match token with
          | Some tok => <[tok := id]> (tokens w)
          | None => tokens w
          end)
         (newJobId w) (jobStatus w) (polls w)).

(** The job a request with this token gets: the one the token already
    names, or a new one. *)
Definition request_job (token : option string) (w : world) : string * world :=
  match token with
  | Some tok =>
      match tokens w !! tok with
      | Some id => (id, w)
      | None => start_job token w
      end
  | None => start_job None w
  end.

Definition startDocumentAnalysis (request : json) (w : world) : task_result * world :=
  match jget [Field "DocumentLocation"; Field "S3Object"; Field "Name"] request with
  | Some (JStr _) =>
      let '(id, w') :=
        request_job (match jget [Field "ClientRequestToken"] request with
                     | Some (JStr tok) => Some tok
                     | _ => None
                     end) w in
      (TOk (JObj [("JobId", JStr id)]), w')
  | _ => (TErr "Textract.InvalidParameterException" "DocumentLocation", w)
  end.

Definition getDocumentAnalysis (request : json) (w : world) : task_result * world :=
  match jget [Field "JobId"] request with
  | Some (JStr id) =>
      (TOk (JObj [("JobStatus", JStr (jobStatus w id (polls w)))]),
       mkWorld (started w) (tokens w) (newJobId w) (jobStatus w) (S (polls w)))
  | _ => (TErr "Textract.InvalidParameterException" "JobId", w)
  end.

(** The API calls answer at once: the runner's clock counts its waits. *)
Definition invoke (r : resource) (request : json) : world -> Z -> task_result * world * Z :=
  instant (fun w =>
    match r with
    | CallAwsService "textract" "startDocumentAnalysis" => startDocumentAnalysis request w
    | CallAwsService "textract" "getDocumentAnalysis" => getDocumentAnalysis request w
    | _ => (TErr "States.TaskFailed" "unsupported resource", w)
    end).

End TextractService.

(** ** AWS Lambda: the Invoke response wraps what the handler returns *)
Module LambdaService.

Definition invoke_response (payload : json) : json :=
  JObj [("ExecutedVersion", JStr "$LATEST");
        ("Payload", payload);
        ("StatusCode", JNum 200)].

Section Handlers.
Context {W : Type}.
  (** The function code: from the function's id and its event. *)
Variable handler : string -> json -> W -> task_result * W.

Definition invoke (r : resource) (request : json) : W -> Z -> task_result * W * Z :=
    instant (fun w =>
      match r with
      | LambdaInvoke fn =>
          match jget [Field "Payload"] request with
          | Some event =>
              match handler fn event w with
              | (TOk payload, w') => (TOk (invoke_response payload), w')
              | (TErr e c, w') => (TErr e c, w')
              end
          | None => (TErr "Lambda.InvalidRequestContentException" "Payload", w)
          end
      | _ => (TErr "States.TaskFailed" "unsupported resource", w)
      end).
End Handlers.

End LambdaService.

(** * The three machines, and how they are executed *)

Definition textractMachine (pdfSourceBucket destinationBucket : string) : machine :=
  stateMachine (Textract.construct pdfSourceBucket destinationBucket).

Definition correctPdfMachine : machine := stateMachine CorrectPdf.construct.

Definition assignmentsMachine : machine := stateMachine Assignments.construct.

(** An execution of the job runner, named [name]. *)
Definition runTextract (src dst name : string) (fuel : nat) (input : json)
    (w : TextractService.world) : result :=
  execute TextractService.invoke [] (textractMachine src dst)
    (context name input) fuel input w.

(** An execution of the orientation pipeline over the function code
    [handler]. *)
Definition runCorrectPdf {W} (handler : string -> json -> W -> task_result * W)
    (name : string) (fuel : nat) (input : json) (w : W) : result :=
  execute (LambdaService.invoke handler) [] correctPdfMachine
    (context name input) fuel input w.

(** ** Step Functions, as the orchestrator uses it

    [startExecution.sync] runs the named machine to its end on the given
    input.  The pipeline and the job runner are the machines above; the
    result-transform and mark-generation machines are declared in files
    outside this source, so they are taken as what they return. *)
Module StepFunctionsService.

Section Machines.
Context {W : Type}.
Variable handler : string -> json -> W -> task_result * W.
Variable transformFormResult : json -> outcome * Z.
Variable generateMarkResult : json -> outcome * Z.
Variable pdfDestinationBucket : string.
Variable executionName : nat -> string.

  (** Each started execution is recorded with its machine, its input and
      the states it went through. *)
Record world : Type := mkWorld {
    lambdas : W;
    textract : TextractService.world;
    executions : list (string * json * list string)
  }.

  (** The description a finished execution is reported with. *)
Definition describe (name : string) (input output : json) : json :=
    JObj [("Name", JStr name); ("Input", input); ("Output", output);
          ("Status", JStr "SUCCEEDED")].

Definition report (name : string) (input : json) (o : outcome) : task_result :=
    match o with
    | Succeeded out => TOk (describe name input out)
    | Failed e c => TErr "States.TaskFailed" c
    | TimedOut => TErr "States.TaskFailed" "States.Timeout"
    | OutOfFuel => TErr "States.TaskFailed" "States.Timeout"
    end.

Definition correctPdfFuel : nat := 6.
Definition textractFuel : nat := 542.

  (** The task returns when the started execution ends: its duration
      passes on the caller's clock. *)
Definition startExecution (sm : string) (input : json) (w : world) (t : Z)
    : task_result * world * Z :=
    let name := executionName (length (executions w)) in
    if String.eqb sm Assignments.correctPdfOrientationStateMachine then
      let r := runCorrectPdf handler name correctPdfFuel input (lambdas w) in
      (report name input (res_outcome r),
       mkWorld (res_world r) (textract w)
         (executions w ++ [(sm, input, res_trace r)]),
       t + res_clock r)
    else if String.eqb sm Assignments.amazonTextractMultiPagesDocumentsStateMachine then
      let r := runTextract pdfDestinationBucket pdfDestinationBucket name
                 textractFuel input (textract w) in
      (report name input (res_outcome r),
       mkWorld (lambdas w) (res_world r)
         (executions w ++ [(sm, input, res_trace r)]),
       t + res_clock r)
    else if String.eqb sm Assignments.transformFormResultStateMachine then
      (report name input (fst (transformFormResult input)),
       mkWorld (lambdas w) (textract w) (executions w ++ [(sm, input, [])]),
       t + snd (transformFormResult input))
    else if String.eqb sm Assignments.generateMarkResultStateMachine then
      (report name input (fst (generateMarkResult input)),
       mkWorld (lambdas w) (textract w) (executions w ++ [(sm, input, [])]),
       t + snd (generateMarkResult input))
    else (TErr "StepFunctions.StateMachineDoesNotExistException" sm, w, t).

Definition invoke (r : resource) (request : json) (w : world) (t : Z)
    : task_result * world * Z :=
    match r with
    | StartExecution sm =>
        match jget [Field "Input"] request with
        | Some input => startExecution sm input w t
        | None => (TErr "StepFunctions.InvalidExecutionInputException" "Input", w, t)
        end
    | _ => (TErr "States.TaskFailed" "unsupported resource", w, t)
    end.
End Machines.

End StepFunctionsService.

(** An execution of the orchestrator; [schedule] is the order in which its
    two branches complete. *)
Definition runAssignments {W} (handler : string -> json -> W -> task_result * W)
    (transformFormResult generateMarkResult : json -> outcome * Z)
    (pdfDestinationBucket : string) (executionName : nat -> string)
    (schedule : list nat) (name : string) (fuel : nat) (input : json)
    (w : StepFunctionsService.world) : result :=
  execute (StepFunctionsService.invoke handler transformFormResult
             generateMarkResult pdfDestinationBucket executionName)
    schedule assignmentsMachine (context name input) fuel input w.

(* ================================================================== *)
(** * Vocabulary of the statements                                    *)
(* ================================================================== *)

(** [l] followed by the states [r] goes through. *)
Definition prepend {W} (l : list string) (r : @result W) : result :=
  mkResult (res_outcome r) (l ++ res_trace r) (res_clock r) (res_world r).

Definition is_failure (o : outcome) : Prop :=
  match o with Succeeded _ => False | _ => True end.

(** The request a task sends for the record [d]. *)
Definition task_request (spec : task) (d ctx : json) : option json :=
  match taskParameters spec with
  | Some p => eval_tmpl p d ctx
  | None => Some d
  end.

(** The declared graph: [s'] is named by [s] as a successor. *)
Definition transition (m : machine) (s s' : string) : Prop :=
  exists st, states m !! s = Some st /\ In s' (outgoing st).

Definition terminal_state (m : machine) (s : string) : Prop :=
  exists st, states m !! s = Some st /\ outgoing st = [].

(** ** The job runner *)

(** The job the submission of execution [name] gets, and the service
    after it. *)
Definition job (name : string) (w : TextractService.world) : string :=
  fst (TextractService.request_job (Some name) w).
Definition after_submit (name : string) (w : TextractService.world)
  : TextractService.world :=
  snd (TextractService.request_job (Some name) w).

(** The service [n] polls later. *)
Definition advance (n : nat) (w : TextractService.world) : TextractService.world :=
  TextractService.mkWorld (TextractService.started w) (TextractService.tokens w)
    (TextractService.newJobId w) (TextractService.jobStatus w)
    (n + TextractService.polls w).

Definition terminal (s : string) : bool :=
  String.eqb s "FAILED" || String.eqb s "SUCCEEDED".

(** The state the status check names next. *)
Definition decide_next (s : string) : string :=
  if String.eqb s "FAILED" then "Job Failed"
  else if String.eqb s "SUCCEEDED" then "Job Finish"
  else "Wait 1 minute".

(** A record that went through the submission: it has its key and the
    job id under [textract]. *)
Definition submitted (k j : string) (fs : list (string * json)) : Prop :=
  lookup_field "key" fs = Some (JStr k) /\
  exists tf, lookup_field "textract" fs = Some (JObj tf) /\
             lookup_field "JobId" tf = Some (JStr j).

Definition with_status (s : string) (fs : list (string * json))
  : list (string * json) :=
  set_field "status" (JObj [("JobStatus", JStr s)]) fs.

(** One turn of the polling loop, and [n] of them. *)
Definition pollCycle : list string :=
  ["Wait 1 minute"; "GetDocumentAnalysis"; "Check Job Status"].

Fixpoint pollCycles (n : nat) : list string :=
  match n with
  | O => []
  | S n' => pollCycle ++ pollCycles n'
  end.

(** The result record of a finished job. *)
Definition finished (k j : string) : json :=
  JObj [("key", JStr k); ("JobId", JStr j);
        ("textractPrefix", JStr (k +:+ "/" +:+ j))].

Definition runner_edges : list (string * string) :=
  [("RunAmazonTextract", "Wait 1 minute");
   ("Wait 1 minute", "GetDocumentAnalysis");
   ("GetDocumentAnalysis", "Check Job Status");
   ("Check Job Status", "Job Failed");
   ("Check Job Status", "Job Finish");
   ("Check Job Status", "Wait 1 minute")].

(** The submission task as [Textract.construct] declares it. *)
Definition submitTask (pdfSourceBucket destinationBucket : string) : task :=
  mkTask (CallAwsService "textract" "startDocumentAnalysis")
    (Some (Obj [("ClientRequestToken", PathAt "$$.Execution.Name");
                ("DocumentLocation",
                 Obj [("S3Object",
                       Obj [("Bucket", Lit (JStr pdfSourceBucket));
                            ("Name", PathAt "$.key")])]);
                ("FeatureTypes", Lit (JArr [JStr "FORMS"; JStr "TABLES"]));
                ("JobTag", PathAt "$$.Execution.Name");
                ("OutputConfig",
                 Obj [("S3Bucket", Lit (JStr destinationBucket));
                      ("S3Prefix", PathAt "$.key")])]))
    (Some (Obj [("JobId", PathAt "$.JobId")])) "$.textract" "$" [] [].

Definition pollTask : task :=
  mkTask (CallAwsService "textract" "getDocumentAnalysis")
    (Some (Obj [("JobId", PathAt "$.textract.JobId");
                ("MaxResults", Lit (JNum 1))]))
    (Some (Obj [("JobStatus", PathAt "$.JobStatus")])) "$.status" "$" [] [].

Definition statusRules : list (condition * string) :=
  [(StringEquals "$.status.JobStatus" "FAILED", "Job Failed");
   (StringEquals "$.status.JobStatus" "SUCCEEDED", "Job Finish")].

Definition statusChoice : state := Choice statusRules (Some "Wait 1 minute").

Definition jobFinish : state :=
  Pass (Some (Obj [("key", PathAt "$.key");
                   ("JobId", PathAt "$.textract.JobId");
                   ("textractPrefix",
                    PathAt "States.Format('{}/{}', $.key, $.textract.JobId)")]))
    "$" None.

(** ** The orientation pipeline *)

Definition pdfToImagesFunction : string := "PdfFunctionToFunctionImagesFunction".
Definition analyzeDocumentImagesFunction : string :=
  "AnalyzeFunctionDocumentFunctionImagesFunction".
Definition correctImageOrientationFunction : string :=
  "CorrectFunctionImageFunctionOrientationFunction".
Definition imagesToPdfFunction : string := "ImagesFunctionToFunctionPdfFunction".

Definition pdfToImagesTask : string := "PdfTaskToFunctionImagesFunction".
Definition analyzeDocumentImagesTask : string :=
  "AnalyzeTaskDocumentFunctionImagesFunction".
Definition correctImageOrientationTask : string :=
  "CorrectTaskImageFunctionOrientationFunction".
Definition imagesToPdfTask : string := "ImagesTaskToFunctionPdfFunction".

(** The task state [getLambdaInvokeTask] renders for a function. *)
Definition lambdaTask (fn : string) : task :=
  mkTask (LambdaInvoke fn)
    (Some (Obj [("FunctionName", Lit (JStr fn)); ("Payload", PathAt "$")]))
    None "$.results" "$.results.Payload" [lambdaServiceRetry] [].

Definition lambda_request (fn : string) (event : json) : json :=
  JObj [("FunctionName", JStr fn); ("Payload", event)].

(** The calls a Lambda task makes for one event, retries included. *)
Definition call_lambda {W} (handler : string -> json -> W -> task_result * W)
    (fn : string) (event : json) (w : W) (t : Z) : task_result * W * Z :=
  with_retry 6 [lambdaServiceRetry] [O]
    (LambdaService.invoke handler (LambdaInvoke fn) (lambda_request fn event)) w t.

(** The service and the clock after [k] calls of [act] that each raised
    an error the Lambda retrier accepts, the first of them being attempt
    number [j]: each call is followed by the retrier's wait. *)
Fixpoint retried {W} (act : W -> Z -> task_result * W * Z) (j k : nat) (w : W) (t : Z)
  : option (W * Z) :=
  match k with
  | O => Some (w, t)
  | S k' =>
      match act w t with
      | (TErr e _, w', t') =>
          if error_matches (errorEquals lambdaServiceRetry) e
          then retried act (S j) k' w'
                 (t' + intervalSeconds lambdaServiceRetry
                       * backoffRate lambdaServiceRetry ^ Z.of_nat j)
          else None
      | (TOk _, _, _) => None
      end
  end.

(** What follows the detect step on the way to the recombination. *)
Definition detour : list string :=
  [correctImageOrientationTask; "Wait 5 seconds"; imagesToPdfTask].

(** ** The orchestrator *)

(** The task state [getStateMachineExecution] renders. *)
Definition startTask (stateMachine inputPath : string) : task :=
  mkTask (StartExecution stateMachine)
    (Some (Obj [("Input", PathAt inputPath);
                ("StateMachineArn", Lit (JStr stateMachine))]))
    None "$.results" "$.results" [] [].

Definition fanIn : tmpl :=
  Obj [("scripts", PathAt "$.[0].Output");
       ("standardAnswer", PathAt "$.[1].Output")].

(** What the two input-preparation steps hand to the pipeline. *)
Definition scriptsInput (ks : string) : json := JObj [("key", JStr ks)].
Definition answerInput (ka : string) : json :=
  JObj [("key", JStr ka); ("skipRotation", JBool true)].

Definition expectedInput (ks ka : string) (inp : json) : Prop :=
  inp = answerInput ka \/ inp = scriptsInput ks.

(** A recorded execution of the pipeline is one of the two: on the
    standard answer, without detection or correction; or on the scripts,
    where the choice leads to detection and the recombination comes after
    the correction. *)
Definition good_entry (ks ka : string) (e : string * json * list string) : Prop :=
  e.1.1 = Assignments.correctPdfOrientationStateMachine ->
  (e.1.2 = answerInput ka /\
   ~ In analyzeDocumentImagesTask e.2 /\ ~ In correctImageOrientationTask e.2) \/
  (e.1.2 = scriptsInput ks /\
   (In "Skip Rotation Choice" e.2 -> In analyzeDocumentImagesTask e.2) /\
   (In imagesToPdfTask e.2 -> In correctImageOrientationTask e.2)).

Definition logInv {W} (ks ka : string) (w : @StepFunctionsService.world W) : Prop :=
  Forall (good_entry ks ka) (StepFunctionsService.executions w).

Definition keyed (ks ka : string) (d : json) : Prop :=
  jget [Field "scriptsKey"] d = Some (JStr ks) /\
  jget [Field "standardAnswerKey"] d = Some (JStr ka).

Definition anyRecord (d : json) : Prop := True.

(** [Safe J P cur]: entered at [cur] with a record satisfying [P], the
    execution keeps the property [J] of the world. *)
Definition Safe {W}
    (invoke : resource -> json -> @StepFunctionsService.world W -> Z
              -> task_result * @StepFunctionsService.world W * Z)
    (sched : list nat) (ctx : json) (J : @StepFunctionsService.world W -> Prop)
    (P : json -> Prop) (cur : string) : Prop :=
  forall f d t w,
    P d -> J w ->
    J (res_world (run invoke sched assignmentsMachine ctx f cur d t w)).

Definition safe_next {W}
    (invoke : resource -> json -> @StepFunctionsService.world W -> Z
              -> task_result * @StepFunctionsService.world W * Z)
    (sched : list nat) (ctx : json) (J : @StepFunctionsService.world W -> Prop)
    (nxt : option string) : Prop :=
  match nxt with
  | Some n => Safe invoke sched ctx J anyRecord n
  | None => True
  end.

(** The record of started executions only grows. *)
Definition extends {W} (w w' : @StepFunctionsService.world W) : Prop :=
  exists l, StepFunctionsService.executions w' = StepFunctionsService.executions w ++ l.

(** The scripts went through the pipeline with detection and correction;
    the standard answer went through it without. *)
Definition ran_scripts {W} (ks : string) (w : @StepFunctionsService.world W) : Prop :=
  exists tr,
    In (Assignments.correctPdfOrientationStateMachine, scriptsInput ks, tr)
      (StepFunctionsService.executions w) /\
    In analyzeDocumentImagesTask tr /\ In correctImageOrientationTask tr /\
    In imagesToPdfTask tr.

Definition ran_answer {W} (ka : string) (w : @StepFunctionsService.world W) : Prop :=
  exists tr,
    In (Assignments.correctPdfOrientationStateMachine, answerInput ka, tr)
      (StepFunctionsService.executions w) /\
    ~ In analyzeDocumentImagesTask tr /\ ~ In correctImageOrientationTask tr /\
    In imagesToPdfTask tr.

(** ** The functions under observation *)

(** The function code [h] with its invocations recorded: beside the world
    of [h], the calls made so far, each with the id of the function and
    its event. *)
Definition recording {W} (h : string -> json -> W -> task_result * W)
    (fn : string) (event : json) (s : W * list (string * json))
  : task_result * (W * list (string * json)) :=
  let '(r, w') := h fn event s.1 in (r, (w', s.2 ++ [(fn, event)])).

(** The function [fn] can answer the event [ev] with the payload [p]. *)
Definition returns {W} (h : string -> json -> W -> task_result * W)
    (fn : string) (ev p : json) : Prop :=
  exists w w', h fn ev w = (TOk p, w').

(** The calls one execution of the pipeline on [inp] makes, beside the
    states it goes through: each step calls its function, once or again
    after a service exception, with what the step before it returned. *)
Inductive pipeline_calls {W} (h : string -> json -> W -> task_result * W) (inp : json)
  : list string -> list (string * json) -> Prop :=
| calls_split n :
    pipeline_calls h inp [pdfToImagesTask]
      (replicate (S n) (pdfToImagesFunction, inp))
| calls_skip n m p :
    returns h pdfToImagesFunction inp p ->
    is_present [Field "skipRotation"] p = true ->
    pipeline_calls h inp
      [pdfToImagesTask; "Skip Rotation Choice"; "Skip Fixing Rotation"; imagesToPdfTask]
      (replicate (S n) (pdfToImagesFunction, inp)
       ++ replicate (S m) (imagesToPdfFunction, p))
| calls_detect n m p :
    returns h pdfToImagesFunction inp p ->
    is_present [Field "skipRotation"] p = false ->
    pipeline_calls h inp
      [pdfToImagesTask; "Skip Rotation Choice"; analyzeDocumentImagesTask]
      (replicate (S n) (pdfToImagesFunction, inp)
       ++ replicate (S m) (analyzeDocumentImagesFunction, p))
| calls_correct n m k p p2 tl :
    returns h pdfToImagesFunction inp p ->
    is_present [Field "skipRotation"] p = false ->
    returns h analyzeDocumentImagesFunction p p2 ->
    tl = [] \/ tl = ["Wait 5 seconds"] ->
    pipeline_calls h inp
      (pdfToImagesTask :: "Skip Rotation Choice" :: analyzeDocumentImagesTask
         :: correctImageOrientationTask :: tl)
      (replicate (S n) (pdfToImagesFunction, inp)
       ++ replicate (S m) (analyzeDocumentImagesFunction, p)
       ++ replicate (S k) (correctImageOrientationFunction, p2))
| calls_recombine n m k j p p2 p3 :
    returns h pdfToImagesFunction inp p ->
    is_present [Field "skipRotation"] p = false ->
    returns h analyzeDocumentImagesFunction p p2 ->
    returns h correctImageOrientationFunction p2 p3 ->
    pipeline_calls h inp
      [pdfToImagesTask; "Skip Rotation Choice"; analyzeDocumentImagesTask;
       correctImageOrientationTask; "Wait 5 seconds"; imagesToPdfTask]
      (replicate (S n) (pdfToImagesFunction, inp)
       ++ replicate (S m) (analyzeDocumentImagesFunction, p)
       ++ replicate (S k) (correctImageOrientationFunction, p2)
       ++ replicate (S j) (imagesToPdfFunction, p3)).

(** A call is accounted for: the page split is called on one of the two
    prepared inputs, the detection on pages the page split returned for
    the scripts, the correction on what the detection returned for such
    pages. *)
Definition call_ok {W} (h : string -> json -> W -> task_result * W) (ks ka : string)
    (c : string * json) : Prop :=
  (c.1 = pdfToImagesFunction -> c.2 = answerInput ka \/ c.2 = scriptsInput ks) /\
  (c.1 = analyzeDocumentImagesFunction ->
   returns h pdfToImagesFunction (scriptsInput ks) c.2 /\
   is_present [Field "skipRotation"] c.2 = false) /\
  (c.1 = correctImageOrientationFunction ->
   exists p, returns h pdfToImagesFunction (scriptsInput ks) p /\
             returns h analyzeDocumentImagesFunction p c.2).

(** The states of a pipeline execution on [inp] have made their calls:
    the page split was called on [inp], and a later step that was entered
    has called its function with what the step before it returned, the
    detection after a page split whose payload has no [skipRotation]
    field. *)
Definition invoked {W} (h : string -> json -> W -> task_result * W)
    (cs : list (string * json)) (inp : json) (tr : list string) : Prop :=
  In (pdfToImagesFunction, inp) cs /\
  (In analyzeDocumentImagesTask tr ->
   exists p, returns h pdfToImagesFunction inp p /\
             is_present [Field "skipRotation"] p = false /\
             In (analyzeDocumentImagesFunction, p) cs) /\
  (In correctImageOrientationTask tr ->
   exists p p2, returns h pdfToImagesFunction inp p /\
                is_present [Field "skipRotation"] p = false /\
                returns h analyzeDocumentImagesFunction p p2 /\
                In (analyzeDocumentImagesFunction, p) cs /\
                In (correctImageOrientationFunction, p2) cs) /\
  (In imagesToPdfTask tr ->
   exists p3, In (imagesToPdfFunction, p3) cs /\
     ((returns h pdfToImagesFunction inp p3 /\
       is_present [Field "skipRotation"] p3 = true) \/
      (exists p p2, returns h pdfToImagesFunction inp p /\
                    is_present [Field "skipRotation"] p = false /\
                    returns h analyzeDocumentImagesFunction p p2 /\
                    returns h correctImageOrientationFunction p2 p3 /\
                    In (analyzeDocumentImagesFunction, p) cs /\
                    In (correctImageOrientationFunction, p2) cs))).

(** The calls recorded in the orchestrator's world. *)
Definition calls {W} (w : @StepFunctionsService.world (W * list (string * json)))
  : list (string * json) :=
  (StepFunctionsService.lambdas w).2.

(** What holds of the world of an observed execution: the pipeline was
    started on the two prepared inputs only, every recorded call is
    accounted for, and every state of a recorded execution of the pipeline
    has made its call. *)
Definition observed {W} (h : string -> json -> W -> task_result * W) (ks ka : string)
    (w : @StepFunctionsService.world (W * list (string * json))) : Prop :=
  logInv ks ka w /\
  Forall (call_ok h ks ka) (calls w) /\
  Forall (fun e => e.1.1 = Assignments.correctPdfOrientationStateMachine ->
                   invoked h (calls w) e.1.2 e.2)
    (StepFunctionsService.executions w).

(** Two executions, over two worlds, that go the same way and leave
    worlds related by [R]. *)
Definition alike {W1 W2} (R : W1 -> W2 -> Prop) (r1 : @result W1) (r2 : @result W2)
  : Prop :=
  res_outcome r1 = res_outcome r2 /\ res_trace r1 = res_trace r2 /\
  res_clock r1 = res_clock r2 /\ R (res_world r1) (res_world r2).

(** The world of the recorded functions, and the world of the functions. *)
Definition unrecorded {W} (s : W * list (string * json)) (l : W) : Prop := s.1 = l.

(** The same for the worlds of the orchestrator. *)
Definition unobserved {W}
    (w1 : @StepFunctionsService.world (W * list (string * json)))
    (w2 : @StepFunctionsService.world W) : Prop :=
  unrecorded (StepFunctionsService.lambdas w1) (StepFunctionsService.lambdas w2) /\
  StepFunctionsService.textract w1 = StepFunctionsService.textract w2 /\
  StepFunctionsService.executions w1 = StepFunctionsService.executions w2.

(** ** Concrete services for the examples *)

(** Function code that returns its event. *)
Definition echo (fn : string) (event : json) (w : unit) : task_result * unit :=
  (TOk event, w).

(** Function code whose first call fails at the Lambda service. *)
Definition flaky (fn : string) (event : json) (calls : nat) : task_result * nat :=
  if Nat.eqb calls 0
  then (TErr "Lambda.ServiceException" "service unavailable", S calls)
  else (TOk event, S calls).

(** Function code that returns the pages it wrote. *)
Definition splitOnly (fn : string) (event : json) (w : unit) : task_result * unit :=
  (TOk (JObj [("images", JArr [JStr "a.pdf/page-1.png"])]), w).

(** Function code that rejects its event. *)
Definition rejecting (fn : string) (event : json) (w : unit) : task_result * unit :=
  (TErr "TypeError" "bad event", w).

(** A Textract service that has started nothing, whose job reports the
    statuses of [sts] in turn and stays in progress after them. *)
Definition textractWith (sts : list string) : TextractService.world :=
  TextractService.mkWorld [] ∅ (fun n => "job-" +:+ pretty n)
    (fun _ n => nth n sts "IN_PROGRESS") 0.

Definition aPdf : json := JObj [("key", JStr "a.pdf")].
Definition aPdfUnrotated : json :=
  JObj [("key", JStr "a.pdf"); ("skipRotation", JBool false)].
Definition aPdfSkipped : json :=
  JObj [("key", JStr "a.pdf"); ("skipRotation", JBool true)].
Definition bothKeys : json :=
  JObj [("scriptsKey", JStr "s.pdf"); ("standardAnswerKey", JStr "a.pdf")].

Definition transformed (j : json) : outcome * Z :=
  (Succeeded (JObj [("forms", j)]), 7).
Definition marked (j : json) : outcome * Z :=
  (Succeeded (JObj [("marks", j)]), 11).
Definition executionNames (n : nat) : string := "execution-" +:+ pretty n.

(** A Textract service whose jobs are done at their first poll. *)
Definition textractDone : TextractService.world :=
  TextractService.mkWorld [] ∅ (fun n => "job-" +:+ pretty n)
    (fun _ _ => "SUCCEEDED") 0.

Definition demoWorld : @StepFunctionsService.world unit :=
  StepFunctionsService.mkWorld tt textractDone [].

Definition demoInvoke :=
  StepFunctionsService.invoke echo transformed marked "pdf-destination" executionNames.

(** Function code whose first call fails at the Lambda service and whose
    later calls reject the event. *)
Definition flakyRejecting (fn : string) (event : json) (calls : nat)
  : task_result * nat :=
  if Nat.eqb calls 0
  then (TErr "Lambda.ServiceException" "service unavailable", S calls)
  else (TErr "TypeError" "bad event", S calls).

(** Function code that keeps the key of its event and nothing else. *)
Definition keyOnly (fn : string) (event : json) (w : unit) : task_result * unit :=
  (TOk (JObj [("key", default JNull (jget [Field "key"] event))]), w).

(** The demonstration services, with the calls of the functions recorded. *)
Definition demoRecorded : @StepFunctionsService.world (unit * list (string * json)) :=
  StepFunctionsService.mkWorld (tt, []) textractDone [].

(* ================================================================== *)
(** * Further vocabulary                                              *)
(* ================================================================== *)

(** ** lib/lambda-helper.ts: the layers, and the retried calls *)

(** [getLayerVersion]: the construct id the layer gets. *)
Definition getLayerVersion (assetPath : string) : string :=
  let name := hd EmptyString (Str.split "/" assetPath) in
  Str.toUpperCase (Str.charAt0 name) +:+ Str.toLowerCase (Str.substring1 name)
  +:+ "Layer".

(** [c] occurs in [s]. *)
Fixpoint has_char (c : ascii) (s : string) : bool :=
  match s with
  | EmptyString => false
  | String a s' => Ascii.eqb a c || has_char c s'
  end.

(** Every character of [s] is an ASCII character. *)
Fixpoint ascii7 (s : string) : bool :=
  match s with
  | EmptyString => true
  | String a s' => (nat_of_ascii a <? 128)%nat && ascii7 s'
  end.


(** The service after [n] calls of [h] that each raised an error the
    Lambda retrier accepts. *)
Fixpoint service_errors {W} (h : W -> task_result * W) (n : nat) (w : W) : option W :=
  match n with
  | O => Some w
  | S n' =>
      match h w with
      | (TErr e _, w') =>
          if error_matches (errorEquals lambdaServiceRetry) e
          then service_errors h n' w' else None
      | (TOk _, _) => None
      end
  end.

(** What the task sees of a function's answer. *)
Definition lambda_answer (r : task_result) : task_result :=
  match r with
  | TOk p => TOk (LambdaService.invoke_response p)
  | TErr e c => TErr e c
  end.

(** How an execution ends whose last task got the answer [r]. *)
Definition task_outcome (r : task_result) : outcome :=
  match r with
  | TOk p => Succeeded p
  | TErr e c => Failed e c
  end.


(** ** The job runner: how an execution ends *)

(** What an execution of the runner comes to, given enough fuel. *)
Inductive runner_end (name : string) (input : json) (w : TextractService.world)
  : result -> Prop :=
| end_no_key e c :
    (forall k, jget [Field "key"] input <> Some (JStr k)) ->
    runner_end name input w (mkResult (Failed e c) ["RunAmazonTextract"] 0 w)
| end_terminal k n :
    jget [Field "key"] input = Some (JStr k) ->
    (n < 179)%nat ->
    (forall i, (i < n)%nat ->
       terminal (TextractService.jobStatus w (job name w) (i + TextractService.polls w))
       = false) ->
    terminal (TextractService.jobStatus w (job name w) (n + TextractService.polls w))
    = true ->
    runner_end name input w
      (mkResult
         (if String.eqb (TextractService.jobStatus w (job name w)
                           (n + TextractService.polls w)) "FAILED"
          then Failed "DescribeJob returned FAILED" "Amazon Textract Job Failed"
          else Succeeded (finished k (job name w)))
         ("RunAmazonTextract" :: pollCycles (S n) ++
            [decide_next (TextractService.jobStatus w (job name w)
                            (n + TextractService.polls w))])
         (60 * (Z.of_nat n + 1))
         (advance (S n) (after_submit name w)))
| end_timeout k :
    jget [Field "key"] input = Some (JStr k) ->
    (forall i, (i < 179)%nat ->
       terminal (TextractService.jobStatus w (job name w) (i + TextractService.polls w))
       = false) ->
    runner_end name input w
      (mkResult TimedOut ("RunAmazonTextract" :: pollCycles 179 ++ ["Wait 1 minute"])
         10800 (advance 179 (after_submit name w))).


(** ** The orientation pipeline: its two routes *)

(** The states of the route past the correction, and of the route
    through it. *)
Definition skipRoute : list string :=
  [pdfToImagesTask; "Skip Rotation Choice"; "Skip Fixing Rotation"; imagesToPdfTask].
Definition detectRoute : list string :=
  [pdfToImagesTask; "Skip Rotation Choice"; analyzeDocumentImagesTask;
   correctImageOrientationTask; "Wait 5 seconds"; imagesToPdfTask].

(** The execution ended, after an initial part of [route]. *)
Definition along {W} (route : list string) (r : @result W) : Prop :=
  res_outcome r <> OutOfFuel /\ exists k, res_trace r = firstn k route.


(** The transitions of the pipeline. *)
Definition pipeline_edges : list (string * string) :=
  [(pdfToImagesTask, "Skip Rotation Choice");
   ("Skip Rotation Choice", "Skip Fixing Rotation");
   ("Skip Rotation Choice", analyzeDocumentImagesTask);
   ("Skip Fixing Rotation", imagesToPdfTask);
   (analyzeDocumentImagesTask, correctImageOrientationTask);
   (correctImageOrientationTask, "Wait 5 seconds");
   ("Wait 5 seconds", imagesToPdfTask)].


(** ** The orchestrator: what it starts, and on what *)

(** What a started execution that succeeded on [inp] can have returned. *)
Definition sub_output (transformFormResult generateMarkResult : json -> outcome * Z)
    (sm : string) (inp out : json) : Prop :=
  (sm = Assignments.amazonTextractMultiPagesDocumentsStateMachine ->
   exists k j, jget [Field "key"] inp = Some (JStr k) /\ out = finished k j) /\
  (sm = Assignments.transformFormResultStateMachine ->
   fst (transformFormResult inp) = Succeeded out) /\
  (sm = Assignments.generateMarkResultStateMachine ->
   fst (generateMarkResult inp) = Succeeded out).

Section FlowDefs.
Context {W : Type}.
Variable invoke : resource -> json -> @StepFunctionsService.world W -> Z
                  -> task_result * @StepFunctionsService.world W * Z.
Variables (sched : list nat) (ctx : json).
(** What is to hold of every execution started. *)
Variable E : string * json * list string -> Prop.

Definition started_ok (w : @StepFunctionsService.world W) : Prop :=
  Forall E (StepFunctionsService.executions w).

(** [Flow P Post n cur]: entered at [cur] with a record satisfying [P],
    the execution starts only executions that satisfy [E], at most [n] of
    them; when it succeeds it has started [n] and its output satisfies
    [Post]. *)
Definition Flow (P Post : json -> Prop) (n : nat) (cur : string) : Prop :=
  forall f d t w,
    P d -> started_ok w ->
    let r := run invoke sched assignmentsMachine ctx f cur d t w in
    started_ok (res_world r) /\
    (length (StepFunctionsService.executions (res_world r))
     <= length (StepFunctionsService.executions w) + n)%nat /\
    forall o, res_outcome r = Succeeded o ->
      Post o /\
      length (StepFunctionsService.executions (res_world r))
      = (length (StepFunctionsService.executions w) + n)%nat.

Definition flow_next (Q Post : json -> Prop) (n : nat) (nxt : option string) : Prop :=
  match nxt with
  | Some x => Flow Q Post n x
  | None => n = O /\ forall o, Q o -> Post o
  end.
End FlowDefs.


(** [ts] is what the result transform returned for a finished job on the
    document [k]. *)
Definition transformed_from (transformFormResult : json -> outcome * Z)
    (k : string) (ts : json) : Prop :=
  exists j, fst (transformFormResult (finished k j)) = Succeeded ts.

(** The record the fan-in hands to the mark generation. *)
Definition both_transformed (transformFormResult : json -> outcome * Z)
    (ks ka : string) (d : json) : Prop :=
  exists ts ta,
    d = JObj [("scripts", ts); ("standardAnswer", ta)] /\
    transformed_from transformFormResult ks ts /\
    transformed_from transformFormResult ka ta.

(** What each machine is started on. *)
Definition entry_ok (transformFormResult : json -> outcome * Z) (ks ka : string)
    (e : string * json * list string) : Prop :=
  (e.1.1 = Assignments.correctPdfOrientationStateMachine \/
   e.1.1 = Assignments.amazonTextractMultiPagesDocumentsStateMachine ->
   expectedInput ks ka e.1.2) /\
  (e.1.1 = Assignments.transformFormResultStateMachine ->
   exists k j, (k = ks \/ k = ka) /\ e.1.2 = finished k j) /\
  (e.1.1 = Assignments.generateMarkResultStateMachine ->
   both_transformed transformFormResult ks ka e.1.2).

(** The output of a branch: the description of the transform's execution. *)
Definition branch_output (transformFormResult : json -> outcome * Z) (k : string)
    (o : json) : Prop :=
  exists ts, jget [Field "Output"] o = Some ts /\
             transformed_from transformFormResult k ts.

(** The output of the orchestrator: the description of the mark
    generation's execution on the two transformed results. *)
Definition marked_output (transformFormResult generateMarkResult : json -> outcome * Z)
    (ks ka : string) (o : json) : Prop :=
  exists ts ta mk,
    transformed_from transformFormResult ks ts /\
    transformed_from transformFormResult ka ta /\
    fst (generateMarkResult (JObj [("scripts", ts); ("standardAnswer", ta)]))
    = Succeeded mk /\
    jget [Field "Input"] o = Some (JObj [("scripts", ts); ("standardAnswer", ta)]) /\
    jget [Field "Output"] o = Some mk.


(** A description with an output. *)
Definition has_output (o : json) : Prop := exists x, jget [Field "Output"] o = Some x.

(** No record at all. *)
Definition never (d : json) : Prop := False.

(** An execution of another machine than the mark generation. *)
Definition not_mark_generation (e : string * json * list string) : Prop :=
  e.1.1 <> Assignments.generateMarkResultStateMachine.

(** No condition on an execution. *)
Definition anything (e : string * json * list string) : Prop := True.


(** ** The orchestrator: fuel that is enough *)

Section EndsDefs.
Context {W : Type}.
Variable invoke : resource -> json -> W -> Z -> task_result * W * Z.
Variables (sched : list nat) (m : machine) (ctx : json).

(** [Ends h cur]: fuel for [h] nested states is enough for every
    execution entered at [cur]. *)
Definition Ends (h : nat) (cur : string) : Prop :=
  forall f d t w,
    (h <= f)%nat -> res_outcome (run invoke sched m ctx f cur d t w) <> OutOfFuel.

Definition ends_next (h : nat) (nxt : option string) : Prop :=
  match nxt with
  | Some x => Ends h x
  | None => True
  end.
End EndsDefs.


(** ** Services that cooperate *)

(** Function code that answers every event with an object. *)
Definition answers {W} (handler : string -> json -> W -> task_result * W) : Prop :=
  forall fn fs w, exists fs' w', handler fn (JObj fs) w = (TOk (JObj fs'), w').

(** A Textract service that reports every job done at once. *)
Definition all_done (w : TextractService.world) : Prop :=
  forall j n, TextractService.jobStatus w j n = "SUCCEEDED".

(** A machine that succeeds on every input within [limit] seconds. *)
Definition succeeds_within (limit : Z) (machine : json -> outcome * Z) : Prop :=
  forall x, exists y d, machine x = (Succeeded y, d) /\ 0 <= d <= limit.

(* ================================================================== *)
(** * Theorems                                                        *)
(* ================================================================== *)

(** ** Records and paths *)

Lemma lookup_set_eq k v fs : lookup_field k (set_field k v fs) = Some v.
Proof.
  induction fs as [|[k' v'] fs IH]; simpl.
  - now rewrite String.eqb_refl.
  - destruct (String.eqb k k') eqn:E; simpl; rewrite E; auto.
Qed.

Lemma lookup_set_ne k k' v fs :
  String.eqb k k' = false ->
  lookup_field k (set_field k' v fs) = lookup_field k fs.
Proof.
  intros Hne. induction fs as [|[k2 v2] fs IH]; simpl.
  - now rewrite Hne.
  - destruct (String.eqb k' k2) eqn:E; simpl.
    + apply String.eqb_eq in E. subst. now rewrite Hne.
    + destruct (String.eqb k k2); auto.
Qed.

Lemma jget_field_inv k j x :
  jget [Field k] j = Some x ->
  exists fs, j = JObj fs /\ lookup_field k fs = Some x.
Proof.
  destruct j; simpl; try discriminate. intros H. exists fields.
  split; [reflexivity|].
  destruct (lookup_field k fields); [congruence | discriminate].
Qed.

Lemma append_empty_r (s : string) : s +:+ "" = s.
Proof.
  induction s as [|a s IH]; [reflexivity|].
  change (String a (s +:+ "") = String a s). now rewrite IH.
Qed.

Example parse_nested :
  JsonPath.parse "$.textract.JobId"
  = Some (JsonPath.Input, [Field "textract"; Field "JobId"]).
Proof. reflexivity. Qed.

Example parse_index :
  JsonPath.parse "$.[0].Output" = Some (JsonPath.Input, [Index 0; Field "Output"]).
Proof. reflexivity. Qed.

Example parse_context :
  JsonPath.parse "$$.Execution.Name"
  = Some (JsonPath.Context, [Field "Execution"; Field "Name"]).
Proof. reflexivity. Qed.

Example parse_intrinsic :
  parse_format "States.Format('{}/{}', $.key, $.textract.JobId)"
  = Some ("{}/{}", ["$.key"; "$.textract.JobId"]).
Proof. reflexivity. Qed.

Example task_id_of_function :
  Str.replace_first "Function" "Task" (LambdaHelper.getLambdaFunction "pdf-to-Images")
  = pdfToImagesTask.
Proof. reflexivity. Qed.

(** ** The interpreter *)

Section Runs.
Context {W : Type}.
Variable invoke : resource -> json -> W -> Z -> task_result * W * Z.
Variables (sched : list nat) (m : machine) (ctx : json).

Lemma run_unfold fuel cur input t w :
  run invoke sched m ctx (S fuel) cur input t w =
  if timed_out m t then mkResult TimedOut [] t w
  else match states m !! cur with
       | None => runtime_error t w
       | Some st =>
           entered cur (exec invoke sched ctx (run invoke sched m ctx fuel)
                          st input t w)
       end.
Proof. reflexivity. Qed.

Lemma with_retry_ok budget :
  forall rs counts (act : W -> Z -> task_result * W * Z) w t v w' t',
    with_retry budget rs counts act w t = (TOk v, w', t') ->
    exists w0 t0, act w0 t0 = (TOk v, w', t').
Proof.
  induction budget as [|b IH]; intros rs counts act w t v w' t' H; simpl in H.
  - destruct (act w t) as [[[r|e c] w1] t1] eqn:E.
    + inversion H; subst. eauto.
    + discriminate.
  - destruct (act w t) as [[[r|e c] w1] t1] eqn:E.
    + inversion H; subst. eauto.
    + destruct (find_retrier rs counts e) as [[[i r] n]|]; [|discriminate].
      destruct (n <? maxAttempts r)%nat; [|discriminate].
      eapply IH; eauto.
Qed.

Lemma with_retry_nil (act : W -> Z -> task_result * W * Z) w t :
  with_retry 0 [] [] act w t = act w t.
Proof. simpl. destruct (act w t) as [[[v|e c] w'] t']; reflexivity. Qed.

(** An error no retrier accepts and no catcher handles ends the
    execution at the task that raised it. *)
Lemma unhandled_error_fails T spec nxt f d t w req e c w' t' :
  states m !! T = Some (Task spec nxt) ->
  timed_out m t = false ->
  task_request spec d ctx = Some req ->
  invoke (taskResource spec) req w t = (TErr e c, w', t') ->
  taskCatch spec = [] ->
  find_retrier (taskRetry spec) (map (fun _ => O) (taskRetry spec)) e = None ->
  run invoke sched m ctx (S f) T d t w = mkResult (Failed e c) [T] t' w'.
Proof.
  intros HT Hto Hreq Hact Hcatch Hretry.
  rewrite run_unfold, Hto, HT. cbn [exec].
  unfold task_request in Hreq. rewrite Hreq.
  assert (Hw : with_retry (retry_budget (taskRetry spec)) (taskRetry spec)
                 (map (fun _ => O) (taskRetry spec))
                 (invoke (taskResource spec) req) w t = (TErr e c, w', t')).
  { destruct (retry_budget (taskRetry spec)); simpl;
      rewrite Hact, ?Hretry; reflexivity. }
  rewrite Hw, Hcatch. reflexivity.
Qed.
End Runs.

(** ** The interpreter: the retries of a Lambda step *)

Section Retried.
Context {W : Type}.
Variable act : W -> Z -> task_result * W * Z.

Lemma retried_loop k : forall j b w t wk tk,
  (j + k <= 6)%nat -> (k <= b)%nat ->
  retried act j k w t = Some (wk, tk) ->
  with_retry b [lambdaServiceRetry] [j] act w t =
  with_retry (b - k) [lambdaServiceRetry] [(j + k)%nat] act wk tk.
Proof.
  induction k as [|k IH]; intros j b w t wk tk Hj Hb Hs.
  - cbn in Hs. injection Hs as <- <-. now rewrite Nat.sub_0_r, Nat.add_0_r.
  - cbn [retried] in Hs.
    destruct (act w t) as [[[p|e c] w1] t1] eqn:Ea; [discriminate Hs|].
    destruct (error_matches (errorEquals lambdaServiceRetry) e) eqn:Em;
      [|discriminate Hs].
    destruct b as [|b]; [lia|].
    cbn [with_retry]. rewrite Ea. cbn [find_retrier]. rewrite Em.
    assert (Hlt : (j <? maxAttempts lambdaServiceRetry)%nat = true)
      by (apply Nat.ltb_lt; cbn; lia).
    rewrite Hlt. cbn [bump].
    rewrite (IH (S j) b w1 _ wk tk ltac:(lia) ltac:(lia) Hs).
    replace (S j + k)%nat with (j + S k)%nat by lia.
    now replace (S b - S k)%nat with (b - k)%nat by lia.
Qed.

Lemma retried_last j b w t e c w' t' :
  act w t = (TErr e c, w', t') ->
  j = 6%nat \/ error_matches (errorEquals lambdaServiceRetry) e = false ->
  with_retry b [lambdaServiceRetry] [j] act w t = (TErr e c, w', t').
Proof.
  intros Ha Hend. destruct b as [|b]; cbn [with_retry]; rewrite Ha; [reflexivity|].
  cbn [find_retrier].
  destruct (error_matches (errorEquals lambdaServiceRetry) e) eqn:Em; [|reflexivity].
  destruct Hend as [->|Hend]; [reflexivity | discriminate Hend].
Qed.
End Retried.

(** An error the Lambda retrier does not take up, at whichever call of
    the step it is raised, and any error at the call after the last retry,
    ends the execution at the step. *)
Lemma retried_error_fails {W} (invoke : resource -> json -> W -> Z -> task_result * W * Z)
    sched m ctx T spec nxt f d t w req k wk tk e c w' t' :
  states m !! T = Some (Task spec nxt) ->
  timed_out m t = false ->
  task_request spec d ctx = Some req ->
  taskRetry spec = [lambdaServiceRetry] ->
  taskCatch spec = [] ->
  (k <= 6)%nat ->
  retried (invoke (taskResource spec) req) 0 k w t = Some (wk, tk) ->
  invoke (taskResource spec) req wk tk = (TErr e c, w', t') ->
  k = 6%nat \/ error_matches (errorEquals lambdaServiceRetry) e = false ->
  run invoke sched m ctx (S f) T d t w = mkResult (Failed e c) [T] t' w'.
Proof.
  intros HT Hto Hreq Hretry Hcatch Hk Hs Ha Hend.
  rewrite run_unfold, Hto, HT. cbn [exec].
  unfold task_request in Hreq. rewrite Hreq, Hretry.
  cbn [retry_budget fold_right map maxAttempts lambdaServiceRetry Nat.add].
  change (6 + 0)%nat with 6%nat.
  rewrite (retried_loop _ k 0 6 w t wk tk ltac:(lia) Hk Hs).
  rewrite (retried_last _ _ _ wk tk e c w' t' Ha).
  - now rewrite Hcatch.
  - destruct Hend as [->|Hend]; [now left | now right].
Qed.

Lemma entered_prepend {W} n (r : @result W) : entered n r = prepend [n] r.
Proof. reflexivity. Qed.

Lemma prepend_prepend {W} l1 l2 (r : @result W) :
  prepend l1 (prepend l2 r) = prepend (l1 ++ l2) r.
Proof. unfold prepend; simpl. now rewrite app_assoc. Qed.

Lemma prepend_nil {W} (r : @result W) : prepend [] r = r.
Proof. destruct r; reflexivity. Qed.

(** Two branches complete in one of two orders. *)
Lemma dedup_two sched :
  let s := dedup (List.filter (fun i => Nat.ltb i 2) sched) in
  s = [] \/ s = [0%nat] \/ s = [1%nat] \/ s = [0%nat; 1%nat] \/ s = [1%nat; 0%nat].
Proof.
  induction sched as [|h sched IH]; [now left|].
  cbn zeta in *. destruct h as [|[|h]]; simpl.
  - destruct IH as [->|[->|[->|[->| ->]]]]; simpl; auto.
  - destruct IH as [->|[->|[->|[->| ->]]]]; simpl; auto 6.
  - exact IH.
Qed.

Lemma completion_order_two sched :
  completion_order 2 sched = [0%nat; 1%nat] \/
  completion_order 2 sched = [1%nat; 0%nat].
Proof.
  unfold completion_order.
  destruct (dedup_two sched) as [->|[->|[->|[->| ->]]]]; simpl; auto.
Qed.

(** ** The job runner: its states *)

Lemma runner_startAt src dst : startAt (textractMachine src dst) = "RunAmazonTextract".
Proof. reflexivity. Qed.

Lemma runner_timed_out src dst t :
  timed_out (textractMachine src dst) t = (10800 <=? t).
Proof. reflexivity. Qed.

Lemma runner_submit src dst :
  states (textractMachine src dst) !! "RunAmazonTextract"
  = Some (Task (submitTask src dst) (Some "Wait 1 minute")).
Proof. vm_compute. reflexivity. Qed.

Lemma runner_wait src dst :
  states (textractMachine src dst) !! "Wait 1 minute"
  = Some (Wait 60 (Some "GetDocumentAnalysis")).
Proof. vm_compute. reflexivity. Qed.

Lemma runner_poll src dst :
  states (textractMachine src dst) !! "GetDocumentAnalysis"
  = Some (Task pollTask (Some "Check Job Status")).
Proof. vm_compute. reflexivity. Qed.

Lemma runner_choice src dst :
  states (textractMachine src dst) !! "Check Job Status" = Some statusChoice.
Proof. vm_compute. reflexivity. Qed.

Lemma runner_finish src dst :
  states (textractMachine src dst) !! "Job Finish" = Some jobFinish.
Proof. vm_compute. reflexivity. Qed.

Lemma runner_failed src dst :
  states (textractMachine src dst) !! "Job Failed"
  = Some (Fail "DescribeJob returned FAILED" "Amazon Textract Job Failed").
Proof. vm_compute. reflexivity. Qed.

Lemma runner_transitions src dst s s' :
  transition (textractMachine src dst) s s' <-> In (s, s') runner_edges.
Proof.
  split.
  - intros (st & H & Hin). apply elem_of_map_to_list in H.
    vm_compute map_to_list in H.
    repeat (apply elem_of_cons in H as [H|H];
            [inversion H; subst; cbn in Hin; unfold runner_edges; cbn;
             intuition (subst; auto 10)|]).
    inversion H.
  - unfold runner_edges. cbn.
    intros [H|[H|[H|[H|[H|[H|[]]]]]]]; inversion H; subst.
    + eexists. split; [apply runner_submit|]. cbn; auto.
    + eexists. split; [apply runner_wait|]. cbn; auto.
    + eexists. split; [apply runner_poll|]. cbn; auto.
    + eexists. split; [apply runner_choice|]. cbn; auto.
    + eexists. split; [apply runner_choice|]. cbn; auto.
    + eexists. split; [apply runner_choice|]. cbn; auto.
Qed.

Lemma runner_terminals src dst s :
  terminal_state (textractMachine src dst) s <-> s = "Job Failed" \/ s = "Job Finish".
Proof.
  split.
  - intros (st & H & Hout). apply elem_of_map_to_list in H.
    vm_compute map_to_list in H.
    repeat (apply elem_of_cons in H as [H|H];
            [inversion H; subst; cbn in Hout; try discriminate; auto|]).
    inversion H.
  - intros [->| ->].
    + eexists. split; [apply runner_failed|]. reflexivity.
    + eexists. split; [apply runner_finish|]. reflexivity.
Qed.

(** ** The job runner: one state at a time *)

Section Runner.
Variables (src dst name : string) (inp : json).

Abbreviation trun :=
  (run TextractService.invoke [] (textractMachine src dst) (context name inp)).

Lemma submit_step f fs k t w :
  t < 10800 -> lookup_field "key" fs = Some (JStr k) ->
  trun (S f) "RunAmazonTextract" (JObj fs) t w =
  entered "RunAmazonTextract"
    (trun f "Wait 1 minute"
       (JObj (set_field "textract" (JObj [("JobId", JStr (job name w))]) fs)) t
       (after_submit name w)).
Proof.
  intros Ht Hk. rewrite run_unfold, runner_timed_out.
  destruct (Z.leb_spec 10800 t); [lia|].
  rewrite runner_submit. unfold submitTask, job, after_submit.
  cbn -[TextractService.request_job]. rewrite Hk.
  cbn -[TextractService.request_job].
  unfold TextractService.invoke, instant, TextractService.startDocumentAnalysis.
  cbn -[TextractService.request_job].
  destruct (TextractService.request_job (Some name) w) as [id w'] eqn:E.
  reflexivity.
Qed.

Lemma wait_step f d t w :
  t < 10800 ->
  trun (S f) "Wait 1 minute" d t w =
  entered "Wait 1 minute" (trun f "GetDocumentAnalysis" d (t + 60) w).
Proof.
  intros Ht. rewrite run_unfold, runner_timed_out.
  destruct (Z.leb_spec 10800 t); [lia|].
  rewrite runner_wait. reflexivity.
Qed.

Lemma poll_step f fs tf j t w :
  t < 10800 ->
  lookup_field "textract" fs = Some (JObj tf) ->
  lookup_field "JobId" tf = Some (JStr j) ->
  trun (S f) "GetDocumentAnalysis" (JObj fs) t w =
  entered "GetDocumentAnalysis"
    (trun f "Check Job Status"
       (JObj (with_status
                (TextractService.jobStatus w j (TextractService.polls w)) fs))
       t (advance 1 w)).
Proof.
  intros Ht H1 H2. rewrite run_unfold, runner_timed_out.
  destruct (Z.leb_spec 10800 t); [lia|].
  rewrite runner_poll. unfold pollTask. cbn. rewrite H1. cbn. rewrite H2. cbn.
  unfold TextractService.invoke, instant. cbn. reflexivity.
Qed.

Lemma choice_step f fs sf s t w :
  t < 10800 ->
  lookup_field "status" fs = Some (JObj sf) ->
  lookup_field "JobStatus" sf = Some (JStr s) ->
  trun (S f) "Check Job Status" (JObj fs) t w =
  entered "Check Job Status" (trun f (decide_next s) (JObj fs) t w).
Proof.
  intros Ht H1 H2. rewrite run_unfold, runner_timed_out.
  destruct (Z.leb_spec 10800 t); [lia|].
  rewrite runner_choice. unfold statusChoice, statusRules, decide_next.
  cbn. rewrite H1. cbn. rewrite H2. cbn.
  destruct (String.eqb s "FAILED"); [reflexivity|].
  destruct (String.eqb s "SUCCEEDED"); reflexivity.
Qed.

Lemma finish_step f fs k j t w :
  t < 10800 -> submitted k j fs ->
  trun (S f) "Job Finish" (JObj fs) t w =
  mkResult (Succeeded (finished k j)) ["Job Finish"] t w.
Proof.
  intros Ht [Hk (tf & H1 & H2)]. rewrite run_unfold, runner_timed_out.
  destruct (Z.leb_spec 10800 t); [lia|].
  rewrite runner_finish. unfold jobFinish.
  cbn. rewrite Hk, H1. cbn. rewrite H2. cbn.
  rewrite append_empty_r. reflexivity.
Qed.

Lemma failed_step f d t w :
  t < 10800 ->
  trun (S f) "Job Failed" d t w =
  mkResult (Failed "DescribeJob returned FAILED" "Amazon Textract Job Failed")
    ["Job Failed"] t w.
Proof.
  intros Ht. rewrite run_unfold, runner_timed_out.
  destruct (Z.leb_spec 10800 t); [lia|].
  rewrite runner_failed. reflexivity.
Qed.

Lemma timeout_step f cur d t w :
  10800 <= t -> trun (S f) cur d t w = mkResult TimedOut [] t w.
Proof.
  intros Ht. rewrite run_unfold, runner_timed_out.
  destruct (Z.leb_spec 10800 t); [reflexivity|lia].
Qed.
End Runner.

(** ** The job runner: the polling loop *)

Lemma submitted_status k j s fs : submitted k j fs -> submitted k j (with_status s fs).
Proof.
  intros [Hk (tf & H1 & H2)]. split.
  - unfold with_status. rewrite lookup_set_ne by reflexivity. exact Hk.
  - exists tf. split; [|exact H2].
    unfold with_status. rewrite lookup_set_ne by reflexivity. exact H1.
Qed.

Lemma advance_0 w : advance 0 w = w.
Proof. destruct w; reflexivity. Qed.

Lemma advance_advance a b w : advance a (advance b w) = advance (a + b) w.
Proof. unfold advance; simpl. f_equal. lia. Qed.

Lemma pollCycles_shift n l :
  pollCycles n ++ pollCycle ++ l = pollCycle ++ pollCycles n ++ l.
Proof.
  induction n as [|n IH]; simpl; [reflexivity|]. simpl in IH. now rewrite IH.
Qed.

Lemma request_job_status tok w :
  TextractService.jobStatus (snd (TextractService.request_job tok w))
  = TextractService.jobStatus w.
Proof.
  unfold TextractService.request_job, TextractService.start_job.
  destruct tok as [tok|]; [destruct (TextractService.tokens w !! tok)|]; reflexivity.
Qed.

Lemma request_job_polls tok w :
  TextractService.polls (snd (TextractService.request_job tok w))
  = TextractService.polls w.
Proof.
  unfold TextractService.request_job, TextractService.start_job.
  destruct tok as [tok|]; [destruct (TextractService.tokens w !! tok)|]; reflexivity.
Qed.

Lemma request_job_started tok w :
  TextractService.started (snd (TextractService.request_job tok w))
    = TextractService.started w \/
  TextractService.started (snd (TextractService.request_job tok w))
    = TextractService.started w ++ [fst (TextractService.request_job tok w)].
Proof.
  unfold TextractService.request_job, TextractService.start_job.
  destruct tok as [tok|]; [destruct (TextractService.tokens w !! tok)|]; cbn; auto.
Qed.

(** Asking again with the same token names the same job and starts
    nothing. *)
Lemma request_job_again name w :
  TextractService.request_job (Some name) (after_submit name w)
  = (job name w, after_submit name w).
Proof.
  unfold job, after_submit.
  destruct (TextractService.request_job (Some name) w) as [id w1] eqn:E.
  cbn [fst snd]. unfold TextractService.request_job in *.
  destruct (TextractService.tokens w !! name) as [id'|] eqn:Et.
  - inversion E; subst. now rewrite Et.
  - unfold TextractService.start_job in E. inversion E; subst.
    cbn [TextractService.tokens]. now rewrite lookup_insert_eq.
Qed.

Section Polling.
Variables (src dst name : string) (inp : json).

Abbreviation prun :=
  (run TextractService.invoke [] (textractMachine src dst) (context name inp)).

(** A wait, a poll and the decision on what the poll returned. *)
Lemma wait_poll f fs k j t w :
  t + 60 < 10800 -> submitted k j fs ->
  prun (S (S (S f))) "Wait 1 minute" (JObj fs) t w =
  prepend pollCycle
    (prun f (decide_next (TextractService.jobStatus w j (TextractService.polls w)))
       (JObj (with_status (TextractService.jobStatus w j (TextractService.polls w)) fs))
       (t + 60) (advance 1 w)).
Proof.
  intros Ht [Hk (tf & H1 & H2)].
  rewrite wait_step by lia.
  rewrite (poll_step _ _ _ _ _ _ tf j) by (auto; lia).
  rewrite (choice_step _ _ _ _ _ _
             [("JobStatus", JStr (TextractService.jobStatus w j (TextractService.polls w)))]
             (TextractService.jobStatus w j (TextractService.polls w)));
    [reflexivity | lia | apply lookup_set_eq | reflexivity].
Qed.

(** [n] polls that return no terminal status: the loop is back at the
    wait, [n] minutes later. *)
Lemma polling_loop k j n : forall f fs t w,
  t + 60 * Z.of_nat n < 10800 -> submitted k j fs ->
  (forall i, (i < n)%nat ->
     terminal (TextractService.jobStatus w j (i + TextractService.polls w)) = false) ->
  exists fs', submitted k j fs' /\
    prun (3 * n + f) "Wait 1 minute" (JObj fs) t w =
    prepend (pollCycles n)
      (prun f "Wait 1 minute" (JObj fs') (t + 60 * Z.of_nat n) (advance n w)).
Proof.
  induction n as [|n IH]; intros f fs t w Ht Hs Hnt.
  - exists fs. split; [exact Hs|].
    rewrite advance_0, prepend_nil. change (3 * 0 + f)%nat with f.
    now replace (t + 60 * Z.of_nat 0) with t by lia.
  - replace (3 * S n + f)%nat with (S (S (S (3 * n + f)))) by lia.
    rewrite (wait_poll _ _ k j) by (auto; lia).
    pose proof (Hnt O ltac:(lia)) as H1. simpl in H1. unfold terminal in H1.
    apply orb_false_iff in H1 as [Hf Hsu].
    unfold decide_next. rewrite Hf, Hsu.
    destruct (IH f (with_status (TextractService.jobStatus w j (TextractService.polls w)) fs)
                (t + 60) (advance 1 w))
      as (fs' & Hs' & Heq); [lia | now apply submitted_status | |].
    + intros i Hi. specialize (Hnt (S i) ltac:(lia)). simpl in *.
      replace (i + S (TextractService.polls w))%nat
        with (S (i + TextractService.polls w)) by lia.
      exact Hnt.
    + exists fs'. split; [exact Hs'|].
      rewrite Heq, prepend_prepend, advance_advance.
      replace (n + 1)%nat with (S n) by lia.
      replace (t + 60 + 60 * Z.of_nat n) with (t + 60 * Z.of_nat (S n)) by lia.
      reflexivity.
Qed.
End Polling.

(** The execution whose first terminal status comes at poll [n]. *)
Lemma runner_terminal src dst name input k w n f :
  jget [Field "key"] input = Some (JStr k) ->
  (forall i, (i < n)%nat ->
     terminal (TextractService.jobStatus w (job name w) (i + TextractService.polls w))
     = false) ->
  terminal (TextractService.jobStatus w (job name w) (n + TextractService.polls w))
  = true ->
  (n < 179)%nat ->
  runTextract src dst name (3 * n + 5 + f) input w =
  mkResult
    (if String.eqb (TextractService.jobStatus w (job name w) (n + TextractService.polls w))
          "FAILED"
     then Failed "DescribeJob returned FAILED" "Amazon Textract Job Failed"
     else Succeeded (finished k (job name w)))
    ("RunAmazonTextract" :: pollCycles (S n) ++
       [decide_next (TextractService.jobStatus w (job name w)
                       (n + TextractService.polls w))])
    (60 * (Z.of_nat n + 1))
    (advance (S n) (after_submit name w)).
Proof.
  intros Hk Hnt Hterm Hn.
  destruct (jget_field_inv _ _ _ Hk) as (fs & -> & Hkey).
  unfold runTextract, execute. rewrite runner_startAt.
  replace (3 * n + 5 + f)%nat with (S (3 * n + (S (S (S (S f)))))) by lia.
  rewrite (submit_step _ _ _ _ _ _ k) by (auto; lia).
  set (fs1 := set_field "textract" _ fs).
  assert (Hs1 : submitted k (job name w) fs1).
  { split.
    - unfold fs1. rewrite lookup_set_ne by reflexivity. exact Hkey.
    - eexists. split; [apply lookup_set_eq | reflexivity]. }
  assert (Hst : TextractService.jobStatus (after_submit name w)
                = TextractService.jobStatus w) by apply request_job_status.
  assert (Hpo : TextractService.polls (after_submit name w)
                = TextractService.polls w) by apply request_job_polls.
  destruct (polling_loop src dst name (JObj fs) k (job name w) n
              (S (S (S (S f)))) fs1 0 (after_submit name w))
    as (fs' & Hs' & Heq); [lia | exact Hs1 | |].
  { intros i Hi. rewrite Hst, Hpo. auto. }
  rewrite Heq. rewrite (wait_poll _ _ _ _ _ _ k (job name w)) by (auto; lia).
  rewrite advance_advance.
  assert (Hp : TextractService.polls (advance n (after_submit name w))
               = (n + TextractService.polls w)%nat)
    by (unfold advance; simpl; now rewrite Hpo).
  assert (Hj : TextractService.jobStatus (advance n (after_submit name w))
               = TextractService.jobStatus w)
    by (unfold advance; simpl; exact Hst).
  rewrite Hp, Hj.
  set (s := TextractService.jobStatus w (job name w) (n + TextractService.polls w)) in *.
  unfold terminal in Hterm. unfold decide_next.
  replace (0 + 60 * Z.of_nat n + 60) with (60 * (Z.of_nat n + 1)) by lia.
  replace (1 + n)%nat with (S n) by lia.
  destruct (String.eqb s "FAILED") eqn:Ef.
  - rewrite failed_step by lia.
    unfold prepend, entered; simpl.
    pose proof (pollCycles_shift n ["Job Failed"]) as Hc. simpl in Hc.
    now rewrite Hc.
  - simpl in Hterm. rewrite Hterm.
    rewrite (finish_step _ _ _ _ _ _ k (job name w))
      by (try lia; now apply submitted_status).
    unfold prepend, entered; simpl.
    pose proof (pollCycles_shift n ["Job Finish"]) as Hc. simpl in Hc.
    now rewrite Hc.
Qed.

(** The execution that sees no terminal status in 179 polls. *)
Lemma runner_timeout src dst name input k w f :
  jget [Field "key"] input = Some (JStr k) ->
  (forall i, (i < 179)%nat ->
     terminal (TextractService.jobStatus w (job name w) (i + TextractService.polls w))
     = false) ->
  runTextract src dst name (3 * 179 + 3 + f) input w =
  mkResult TimedOut ("RunAmazonTextract" :: pollCycles 179 ++ ["Wait 1 minute"])
    10800 (advance 179 (after_submit name w)).
Proof.
  intros Hk Hnt.
  destruct (jget_field_inv _ _ _ Hk) as (fs & -> & Hkey).
  unfold runTextract, execute. rewrite runner_startAt.
  replace (3 * 179 + 3 + f)%nat with (S (3 * 179 + (S (S f)))) by lia.
  rewrite (submit_step _ _ _ _ _ _ k) by (auto; lia).
  set (fs1 := set_field "textract" _ fs).
  assert (Hs1 : submitted k (job name w) fs1).
  { split.
    - unfold fs1. rewrite lookup_set_ne by reflexivity. exact Hkey.
    - eexists. split; [apply lookup_set_eq | reflexivity]. }
  assert (Hst : TextractService.jobStatus (after_submit name w)
                = TextractService.jobStatus w) by apply request_job_status.
  assert (Hpo : TextractService.polls (after_submit name w)
                = TextractService.polls w) by apply request_job_polls.
  destruct (polling_loop src dst name (JObj fs) k (job name w) 179
              (S (S f)) fs1 0 (after_submit name w))
    as (fs' & Hs' & Heq); [lia | exact Hs1 | |].
  { intros i Hi. rewrite Hst, Hpo. auto. }
  rewrite Heq. rewrite wait_step by lia. rewrite timeout_step by lia.
  unfold prepend, entered. cbn [res_outcome res_trace res_clock res_world].
  f_equal.
Qed.

(** ** The job runner: the claims *)

(** C2.  When the poll numbered [n] is the first to return a terminal
    status and returns SUCCEEDED (the polls before it returned none, and
    it happens before the workflow timeout, [n < 179]), the runner ends
    successfully with the record that holds the input key, the job id the
    submission returned and the prefix [<key>/<jobId>]. *)
Theorem job_runner_succeeds src dst name input k w n fuel :
  jget [Field "key"] input = Some (JStr k) ->
  (forall i, (i < n)%nat ->
     terminal (TextractService.jobStatus w (job name w) (i + TextractService.polls w))
     = false) ->
  TextractService.jobStatus w (job name w) (n + TextractService.polls w)
  = "SUCCEEDED" ->
  (n < 179)%nat ->
  (3 * n + 5 <= fuel)%nat ->
  res_outcome (runTextract src dst name fuel input w) =
  Succeeded (JObj [("key", JStr k); ("JobId", JStr (job name w));
                   ("textractPrefix", JStr (k +:+ "/" +:+ job name w))]).
Proof.
  intros Hk Hnt Hs Hn Hfuel.
  replace fuel with (3 * n + 5 + (fuel - (3 * n + 5)))%nat by lia.
  rewrite (runner_terminal src dst name input k w n) by
    (auto; unfold terminal; rewrite Hs; reflexivity).
  rewrite Hs. reflexivity.
Qed.

Lemma job_runner_succeeds_witness :
  res_outcome (runTextract "pdf-destination" "pdf-destination" "exec-1" 8 aPdf
                 (textractWith ["IN_PROGRESS"; "SUCCEEDED"]))
  = Succeeded (finished "a.pdf" "job-0").
Proof.
  apply (job_runner_succeeds "pdf-destination" "pdf-destination" "exec-1" aPdf
           "a.pdf" (textractWith ["IN_PROGRESS"; "SUCCEEDED"]) 1 8).
  - reflexivity.
  - intros i Hi. assert (i = O) as -> by lia. reflexivity.
  - reflexivity.
  - lia.
  - lia.
Defined.

(** C3.  When the poll numbered [n] is the first to return a terminal
    status and returns FAILED, whatever [n] is, the execution ends in the
    Failure state with error 'DescribeJob returned FAILED' and cause
    'Amazon Textract Job Failed'; the submission ran once, nothing runs
    after 'Job Failed', and no job was started beyond the submitted one. *)
Theorem job_runner_fails src dst name input k w n fuel :
  jget [Field "key"] input = Some (JStr k) ->
  (forall i, (i < n)%nat ->
     terminal (TextractService.jobStatus w (job name w) (i + TextractService.polls w))
     = false) ->
  TextractService.jobStatus w (job name w) (n + TextractService.polls w)
  = "FAILED" ->
  (n < 179)%nat ->
  (3 * n + 5 <= fuel)%nat ->
  let r := runTextract src dst name fuel input w in
  res_outcome r = Failed "DescribeJob returned FAILED" "Amazon Textract Job Failed" /\
  res_trace r = "RunAmazonTextract" :: pollCycles (S n) ++ ["Job Failed"] /\
  TextractService.started (res_world r)
  = TextractService.started (after_submit name w) /\
  states (textractMachine src dst) !! "Job Failed"
  = Some (Fail "DescribeJob returned FAILED" "Amazon Textract Job Failed").
Proof.
  intros Hk Hnt Hs Hn Hfuel r. subst r.
  replace fuel with (3 * n + 5 + (fuel - (3 * n + 5)))%nat by lia.
  rewrite (runner_terminal src dst name input k w n) by
    (auto; unfold terminal; rewrite Hs; reflexivity).
  rewrite Hs. cbn [res_outcome res_trace res_world].
  split; [reflexivity|]. split; [reflexivity|].
  split; [reflexivity | apply runner_failed].
Qed.

Lemma job_runner_fails_witness :
  res_outcome (runTextract "pdf-destination" "pdf-destination" "exec-1" 11 aPdf
                 (textractWith ["IN_PROGRESS"; "IN_PROGRESS"; "FAILED"]))
  = Failed "DescribeJob returned FAILED" "Amazon Textract Job Failed".
Proof.
  apply (job_runner_fails "pdf-destination" "pdf-destination" "exec-1" aPdf
           "a.pdf" (textractWith ["IN_PROGRESS"; "IN_PROGRESS"; "FAILED"]) 2 11).
  - reflexivity.
  - intros i Hi. destruct i as [|[|i]]; [reflexivity | reflexivity | lia].
  - reflexivity.
  - lia.
  - lia.
Defined.

(** C5.  The wait before each poll is 60 seconds and the workflow
    timeout is 180 minutes.  While the polls return no terminal status,
    each is followed by the wait and the next poll: an execution whose
    first terminal status comes at poll [n] went through [n + 1] turns of
    wait, poll and check, and ends [n + 1] minutes after it started; an
    execution whose first 179 polls return none is failed by the timeout
    at 180 minutes, in its 180th wait. *)
Theorem polling_cadence src dst name input k w n fuel :
  jget [Field "key"] input = Some (JStr k) ->
  (forall i, (i < n)%nat ->
     terminal (TextractService.jobStatus w (job name w) (i + TextractService.polls w))
     = false) ->
  (3 * n + 5 <= fuel)%nat ->
  let m := textractMachine src dst in
  let r := runTextract src dst name fuel input w in
  states m !! "Wait 1 minute" = Some (Wait 60 (Some "GetDocumentAnalysis")) /\
  timeoutSeconds m = Some (60 * 180) /\
  ((n < 179)%nat ->
   terminal (TextractService.jobStatus w (job name w) (n + TextractService.polls w))
   = true ->
   res_trace r = "RunAmazonTextract" :: pollCycles (S n) ++
                   [decide_next (TextractService.jobStatus w (job name w)
                                   (n + TextractService.polls w))] /\
   res_clock r = 60 * (Z.of_nat n + 1)) /\
  (n = 179%nat ->
   res_outcome r = TimedOut /\
   res_trace r = "RunAmazonTextract" :: pollCycles 179 ++ ["Wait 1 minute"] /\
   res_clock r = 60 * 180).
Proof.
  intros Hk Hnt Hfuel m r. subst m r.
  split; [apply runner_wait|]. split; [reflexivity|]. split.
  - intros Hn Hterm.
    replace fuel with (3 * n + 5 + (fuel - (3 * n + 5)))%nat by lia.
    rewrite (runner_terminal src dst name input k w n) by auto.
    split; reflexivity.
  - intros ->.
    replace fuel with (3 * 179 + 3 + (fuel - (3 * 179 + 3)))%nat by lia.
    rewrite (runner_timeout src dst name input k w) by auto.
    split; [reflexivity|]. split; reflexivity.
Qed.

Lemma polling_cadence_witness :
  res_outcome (runTextract "pdf-destination" "pdf-destination" "exec-1" 542 aPdf
                 (textractWith [])) = TimedOut /\
  res_clock (runTextract "pdf-destination" "pdf-destination" "exec-1" 542 aPdf
               (textractWith [])) = 10800.
Proof.
  destruct (polling_cadence "pdf-destination" "pdf-destination" "exec-1" aPdf
              "a.pdf" (textractWith []) 179 542) as (_ & _ & _ & H).
  - reflexivity.
  - intros i _. cbn. destruct i; reflexivity.
  - lia.
  - destruct (H eq_refl) as (Ho & _ & Hc). split; [exact Ho | exact Hc].
Defined.

(** C6 (as the code has it).  The runner starts at the submission; the
    submission is followed by the one-minute wait, the wait by the poll,
    the poll by the status check; the check goes to 'Job Failed' on FAILED,
    to 'Job Finish' on SUCCEEDED and back to the wait otherwise; these are
    all the transitions, and 'Job Failed' and 'Job Finish' are the only
    terminal states.  The state entered after the submission is the wait,
    and the poll follows it. *)
Theorem runner_transition_relation src dst :
  let m := textractMachine src dst in
  startAt m = "RunAmazonTextract" /\
  (forall s s', transition m s s' <-> In (s, s') runner_edges) /\
  (forall s, terminal_state m s <-> s = "Job Failed" \/ s = "Job Finish") /\
  states m !! "Check Job Status" = Some (Choice statusRules (Some "Wait 1 minute")) /\
  (forall fs sf s ctx,
     lookup_field "status" fs = Some (JObj sf) ->
     lookup_field "JobStatus" sf = Some (JStr s) ->
     choose statusRules (JObj fs) ctx =
     Some (if String.eqb s "FAILED" then Some "Job Failed"
           else if String.eqb s "SUCCEEDED" then Some "Job Finish"
           else None)).
Proof.
  cbv zeta. split; [reflexivity|].
  split; [apply runner_transitions|].
  split; [apply runner_terminals|].
  split; [apply runner_choice|].
  intros fs sf s ctx H1 H2. unfold statusRules. cbn. rewrite H1. cbn. rewrite H2. cbn.
  destruct (String.eqb s "FAILED"); [reflexivity|].
  destruct (String.eqb s "SUCCEEDED"); reflexivity.
Qed.

Lemma runner_transition_relation_witness :
  choose statusRules
    (JObj [("key", JStr "a.pdf"); ("status", JObj [("JobStatus", JStr "IN_PROGRESS")])])
    JNull = Some None.
Proof.
  destruct (runner_transition_relation "pdf-destination" "pdf-destination")
    as (_ & _ & _ & _ & H).
  apply (H _ [("JobStatus", JStr "IN_PROGRESS")] "IN_PROGRESS"); reflexivity.
Defined.

(** C6, the claim as stated fails: the state entered after the
    submission is the wait, not the poll, and the submission has no
    transition to the poll. *)
Lemma submit_enters_wait :
  nth_error (res_trace (runTextract "pdf-destination" "pdf-destination" "exec-1" 8
                          aPdf (textractWith ["SUCCEEDED"]))) 1
  = Some "Wait 1 minute" /\
  ~ transition (textractMachine "pdf-destination" "pdf-destination")
      "RunAmazonTextract" "GetDocumentAnalysis".
Proof.
  split; [vm_compute; reflexivity|].
  intros H. apply runner_transitions in H. cbn in H.
  repeat (destruct H as [H|H]; [discriminate H|]). exact H.
Qed.

(** C10.  The submission sends the execution's name both as the client
    request token and as the job tag; sent again in the same execution,
    the request gets the same job id and leaves the service as it was: no
    second job is started. *)
Theorem submission_is_idempotent src dst name input k w t :
  jget [Field "key"] input = Some (JStr k) ->
  exists request,
    states (textractMachine src dst) !! "RunAmazonTextract"
    = Some (Task (submitTask src dst) (Some "Wait 1 minute")) /\
    task_request (submitTask src dst) input (context name input) = Some request /\
    jget [Field "ClientRequestToken"] request = Some (JStr name) /\
    jget [Field "JobTag"] request = Some (JStr name) /\
    TextractService.invoke (taskResource (submitTask src dst)) request w t
    = (TOk (JObj [("JobId", JStr (job name w))]), after_submit name w, t) /\
    TextractService.invoke (taskResource (submitTask src dst)) request
      (after_submit name w) t
    = (TOk (JObj [("JobId", JStr (job name w))]), after_submit name w, t).
Proof.
  intros Hk. apply jget_field_inv in Hk as (fs & -> & Hk).
  eexists. split; [apply runner_submit|].
  unfold task_request, submitTask. cbn -[TextractService.request_job]. rewrite Hk.
  cbn -[TextractService.request_job].
  split; [reflexivity|]. split; [reflexivity|]. split; [reflexivity|].
  unfold TextractService.invoke, instant, TextractService.startDocumentAnalysis.
  cbn -[TextractService.request_job].
  rewrite request_job_again. unfold job, after_submit.
  destruct (TextractService.request_job (Some name) w) as [id w1].
  split; reflexivity.
Qed.

Lemma submission_is_idempotent_witness :
  exists request,
    task_request (submitTask "pdf-destination" "pdf-destination") aPdf
      (context "exec-1" aPdf) = Some request /\
    jget [Field "ClientRequestToken"] request = Some (JStr "exec-1") /\
    (TextractService.invoke (CallAwsService "textract" "startDocumentAnalysis")
       request (after_submit "exec-1" (textractWith [])) 0).1.1
    = TOk (JObj [("JobId", JStr "job-0")]).
Proof.
  destruct (submission_is_idempotent "pdf-destination" "pdf-destination" "exec-1"
              aPdf "a.pdf" (textractWith []) 0 eq_refl)
    as (request & _ & Hr & Htok & _ & _ & H2).
  exists request. split; [exact Hr|]. split; [exact Htok|].
  cbn [taskResource submitTask] in H2. rewrite H2. reflexivity.
Defined.

(** ** The orientation pipeline: its states *)

Lemma pipeline_startAt : startAt correctPdfMachine = pdfToImagesTask.
Proof. reflexivity. Qed.

Lemma pipeline_timed_out t : timed_out correctPdfMachine t = (10800 <=? t).
Proof. reflexivity. Qed.

Lemma pipeline_split :
  states correctPdfMachine !! pdfToImagesTask
  = Some (Task (lambdaTask pdfToImagesFunction) (Some "Skip Rotation Choice")).
Proof. vm_compute. reflexivity. Qed.

Lemma pipeline_choice :
  states correctPdfMachine !! "Skip Rotation Choice"
  = Some (Choice [(IsPresent "$.skipRotation", "Skip Fixing Rotation")]
            (Some analyzeDocumentImagesTask)).
Proof. vm_compute. reflexivity. Qed.

Lemma pipeline_skip :
  states correctPdfMachine !! "Skip Fixing Rotation"
  = Some (Pass None "$" (Some imagesToPdfTask)).
Proof. vm_compute. reflexivity. Qed.

Lemma pipeline_analyze :
  states correctPdfMachine !! analyzeDocumentImagesTask
  = Some (Task (lambdaTask analyzeDocumentImagesFunction)
            (Some correctImageOrientationTask)).
Proof. vm_compute. reflexivity. Qed.

Lemma pipeline_correct :
  states correctPdfMachine !! correctImageOrientationTask
  = Some (Task (lambdaTask correctImageOrientationFunction) (Some "Wait 5 seconds")).
Proof. vm_compute. reflexivity. Qed.

Lemma pipeline_wait :
  states correctPdfMachine !! "Wait 5 seconds" = Some (Wait 5 (Some imagesToPdfTask)).
Proof. vm_compute. reflexivity. Qed.

Lemma pipeline_images :
  states correctPdfMachine !! imagesToPdfTask
  = Some (Task (lambdaTask imagesToPdfFunction) None).
Proof. vm_compute. reflexivity. Qed.

Lemma pipeline_policies name spec nxt :
  states correctPdfMachine !! name = Some (Task spec nxt) ->
  taskCatch spec = [] /\ taskRetry spec = [lambdaServiceRetry].
Proof.
  intros H. apply elem_of_map_to_list in H.
  vm_compute map_to_list in H.
  repeat (apply elem_of_cons in H as [H|H];
          [inversion H; subst; split; reflexivity|]).
  inversion H.
Qed.

Lemma lambda_retry_none e :
  error_matches (errorEquals lambdaServiceRetry) e = false ->
  find_retrier [lambdaServiceRetry] [O] e = None.
Proof. intros H. simpl. simpl in H. now rewrite H. Qed.

(** ** The orientation pipeline: one state at a time *)

Section Pipeline.
Context {W : Type}.
Variable handler : string -> json -> W -> task_result * W.
Variable ctx : json.

Abbreviation prun := (run (LambdaService.invoke handler) [] correctPdfMachine ctx).

Lemma exec_lambda sched recur fn next input t w :
  exec (LambdaService.invoke handler) sched ctx recur (Task (lambdaTask fn) next)
    input t w =
  match call_lambda handler fn input w t with
  | (TOk v, w', t') =>
      match apply_result input v None "$.results" "$.results.Payload" ctx with
      | Some out => continue recur next out t' w'
      | None => runtime_error t' w'
      end
  | (TErr e c, w', t') => mkResult (Failed e c) [] t' w'
  end.
Proof.
  unfold call_lambda, lambda_request. cbn -[with_retry].
  destruct (with_retry _ _ _ _ _ _) as [[[v|e c] w'] t']; reflexivity.
Qed.

(** A successful call ends with the handler's payload, wrapped in the
    Invoke response. *)
Lemma call_lambda_ok fn event w t v w' t' :
  call_lambda handler fn event w t = (TOk v, w', t') ->
  exists p w0, v = LambdaService.invoke_response p /\
               handler fn event w0 = (TOk p, w').
Proof.
  intros H. apply with_retry_ok in H as (w0 & t0 & H).
  unfold LambdaService.invoke, instant, lambda_request in H. cbn in H.
  destruct (handler fn event w0) as [[p|e c] w1] eqn:E; inversion H; subst.
  eauto.
Qed.

(** The result path and the output path together leave the payload. *)
Lemma apply_payload fs p :
  apply_result (JObj fs) (LambdaService.invoke_response p) None
    "$.results" "$.results.Payload" ctx = Some p.
Proof. cbn. rewrite lookup_set_eq. reflexivity. Qed.

(** A Lambda task either ends the execution in failure or hands the
    handler's payload to the next state. *)
Lemma lambda_step T fn next f input t w :
  states correctPdfMachine !! T = Some (Task (lambdaTask fn) next) ->
  t < 10800 ->
  (exists o t' w', is_failure o /\ prun (S f) T input t w = mkResult o [T] t' w') \/
  (exists p w0 w' t', handler fn input w0 = (TOk p, w') /\
     prun (S f) T input t w = entered T (continue (prun f) next p t' w')).
Proof.
  intros HT Ht. rewrite run_unfold, pipeline_timed_out.
  destruct (Z.leb_spec 10800 t); [lia|]. rewrite HT, exec_lambda.
  destruct (call_lambda handler fn input w t) as [[[v|e c] w'] t'] eqn:E.
  - apply call_lambda_ok in E as (p & w0 & -> & Hh).
    destruct input; try (left; do 3 eexists; split; [|reflexivity]; exact I).
    rewrite apply_payload. right. eauto 10.
  - left. do 3 eexists. split; [|reflexivity]. exact I.
Qed.

Lemma choice_run f p t w :
  t < 10800 ->
  prun (S f) "Skip Rotation Choice" p t w =
  entered "Skip Rotation Choice"
    (prun f (if is_present [Field "skipRotation"] p then "Skip Fixing Rotation"
             else analyzeDocumentImagesTask) p t w).
Proof.
  intros Ht. rewrite run_unfold, pipeline_timed_out.
  destruct (Z.leb_spec 10800 t); [lia|]. rewrite pipeline_choice.
  unfold is_present. cbn.
  destruct p; try reflexivity.
  destruct (lookup_field "skipRotation" fields); reflexivity.
Qed.

Lemma skip_run f p t w :
  t < 10800 ->
  prun (S f) "Skip Fixing Rotation" p t w =
  entered "Skip Fixing Rotation" (prun f imagesToPdfTask p t w).
Proof.
  intros Ht. rewrite run_unfold, pipeline_timed_out.
  destruct (Z.leb_spec 10800 t); [lia|]. rewrite pipeline_skip. reflexivity.
Qed.

Lemma wait5_run f p t w :
  t < 10800 ->
  prun (S f) "Wait 5 seconds" p t w =
  entered "Wait 5 seconds" (prun f imagesToPdfTask p (t + 5) w).
Proof.
  intros Ht. rewrite run_unfold, pipeline_timed_out.
  destruct (Z.leb_spec 10800 t); [lia|]. rewrite pipeline_wait. reflexivity.
Qed.

Lemma late_run f cur p t w :
  10800 <= t -> prun (S f) cur p t w = mkResult TimedOut [] t w.
Proof.
  intros Ht. rewrite run_unfold, pipeline_timed_out.
  destruct (Z.leb_spec 10800 t); [reflexivity|lia].
Qed.

(** The last step: whatever the recombination returns, nothing follows. *)
Lemma images_run f p t w :
  t < 10800 -> res_trace (prun (S f) imagesToPdfTask p t w) = [imagesToPdfTask].
Proof.
  intros Ht.
  destruct (lambda_step imagesToPdfTask imagesToPdfFunction None f p t w
              pipeline_images Ht)
    as [(o & t' & w' & _ & ->)|(q & w0 & w' & t' & _ & ->)]; reflexivity.
Qed.

Lemma images_or_late f p t w :
  res_trace (prun (S f) imagesToPdfTask p t w) = [imagesToPdfTask] \/
  res_trace (prun (S f) imagesToPdfTask p t w) = [].
Proof.
  destruct (Z.lt_ge_cases t 10800).
  - left. now apply images_run.
  - right. now rewrite late_run.
Qed.

(** From the detect step on: the recombination is reached only through
    the correction and the wait. *)
Lemma analyze_run f p t w :
  t < 10800 ->
  exists rest,
    res_trace (prun (S (S (S (S f)))) analyzeDocumentImagesTask p t w)
    = analyzeDocumentImagesTask :: rest /\
    (In imagesToPdfTask rest -> rest = detour).
Proof.
  intros Ht.
  destruct (lambda_step analyzeDocumentImagesTask analyzeDocumentImagesFunction
              (Some correctImageOrientationTask) (S (S (S f))) p t w
              pipeline_analyze Ht)
    as [(o & t' & w' & _ & ->)|(p2 & w0 & w2 & t2 & _ & ->)].
  { exists []. split; [reflexivity|]. intros []. }
  cbn [continue entered res_trace].
  destruct (Z.lt_ge_cases t2 10800) as [Ht2|Ht2].
  2:{ rewrite late_run by lia. exists []. split; [reflexivity|]. intros []. }
  destruct (lambda_step correctImageOrientationTask correctImageOrientationFunction
              (Some "Wait 5 seconds") (S (S f)) p2 t2 w2 pipeline_correct Ht2)
    as [(o & t' & w' & _ & ->)|(p3 & w0' & w3 & t3 & _ & ->)].
  { eexists. split; [reflexivity|]. cbn. intros [H|[]]. discriminate. }
  cbn [continue entered res_trace].
  destruct (Z.lt_ge_cases t3 10800) as [Ht3|Ht3].
  2:{ rewrite late_run by lia. eexists. split; [reflexivity|].
      cbn. intros [H|[]]. discriminate. }
  rewrite wait5_run by lia. cbn [entered res_trace].
  destruct (images_or_late f p3 (t3 + 5) w3) as [->| ->].
  - eexists. split; reflexivity.
  - eexists. split; [reflexivity|]. cbn. intros [H|[H|[]]]; discriminate.
Qed.

(** Every run of the pipeline: either the page-split step does not
    deliver, or its payload decides the route. *)
Lemma pipeline_cases f input w :
  let r := prun (6 + f)%nat pdfToImagesTask input 0 w in
  (res_trace r = [pdfToImagesTask] /\ is_failure (res_outcome r)) \/
  (exists p w0 w1, handler pdfToImagesFunction input w0 = (TOk p, w1) /\
     (if is_present [Field "skipRotation"] p
      then res_trace r = [pdfToImagesTask; "Skip Rotation Choice";
                          "Skip Fixing Rotation"; imagesToPdfTask]
      else exists rest,
          res_trace r = pdfToImagesTask :: "Skip Rotation Choice"
                          :: analyzeDocumentImagesTask :: rest /\
          (In imagesToPdfTask rest -> rest = detour))).
Proof.
  intros r. subst r. change (6 + f)%nat with (S (S (S (S (S (S f)))))).
  destruct (lambda_step pdfToImagesTask pdfToImagesFunction
              (Some "Skip Rotation Choice") (S (S (S (S (S f))))) input 0 w
              pipeline_split ltac:(lia))
    as [(o & t' & w' & Hf & ->)|(p & w0 & w1 & t1 & Hh & ->)].
  { left. split; [reflexivity | exact Hf]. }
  cbn [continue].
  destruct (Z.lt_ge_cases t1 10800) as [Ht1|Ht1].
  2:{ rewrite late_run by lia. left. split; [reflexivity | exact I]. }
  right. exists p, w0, w1. split; [exact Hh|].
  rewrite choice_run by lia.
  destruct (is_present [Field "skipRotation"] p).
  - rewrite skip_run by lia. cbn [entered res_trace].
    now rewrite images_run by lia.
  - destruct (analyze_run f p t1 w1 Ht1) as (rest & Hr & Hrest).
    exists rest. cbn [entered res_trace]. rewrite Hr.
    split; [reflexivity | exact Hrest].
Qed.

(** A pipeline execution that succeeds has run the recombination. *)
Lemma success_recombines f cur d t w o :
  res_outcome (prun f cur d t w) = Succeeded o ->
  In imagesToPdfTask (res_trace (prun f cur d t w)).
Proof.
  revert cur d t w. induction f as [|f IH]; intros cur d t w H; [discriminate H|].
  rewrite run_unfold in *. rewrite pipeline_timed_out in *.
  destruct (10800 <=? t); [discriminate H|].
  destruct (states correctPdfMachine !! cur) as [st|] eqn:Est; [|discriminate H].
  apply elem_of_map_to_list in Est. vm_compute map_to_list in Est.
  repeat (apply elem_of_cons in Est as [Est|Est];
          [inversion Est; subst; clear Est|]); try (inversion Est).
  all: cbn [entered res_outcome res_trace] in *.
  - (* Wait 5 seconds *) right. cbn [exec continue] in *. now apply IH.
  - (* Skip Fixing Rotation *) right. cbn in H |- *. now apply IH.
  - (* Skip Rotation Choice *) right. cbn [exec] in *.
    destruct (choose _ d ctx) as [[target|]|]; [now apply IH | now apply IH | discriminate H].
  - (* correct *) right.
    rewrite (exec_lambda [] (prun f) correctImageOrientationFunction
               (Some "Wait 5 seconds")) in *.
    destruct (call_lambda _ _ _ _ _) as [[[v|e c] w'] t']; [|discriminate H].
    destruct (apply_result _ _ _ _ _ _); [|discriminate H].
    cbn [continue] in *. now apply IH.
  - (* images *) now left.
  - (* analyze *) right.
    rewrite (exec_lambda [] (prun f) analyzeDocumentImagesFunction
               (Some correctImageOrientationTask)) in *.
    destruct (call_lambda _ _ _ _ _) as [[[v|e c] w'] t']; [|discriminate H].
    destruct (apply_result _ _ _ _ _ _); [|discriminate H].
    cbn [continue] in *. now apply IH.
  - (* page split *) right.
    rewrite (exec_lambda [] (prun f) pdfToImagesFunction
               (Some "Skip Rotation Choice")) in *.
    destruct (call_lambda _ _ _ _ _) as [[[v|e c] w'] t']; [|discriminate H].
    destruct (apply_result _ _ _ _ _ _); [|discriminate H].
    cbn [continue] in *. now apply IH.
Qed.
End Pipeline.

Lemma pipeline_run {W} (handler : string -> json -> W -> task_result * W)
    name fuel input w :
  (6 <= fuel)%nat ->
  let r := runCorrectPdf handler name fuel input w in
  (res_trace r = [pdfToImagesTask] /\ is_failure (res_outcome r)) \/
  (exists p w0 w1, handler pdfToImagesFunction input w0 = (TOk p, w1) /\
     (if is_present [Field "skipRotation"] p
      then res_trace r = [pdfToImagesTask; "Skip Rotation Choice";
                          "Skip Fixing Rotation"; imagesToPdfTask]
      else exists rest,
          res_trace r = pdfToImagesTask :: "Skip Rotation Choice"
                          :: analyzeDocumentImagesTask :: rest /\
          (In imagesToPdfTask rest -> rest = detour))).
Proof.
  intros Hf. replace fuel with (6 + (fuel - 6))%nat by lia.
  apply (pipeline_cases handler (context name input) (fuel - 6) input w).
Qed.

(** ** The orientation pipeline: the claims *)

(** C1 (as the code has it).  The choice tests whether the record it
    receives, the payload of the page-split step, has a [skipRotation]
    field, whatever its value.  In every execution in which the page split
    delivers a payload: when the field is present the execution goes from
    the choice through 'Skip Fixing Rotation' straight to the
    recombination, and detection, correction and the wait do not run; when
    it is absent the choice is followed by the detection, and the
    recombination runs only after detection, correction and the 5-second
    wait, in this order. *)
Theorem skip_rotation_routing {W} (handler : string -> json -> W -> task_result * W)
    name fuel input w :
  (6 <= fuel)%nat ->
  let r := runCorrectPdf handler name fuel input w in
  states correctPdfMachine !! "Skip Rotation Choice"
  = Some (Choice [(IsPresent "$.skipRotation", "Skip Fixing Rotation")]
            (Some analyzeDocumentImagesTask)) /\
  states correctPdfMachine !! "Wait 5 seconds" = Some (Wait 5 (Some imagesToPdfTask)) /\
  ((res_trace r = [pdfToImagesTask] /\ is_failure (res_outcome r)) \/
   (exists p w0 w1, handler pdfToImagesFunction input w0 = (TOk p, w1) /\
      (if is_present [Field "skipRotation"] p
       then res_trace r = [pdfToImagesTask; "Skip Rotation Choice";
                           "Skip Fixing Rotation"; imagesToPdfTask]
       else exists rest,
           res_trace r = pdfToImagesTask :: "Skip Rotation Choice"
                           :: analyzeDocumentImagesTask :: rest /\
           (In imagesToPdfTask rest ->
            rest = [correctImageOrientationTask; "Wait 5 seconds";
                    imagesToPdfTask])))).
Proof.
  intros Hf r. split; [apply pipeline_choice|]. split; [apply pipeline_wait|].
  apply (pipeline_run handler name fuel input w Hf).
Qed.

Lemma skip_rotation_routing_witness :
  (6 <= 6)%nat /\
  states correctPdfMachine !! "Wait 5 seconds" = Some (Wait 5 (Some imagesToPdfTask)).
Proof.
  split; [lia|].
  apply (skip_rotation_routing echo "exec-1" 6 aPdf tt). lia.
Defined.

(** C1, the claim as stated fails: with the flag present and false the
    detection, the correction and the wait are bypassed. *)
Lemma skip_flag_false_bypasses :
  jget [Field "skipRotation"] aPdfUnrotated = Some (JBool false) /\
  res_trace (runCorrectPdf echo "exec-1" 6 aPdfUnrotated tt)
  = [pdfToImagesTask; "Skip Rotation Choice"; "Skip Fixing Rotation";
     imagesToPdfTask] /\
  ~ In analyzeDocumentImagesTask
      (res_trace (runCorrectPdf echo "exec-1" 6 aPdfUnrotated tt)).
Proof.
  split; [reflexivity|]. split; [vm_compute; reflexivity|].
  vm_compute. intros H. repeat (destruct H as [H|H]; [discriminate H|]). exact H.
Qed.

(** C7 (as the code has it).  A task that [getLambdaInvokeTask] creates
    writes the Invoke result at [$.results] of the record and then narrows
    its output to [$.results.Payload]: the record after the step is the
    payload the function returned, whatever the record before the step
    held. *)
Theorem lambda_task_output_is_payload fn (g g' : scope) c fs payload ctx :
  LambdaHelper.getLambdaInvokeTask fn g = Some (c, g') ->
  exists spec,
    g' !! chainStart c = Some (Task spec None) /\
    taskResultPath spec = "$.results" /\
    taskOutputPath spec = "$.results.Payload" /\
    apply_result (JObj fs) (LambdaService.invoke_response payload)
      (taskResultSelector spec) (taskResultPath spec) (taskOutputPath spec) ctx
    = Some payload.
Proof.
  unfold LambdaHelper.getLambdaInvokeTask, new_LambdaInvoke, construct.
  destruct (g !! _) eqn:E; [discriminate|]. intros H. inversion H; subst. clear H.
  eexists. split; [apply lookup_insert_eq|].
  cbn [taskResultPath taskOutputPath taskResultSelector chainStart].
  repeat split. apply apply_payload.
Qed.

Lemma lambda_task_output_is_payload_witness :
  exists spec,
    taskOutputPath spec = "$.results.Payload" /\
    apply_result aPdf (LambdaService.invoke_response (JObj [("pages", JNum 2)]))
      (taskResultSelector spec) (taskResultPath spec) (taskOutputPath spec) JNull
    = Some (JObj [("pages", JNum 2)]).
Proof.
  assert (H : LambdaHelper.getLambdaInvokeTask pdfToImagesFunction ∅
              = Some (mkChain pdfToImagesTask [pdfToImagesTask],
                      <[pdfToImagesTask := Task (lambdaTask pdfToImagesFunction) None]> ∅))
    by (vm_compute; reflexivity).
  destruct (lambda_task_output_is_payload pdfToImagesFunction ∅ _ _
              [("key", JStr "a.pdf")] (JObj [("pages", JNum 2)]) JNull H)
    as (spec & _ & _ & Hout & Happly).
  exists spec. split; [exact Hout | exact Happly].
Defined.

(** C7, the claim as stated fails: after a step whose function returns
    only the pages it wrote, the record has neither the key it had before
    the step nor a [results] field. *)
Lemma record_is_replaced :
  is_present [Field "key"] aPdf = true /\
  res_outcome (run (LambdaService.invoke splitOnly) [] correctPdfMachine
                 (context "exec-1" aPdf) 1 imagesToPdfTask aPdf 0 tt)
  = Succeeded (JObj [("images", JArr [JStr "a.pdf/page-1.png"])]) /\
  is_present [Field "key"] (JObj [("images", JArr [JStr "a.pdf/page-1.png"])]) = false /\
  is_present [Field "results"] (JObj [("images", JArr [JStr "a.pdf/page-1.png"])])
  = false.
Proof. vm_compute. repeat split. Qed.

(** ** The orchestrator: its states *)

Lemma orchestrator_timed_out t : timed_out assignmentsMachine t = (10800 <=? t).
Proof. reflexivity. Qed.

Lemma orchestrator_startAt : startAt assignmentsMachine = "StartPass".
Proof. reflexivity. Qed.

Lemma orchestrator_start :
  states assignmentsMachine !! "StartPass" = Some (Pass None "$" (Some "ProcessParallel")).
Proof. vm_compute. reflexivity. Qed.

Lemma orchestrator_parallel :
  states assignmentsMachine !! "ProcessParallel"
  = Some (Parallel ["ScriptsPass"; "StandardAnswerPass"] (Some fanIn)
            (Some "GenerateMarkResultStateMachineExecution")).
Proof. vm_compute. reflexivity. Qed.

Lemma orchestrator_scriptsPass :
  states assignmentsMachine !! "ScriptsPass"
  = Some (Pass (Some (Obj [("key", PathAt "$.scriptsKey")])) "$.Input"
            (Some "ScriptsCorrectPdfOrientationStateMachineExecution")).
Proof. vm_compute. reflexivity. Qed.

Lemma orchestrator_answerPass :
  states assignmentsMachine !! "StandardAnswerPass"
  = Some (Pass (Some (Obj [("key", PathAt "$.standardAnswerKey");
                           ("skipRotation", Lit (JBool true))]))
            "$.Input" (Some "AnswerCorrectPdfOrientationStateMachineExecution")).
Proof. vm_compute. reflexivity. Qed.

Lemma orchestrator_scriptsCorrect :
  states assignmentsMachine !! "ScriptsCorrectPdfOrientationStateMachineExecution"
  = Some (Task (startTask Assignments.correctPdfOrientationStateMachine "$.Input")
            (Some "ScriptsAmazonTextractMultiPagesDocumentsStateMachineExecution")).
Proof. vm_compute. reflexivity. Qed.

Lemma orchestrator_answerCorrect :
  states assignmentsMachine !! "AnswerCorrectPdfOrientationStateMachineExecution"
  = Some (Task (startTask Assignments.correctPdfOrientationStateMachine "$.Input")
            (Some "AnswerAmazonTextractMultiPagesDocumentsStateMachineExecution")).
Proof. vm_compute. reflexivity. Qed.

Lemma orchestrator_scriptsTextract :
  states assignmentsMachine
    !! "ScriptsAmazonTextractMultiPagesDocumentsStateMachineExecution"
  = Some (Task (startTask Assignments.amazonTextractMultiPagesDocumentsStateMachine
                  "$.Input")
            (Some "ScriptsTransformFormResultStateMachineExecution")).
Proof. vm_compute. reflexivity. Qed.

Lemma orchestrator_answerTextract :
  states assignmentsMachine
    !! "AnswerAmazonTextractMultiPagesDocumentsStateMachineExecution"
  = Some (Task (startTask Assignments.amazonTextractMultiPagesDocumentsStateMachine
                  "$.Input")
            (Some "AnswerTransformFormResultStateMachineExecution")).
Proof. vm_compute. reflexivity. Qed.

Lemma orchestrator_scriptsTransform :
  states assignmentsMachine !! "ScriptsTransformFormResultStateMachineExecution"
  = Some (Task (startTask Assignments.transformFormResultStateMachine "$.Output") None).
Proof. vm_compute. reflexivity. Qed.

Lemma orchestrator_answerTransform :
  states assignmentsMachine !! "AnswerTransformFormResultStateMachineExecution"
  = Some (Task (startTask Assignments.transformFormResultStateMachine "$.Output") None).
Proof. vm_compute. reflexivity. Qed.

Lemma orchestrator_generateMark :
  states assignmentsMachine !! "GenerateMarkResultStateMachineExecution"
  = Some (Task (startTask Assignments.generateMarkResultStateMachine "$") None).
Proof. vm_compute. reflexivity. Qed.

Lemma orchestrator_policies name spec nxt :
  states assignmentsMachine !! name = Some (Task spec nxt) ->
  taskCatch spec = [] /\ taskRetry spec = [].
Proof.
  intros H. apply elem_of_map_to_list in H.
  vm_compute map_to_list in H.
  repeat (apply elem_of_cons in H as [H|H];
          [inversion H; subst; split; reflexivity|]).
  inversion H.
Qed.

(** ** The orchestrator: the fan-in *)

Section FanIn.
Context {W : Type}.
Variable invoke : resource -> json -> W -> Z -> task_result * W * Z.
Variables (sched : list nat) (ctx : json).

Abbreviation orun := (run invoke sched assignmentsMachine ctx).

Lemma fan_in_selector o0 o1 x0 x1 input :
  jget [Field "Output"] o0 = Some x0 -> jget [Field "Output"] o1 = Some x1 ->
  apply_result input (JArr [o0; o1]) (Some fanIn) "$" "$" ctx =
  Some (JObj [("scripts", x0); ("standardAnswer", x1)]).
Proof.
  intros (f0 & -> & H0)%jget_field_inv (f1 & -> & H1)%jget_field_inv.
  unfold fanIn. cbv -[lookup_field]. rewrite H0, H1. reflexivity.
Qed.

Lemma fan_in f input t w r0 r1 o0 o1 x0 x1 :
  t < 10800 ->
  (completion_order 2 sched = [0%nat; 1%nat] /\
   r0 = orun f "ScriptsPass" input t w /\
   r1 = orun f "StandardAnswerPass" input t (res_world r0)) \/
  (completion_order 2 sched = [1%nat; 0%nat] /\
   r1 = orun f "StandardAnswerPass" input t w /\
   r0 = orun f "ScriptsPass" input t (res_world r1)) ->
  res_outcome r0 = Succeeded o0 -> res_outcome r1 = Succeeded o1 ->
  jget [Field "Output"] o0 = Some x0 -> jget [Field "Output"] o1 = Some x1 ->
  exists tr t' w',
    orun (S f) "ProcessParallel" input t w =
    prepend ("ProcessParallel" :: tr)
      (orun f "GenerateMarkResultStateMachineExecution"
         (JObj [("scripts", x0); ("standardAnswer", x1)]) t' w').
Proof.
  intros Ht Horder H0 H1 Hx0 Hx1.
  rewrite run_unfold, orchestrator_timed_out.
  destruct (Z.leb_spec 10800 t); [lia|]. rewrite orchestrator_parallel.
  cbn [exec length replicate].
  destruct Horder as [(-> & -> & ->)|(-> & -> & ->)].
  - cbn [run_branches nth_error]. rewrite H0. cbn [run_branches nth_error].
    rewrite H1. cbn [run_branches nth_error insert list_insert].
    rewrite (fan_in_selector _ _ x0 x1) by assumption.
    do 3 eexists. unfold prepend, entered, continue.
    cbn [res_outcome res_trace res_clock res_world]. reflexivity.
  - cbn [run_branches nth_error]. rewrite H1. cbn [run_branches nth_error].
    rewrite H0. cbn [run_branches nth_error insert list_insert].
    rewrite (fan_in_selector _ _ x0 x1) by assumption.
    do 3 eexists. unfold prepend, entered, continue.
    cbn [res_outcome res_trace res_clock res_world]. reflexivity.
Qed.
End FanIn.

(** C4.  The parallel state has the scripts branch at index 0 and the
    standard-answer branch at index 1, and its result selector binds
    [$.[0].Output] to "scripts" and [$.[1].Output] to "standardAnswer".
    Whichever of the two branches completes first, when both succeed the
    record handed to the next state has the output of the branch at index
    0 in its "scripts" slot and the output of the branch at index 1 in its
    "standardAnswer" slot. *)
Theorem fan_in_is_positional {W}
    (invoke : resource -> json -> W -> Z -> task_result * W * Z)
    sched ctx f input t w r0 r1 o0 o1 x0 x1 :
  t < 10800 ->
  (completion_order 2 sched = [0%nat; 1%nat] /\
   r0 = run invoke sched assignmentsMachine ctx f "ScriptsPass" input t w /\
   r1 = run invoke sched assignmentsMachine ctx f "StandardAnswerPass" input t
          (res_world r0)) \/
  (completion_order 2 sched = [1%nat; 0%nat] /\
   r1 = run invoke sched assignmentsMachine ctx f "StandardAnswerPass" input t w /\
   r0 = run invoke sched assignmentsMachine ctx f "ScriptsPass" input t
          (res_world r1)) ->
  res_outcome r0 = Succeeded o0 -> res_outcome r1 = Succeeded o1 ->
  jget [Field "Output"] o0 = Some x0 -> jget [Field "Output"] o1 = Some x1 ->
  states assignmentsMachine !! "ProcessParallel"
  = Some (Parallel ["ScriptsPass"; "StandardAnswerPass"]
            (Some (Obj [("scripts", PathAt "$.[0].Output");
                        ("standardAnswer", PathAt "$.[1].Output")]))
            (Some "GenerateMarkResultStateMachineExecution")) /\
  (completion_order 2 sched = [0%nat; 1%nat] \/
   completion_order 2 sched = [1%nat; 0%nat]) /\
  exists tr t' w',
    run invoke sched assignmentsMachine ctx (S f) "ProcessParallel" input t w =
    prepend ("ProcessParallel" :: tr)
      (run invoke sched assignmentsMachine ctx f
         "GenerateMarkResultStateMachineExecution"
         (JObj [("scripts", x0); ("standardAnswer", x1)]) t' w').
Proof.
  intros Ht Horder H0 H1 Hx0 Hx1.
  split; [apply orchestrator_parallel|].
  split; [apply completion_order_two|].
  now apply (fan_in invoke sched ctx f input t w r0 r1 o0 o1 x0 x1).
Qed.

Lemma fan_in_is_positional_witness :
  exists tr t' w',
    run demoInvoke [1%nat; 0%nat] assignmentsMachine (context "top" bothKeys) 6
      "ProcessParallel" bothKeys 0 demoWorld =
    prepend ("ProcessParallel" :: tr)
      (run demoInvoke [1%nat; 0%nat] assignmentsMachine (context "top" bothKeys) 5
         "GenerateMarkResultStateMachineExecution"
         (JObj [("scripts", JObj [("forms", finished "s.pdf" "job-1")]);
                ("standardAnswer", JObj [("forms", finished "a.pdf" "job-0")])])
         t' w').
Proof.
  pose (r1 := run demoInvoke [1%nat; 0%nat] assignmentsMachine
                (context "top" bothKeys) 5 "StandardAnswerPass" bothKeys 0 demoWorld).
  pose (r0 := run demoInvoke [1%nat; 0%nat] assignmentsMachine
                (context "top" bothKeys) 5 "ScriptsPass" bothKeys 0 (res_world r1)).
  apply (fan_in_is_positional demoInvoke [1%nat; 0%nat] (context "top" bothKeys) 5
           bothKeys 0 demoWorld r0 r1
           (match res_outcome r0 with Succeeded o => o | _ => JNull end)
           (match res_outcome r1 with Succeeded o => o | _ => JNull end)).
  - lia.
  - right. repeat split.
  - vm_compute. reflexivity.
  - vm_compute. reflexivity.
  - vm_compute. reflexivity.
  - vm_compute. reflexivity.
Defined.

(** ** The orchestrator: the record of executions it starts *)

Lemma extends_refl {W} (w : @StepFunctionsService.world W) : extends w w.
Proof. exists []. now rewrite app_nil_r. Qed.

Lemma extends_trans {W} (w1 w2 w3 : @StepFunctionsService.world W) :
  extends w1 w2 -> extends w2 w3 -> extends w1 w3.
Proof. intros [l1 H1] [l2 H2]. exists (l1 ++ l2). now rewrite H2, H1, app_assoc. Qed.

Lemma ran_scripts_extends {W} ks (w w' : @StepFunctionsService.world W) :
  extends w w' -> ran_scripts ks w -> ran_scripts ks w'.
Proof.
  intros [l Hl] (tr & Hin & H). exists tr. split; [|exact H].
  rewrite Hl. apply in_or_app. now left.
Qed.

Lemma ran_answer_extends {W} ka (w w' : @StepFunctionsService.world W) :
  extends w w' -> ran_answer ka w -> ran_answer ka w'.
Proof.
  intros [l Hl] (tr & Hin & H). exists tr. split; [|exact H].
  rewrite Hl. apply in_or_app. now left.
Qed.

Section Growth.
Context {W : Type}.
Variable handler : string -> json -> W -> task_result * W.
Variables transformFormResult generateMarkResult : json -> outcome * Z.
Variable pdfDestinationBucket : string.
Variable executionName : nat -> string.
Variables (sched : list nat) (ctx : json).

Abbreviation sinvoke :=
  (StepFunctionsService.invoke handler transformFormResult generateMarkResult
     pdfDestinationBucket executionName).
Abbreviation srun := (run sinvoke sched assignmentsMachine ctx).

Lemma start_extends sm inp w t :
  extends w (StepFunctionsService.startExecution handler transformFormResult
               generateMarkResult pdfDestinationBucket executionName sm inp w t).1.2.
Proof.
  unfold StepFunctionsService.startExecution.
  repeat (match goal with |- context [if ?b then _ else _] => destruct b end;
          [eexists; reflexivity|]).
  apply extends_refl.
Qed.

Lemma invoke_extends r req w t : extends w (sinvoke r req w t).1.2.
Proof.
  unfold StepFunctionsService.invoke. destruct r; try apply extends_refl.
  destruct (jget [Field "Input"] req); [apply start_extends | apply extends_refl].
Qed.

Lemma with_retry_extends budget : forall rs counts req r w t,
  extends w (with_retry budget rs counts (sinvoke r req) w t).1.2.
Proof.
  induction budget as [|b IH]; intros rs counts req r w t; simpl.
  - pose proof (invoke_extends r req w t) as H.
    destruct (sinvoke r req w t) as [[[v|e c] w'] t']; exact H.
  - pose proof (invoke_extends r req w t) as H.
    destruct (sinvoke r req w t) as [[[v|e c] w'] t']; [exact H|].
    cbn [fst snd] in H.
    destruct (find_retrier rs counts e) as [[[i rt] n]|]; [|exact H].
    destruct (n <? maxAttempts rt)%nat; [|exact H].
    eapply extends_trans; [exact H | apply IH].
Qed.

Lemma branches_extend
    (recur : string -> json -> Z -> @StepFunctionsService.world W -> result)
    branches input t0 :
  (forall b w, extends w (res_world (recur b input t0 w))) ->
  forall order outs tr tmax w,
    extends w (run_branches recur branches order input t0 outs tr tmax w).2.
Proof.
  intros Hb order. induction order as [|i order IH]; intros outs tr tmax w.
  - apply extends_refl.
  - cbn [run_branches]. destruct (nth_error branches i) as [b|]; [|apply IH].
    pose proof (Hb b w) as Hw.
    destruct (res_outcome (recur b input t0 w)); try exact Hw.
    eapply extends_trans; [exact Hw | apply IH].
Qed.

Lemma run_extends f : forall cur d t w, extends w (res_world (srun f cur d t w)).
Proof.
  induction f as [|f IH]; intros cur d t w; [apply extends_refl|].
  rewrite run_unfold.
  destruct (timed_out assignmentsMachine t); [apply extends_refl|].
  destruct (states assignmentsMachine !! cur) as [st|]; [|apply extends_refl].
  cbn [entered res_world].
  assert (Hcont : forall nxt out t' w', extends w' (res_world (continue (srun f) nxt out t' w'))).
  { intros [n|] out t' w'; cbn; [apply IH | apply extends_refl]. }
  destruct st as [spec nxt|params rp nxt|secs nxt|rules dflt|e c|branches sel nxt];
    cbn [exec].
  - destruct (match taskParameters spec with Some p => eval_tmpl p d ctx | None => Some d end)
      as [req|]; [|apply extends_refl].
    pose proof (with_retry_extends (retry_budget (taskRetry spec)) (taskRetry spec)
                  (map (fun _ => O) (taskRetry spec)) req (taskResource spec) w t) as H.
    destruct (with_retry _ _ _ _ w t) as [[[v|e c] w'] t']; cbn [fst snd] in H.
    + destruct (apply_result _ _ _ _ _ _); [|exact H].
      eapply extends_trans; [exact H | apply Hcont].
    + destruct (find_catcher _ _) as [h|]; [|exact H].
      destruct (apply_result _ _ _ _ _ _); [|exact H].
      eapply extends_trans; [exact H | apply IH].
  - destruct (match params with Some p => eval_tmpl p d ctx | None => Some d end);
      [|apply extends_refl].
    destruct (apply_result _ _ _ _ _ _); [apply Hcont | apply extends_refl].
  - apply Hcont.
  - destruct (choose rules d ctx) as [[target|]|]; [apply IH| |apply extends_refl].
    destruct dflt; [apply IH | apply extends_refl].
  - apply extends_refl.
  - pose proof (branches_extend (srun f) branches d t (fun b w' => IH b d t w')
                  (completion_order (length branches) sched)
                  (replicate (length branches) JNull) [] t w) as H.
    destruct (run_branches _ _ _ _ _ _ _ _ _) as [[[o tr] t'] w']. cbn [snd] in H.
    destruct o; try exact H.
    destruct (apply_result _ _ _ _ _ _); [|exact H].
    cbn [res_world]. eapply extends_trans; [exact H | apply Hcont].
Qed.
End Growth.

(** ** The orchestrator: what it starts the pipeline on *)

Section Orchestrator.
Context {W : Type}.
Variable handler : string -> json -> W -> task_result * W.
Variables transformFormResult generateMarkResult : json -> outcome * Z.
Variable pdfDestinationBucket : string.
Variable executionName : nat -> string.
Variables (sched : list nat) (ctx : json).
Variables ks ka : string.

(** The page-split function returns the [skipRotation] field of its
    event, if any, in its payload. *)
Hypothesis Hflag : forall ev w p w',
  handler pdfToImagesFunction ev w = (TOk p, w') ->
  is_present [Field "skipRotation"] p = is_present [Field "skipRotation"] ev.

Abbreviation Inv := (logInv (W:=W) ks ka).

Lemma answer_pipeline name w :
  let tr := res_trace (runCorrectPdf handler name StepFunctionsService.correctPdfFuel
                         (answerInput ka) w) in
  ~ In analyzeDocumentImagesTask tr /\ ~ In correctImageOrientationTask tr.
Proof.
  cbv zeta.
  destruct (pipeline_run handler name StepFunctionsService.correctPdfFuel
              (answerInput ka) w
              ltac:(unfold StepFunctionsService.correctPdfFuel; lia))
    as [[-> _]|(p & w0 & w1 & Hh & Hp)].
  - split; cbn; intros [H|[]]; discriminate.
  - rewrite (Hflag _ _ _ _ Hh) in Hp.
    change (is_present [Field "skipRotation"] (answerInput ka)) with true in Hp.
    cbv beta iota in Hp. rewrite Hp.
    split; cbn; intros [H|[H|[H|[H|[]]]]]; discriminate.
Qed.

Lemma scripts_pipeline name w :
  let tr := res_trace (runCorrectPdf handler name StepFunctionsService.correctPdfFuel
                         (scriptsInput ks) w) in
  (In "Skip Rotation Choice" tr -> In analyzeDocumentImagesTask tr) /\
  (In imagesToPdfTask tr -> In correctImageOrientationTask tr).
Proof.
  cbv zeta.
  destruct (pipeline_run handler name StepFunctionsService.correctPdfFuel
              (scriptsInput ks) w
              ltac:(unfold StepFunctionsService.correctPdfFuel; lia))
    as [[-> _]|(p & w0 & w1 & Hh & Hp)].
  - split; cbn; intros [H|[]]; discriminate.
  - rewrite (Hflag _ _ _ _ Hh) in Hp.
    change (is_present [Field "skipRotation"] (scriptsInput ks)) with false in Hp.
    cbv beta iota in Hp.
    destruct Hp as (rest & -> & Hrest). split.
    + intros _. cbn. auto.
    + intros [H|[H|[H|H]]]; try discriminate.
      rewrite (Hrest H). cbn. auto.
Qed.

Lemma start_inv sm inp w t :
  Inv w ->
  (sm = Assignments.correctPdfOrientationStateMachine -> expectedInput ks ka inp) ->
  Inv (StepFunctionsService.startExecution handler transformFormResult
         generateMarkResult pdfDestinationBucket executionName sm inp w t).1.2.
Proof.
  intros Hw Hin. unfold StepFunctionsService.startExecution.
  destruct (String.eqb_spec sm Assignments.correctPdfOrientationStateMachine)
    as [->|Hne].
  { cbn [fst snd StepFunctionsService.executions]. apply Forall_app.
    split; [exact Hw|].
    constructor; [|constructor]. intros _. cbn [fst snd].
    destruct (Hin eq_refl) as [->| ->].
    - left. split; [reflexivity|]. apply answer_pipeline.
    - right. split; [reflexivity|]. apply scripts_pipeline. }
  assert (Hother : forall tr, good_entry ks ka (sm, inp, tr))
    by (intros tr H; contradiction).
  destruct (String.eqb sm Assignments.amazonTextractMultiPagesDocumentsStateMachine).
  { cbn [fst snd StepFunctionsService.executions]. apply Forall_app.
    split; [exact Hw|]. constructor; [apply Hother | constructor]. }
  destruct (String.eqb sm Assignments.transformFormResultStateMachine).
  { cbn [fst snd StepFunctionsService.executions]. apply Forall_app.
    split; [exact Hw|]. constructor; [apply Hother | constructor]. }
  destruct (String.eqb sm Assignments.generateMarkResultStateMachine).
  { cbn [fst snd StepFunctionsService.executions]. apply Forall_app.
    split; [exact Hw|]. constructor; [apply Hother | constructor]. }
  exact Hw.
Qed.
End Orchestrator.

(** ** The orchestrator: what every execution keeps *)

Section Keeping.
Context {W : Type}.
Variable handler : string -> json -> W -> task_result * W.
Variables transformFormResult generateMarkResult : json -> outcome * Z.
Variable pdfDestinationBucket : string.
Variable executionName : nat -> string.
Variables (sched : list nat) (ctx : json).
Variables ks ka : string.
Variable J : @StepFunctionsService.world W -> Prop.

(** Starting a machine, the pipeline on one of the two prepared inputs,
    keeps [J]. *)
Hypothesis Hstart : forall sm inp w t,
  J w ->
  (sm = Assignments.correctPdfOrientationStateMachine -> expectedInput ks ka inp) ->
  J (StepFunctionsService.startExecution handler transformFormResult
       generateMarkResult pdfDestinationBucket executionName sm inp w t).1.2.

Abbreviation sinvoke :=
  (StepFunctionsService.invoke handler transformFormResult generateMarkResult
     pdfDestinationBucket executionName).
Abbreviation srun := (run sinvoke sched assignmentsMachine ctx).
Abbreviation SafeAt := (Safe sinvoke sched ctx J).
Abbreviation safe := (safe_next sinvoke sched ctx J).

Lemma continue_safe f nxt d t w :
  safe nxt -> J w -> J (res_world (continue (srun f) nxt d t w)).
Proof.
  destruct nxt as [n|]; simpl; intros Hn Hw; [|exact Hw].
  now apply Hn.
Qed.

Lemma task_safe (P : json -> Prop) T sm ip nxt :
  states assignmentsMachine !! T = Some (Task (startTask sm ip) nxt) ->
  (forall d inp, P d -> sm = Assignments.correctPdfOrientationStateMachine ->
                 eval_expr ip d ctx = Some inp -> expectedInput ks ka inp) ->
  safe nxt ->
  SafeAt P T.
Proof.
  intros HT Hreq Hnext f d t w Hd Hw.
  destruct f as [|f]; [exact Hw|].
  rewrite run_unfold, orchestrator_timed_out.
  destruct (10800 <=? t); [exact Hw|]. rewrite HT.
  cbn [exec startTask taskParameters taskRetry taskResource taskCatch
       taskResultSelector taskResultPath taskOutputPath eval_tmpl retry_budget
       fold_right map].
  destruct (eval_expr ip d ctx) as [inp|] eqn:Einp; [|exact Hw].
  cbn [option_map]. rewrite with_retry_nil.
  unfold StepFunctionsService.invoke at 1.
  cbn [jget jstep lookup_field String.eqb Ascii.eqb Bool.eqb].
  pose proof (Hstart sm inp w t Hw (fun E => Hreq d inp Hd E Einp)) as Hw'.
  destruct (StepFunctionsService.startExecution _ _ _ _ _ sm inp w t)
    as [[[v|e c] w'] t'];
    cbn [fst snd] in Hw'.
  - cbn [find_catcher find entered res_world].
    destruct (apply_result d v None "$.results" "$.results" ctx) as [out|].
    + now apply continue_safe.
    + exact Hw'.
  - exact Hw'.
Qed.

Lemma generateMark_safe : SafeAt anyRecord "GenerateMarkResultStateMachineExecution".
Proof.
  apply (task_safe anyRecord _ _ _ _ orchestrator_generateMark); [|exact I].
  intros d inp _ E. discriminate E.
Qed.

Lemma scriptsTransform_safe :
  SafeAt anyRecord "ScriptsTransformFormResultStateMachineExecution".
Proof.
  apply (task_safe anyRecord _ _ _ _ orchestrator_scriptsTransform); [|exact I].
  intros d inp _ E. discriminate E.
Qed.

Lemma answerTransform_safe :
  SafeAt anyRecord "AnswerTransformFormResultStateMachineExecution".
Proof.
  apply (task_safe anyRecord _ _ _ _ orchestrator_answerTransform); [|exact I].
  intros d inp _ E. discriminate E.
Qed.

Lemma scriptsTextract_safe :
  SafeAt anyRecord "ScriptsAmazonTextractMultiPagesDocumentsStateMachineExecution".
Proof.
  apply (task_safe anyRecord _ _ _ _ orchestrator_scriptsTextract);
    [|exact scriptsTransform_safe].
  intros d inp _ E. discriminate E.
Qed.

Lemma answerTextract_safe :
  SafeAt anyRecord "AnswerAmazonTextractMultiPagesDocumentsStateMachineExecution".
Proof.
  apply (task_safe anyRecord _ _ _ _ orchestrator_answerTextract);
    [|exact answerTransform_safe].
  intros d inp _ E. discriminate E.
Qed.

Lemma eval_Input d : eval_expr "$.Input" d ctx = jget [Field "Input"] d.
Proof. reflexivity. Qed.

Lemma scriptsCorrect_safe :
  SafeAt (fun d => jget [Field "Input"] d = Some (scriptsInput ks))
    "ScriptsCorrectPdfOrientationStateMachineExecution".
Proof.
  apply (task_safe _ _ _ _ _ orchestrator_scriptsCorrect);
    [|exact scriptsTextract_safe].
  intros d inp Hd _ E. rewrite eval_Input, Hd in E. inversion E. now right.
Qed.

Lemma answerCorrect_safe :
  SafeAt (fun d => jget [Field "Input"] d = Some (answerInput ka))
    "AnswerCorrectPdfOrientationStateMachineExecution".
Proof.
  apply (task_safe _ _ _ _ _ orchestrator_answerCorrect);
    [|exact answerTextract_safe].
  intros d inp Hd _ E. rewrite eval_Input, Hd in E. inversion E. now left.
Qed.

(** What the two input-preparation steps do to the record. *)
Lemma scriptsPass_run f fs t w :
  t < 10800 -> lookup_field "scriptsKey" fs = Some (JStr ks) ->
  srun (S f) "ScriptsPass" (JObj fs) t w =
  entered "ScriptsPass"
    (srun f "ScriptsCorrectPdfOrientationStateMachineExecution"
       (JObj (set_field "Input" (scriptsInput ks) fs)) t w).
Proof.
  intros Ht Hk. rewrite run_unfold, orchestrator_timed_out.
  destruct (Z.leb_spec 10800 t); [lia|]. rewrite orchestrator_scriptsPass.
  cbn. rewrite Hk. reflexivity.
Qed.

Lemma answerPass_run f fs t w :
  t < 10800 -> lookup_field "standardAnswerKey" fs = Some (JStr ka) ->
  srun (S f) "StandardAnswerPass" (JObj fs) t w =
  entered "StandardAnswerPass"
    (srun f "AnswerCorrectPdfOrientationStateMachineExecution"
       (JObj (set_field "Input" (answerInput ka) fs)) t w).
Proof.
  intros Ht Hk. rewrite run_unfold, orchestrator_timed_out.
  destruct (Z.leb_spec 10800 t); [lia|]. rewrite orchestrator_answerPass.
  cbn. rewrite Hk. reflexivity.
Qed.

Lemma scriptsPass_safe : SafeAt (keyed ks ka) "ScriptsPass".
Proof.
  intros f d t w [(fs & -> & Hk)%jget_field_inv _] Hw.
  destruct f as [|f]; [exact Hw|].
  destruct (Z.lt_ge_cases t 10800) as [Ht|Ht].
  - rewrite scriptsPass_run by assumption. cbn [entered res_world].
    apply scriptsCorrect_safe; [|exact Hw].
    cbn. now rewrite lookup_set_eq.
  - rewrite run_unfold, orchestrator_timed_out.
    destruct (Z.leb_spec 10800 t); [exact Hw|lia].
Qed.

Lemma answerPass_safe : SafeAt (keyed ks ka) "StandardAnswerPass".
Proof.
  intros f d t w [_ (fs & -> & Hk)%jget_field_inv] Hw.
  destruct f as [|f]; [exact Hw|].
  destruct (Z.lt_ge_cases t 10800) as [Ht|Ht].
  - rewrite answerPass_run by assumption. cbn [entered res_world].
    apply answerCorrect_safe; [|exact Hw].
    cbn. now rewrite lookup_set_eq.
  - rewrite run_unfold, orchestrator_timed_out.
    destruct (Z.leb_spec 10800 t); [exact Hw|lia].
Qed.

Lemma branches_safe recur branches input t0 :
  (forall b w, In b branches -> J w -> J (res_world (recur b input t0 w))) ->
  forall order outs tr tmax w,
    J w ->
    J (run_branches recur branches order input t0 outs tr tmax w).2.
Proof.
  intros Hb order. induction order as [|i order IH]; intros outs tr tmax w Hw.
  - exact Hw.
  - cbn [run_branches]. destruct (nth_error branches i) as [b|] eqn:Eb.
    + pose proof (Hb b w (nth_error_In _ _ Eb) Hw) as Hw'.
      destruct (res_outcome (recur b input t0 w)); try exact Hw'.
      now apply IH.
    + now apply IH.
Qed.

Lemma parallel_safe : SafeAt (keyed ks ka) "ProcessParallel".
Proof.
  intros f d t w Hd Hw.
  destruct f as [|f]; [exact Hw|].
  rewrite run_unfold, orchestrator_timed_out.
  destruct (10800 <=? t); [exact Hw|]. rewrite orchestrator_parallel.
  cbn [exec length replicate].
  pose proof (branches_safe (srun f) ["ScriptsPass"; "StandardAnswerPass"] d t) as Hb.
  specialize (Hb ltac:(intros b w' [<-|[<-|[]]] Hw';
                        [now apply scriptsPass_safe | now apply answerPass_safe])).
  specialize (Hb (completion_order 2 sched) [JNull; JNull] [] t w Hw).
  destruct (run_branches _ _ _ _ _ _ _ _ _) as [[[o tr] t'] w']. cbn [snd] in Hb.
  destruct o; try exact Hb.
  destruct (apply_result d output (Some fanIn) "$" "$" ctx); [|exact Hb].
  cbn [entered res_world]. apply continue_safe; [exact generateMark_safe | exact Hb].
Qed.

Lemma startPass_safe : SafeAt (keyed ks ka) "StartPass".
Proof.
  intros f d t w Hd Hw.
  destruct f as [|f]; [exact Hw|].
  rewrite run_unfold, orchestrator_timed_out.
  destruct (10800 <=? t); [exact Hw|]. rewrite orchestrator_start.
  cbn. now apply parallel_safe.
Qed.
End Keeping.

(** ** The orchestrator: what a successful execution has run *)

Section Progress.
Context {W : Type}.
Variable handler : string -> json -> W -> task_result * W.
Variables transformFormResult generateMarkResult : json -> outcome * Z.
Variable pdfDestinationBucket : string.
Variable executionName : nat -> string.
Variables (sched : list nat) (ctx : json).
Variables ks ka : string.

Hypothesis Hflag : forall ev w p w',
  handler pdfToImagesFunction ev w = (TOk p, w') ->
  is_present [Field "skipRotation"] p = is_present [Field "skipRotation"] ev.

Abbreviation sinvoke :=
  (StepFunctionsService.invoke handler transformFormResult generateMarkResult
     pdfDestinationBucket executionName).
Abbreviation srun := (run sinvoke sched assignmentsMachine ctx).

Lemma scripts_pipeline_success name w o :
  let r := runCorrectPdf handler name StepFunctionsService.correctPdfFuel
             (scriptsInput ks) w in
  res_outcome r = Succeeded o ->
  In analyzeDocumentImagesTask (res_trace r) /\
  In correctImageOrientationTask (res_trace r) /\
  In imagesToPdfTask (res_trace r).
Proof.
  intros r Hok.
  assert (Himg : In imagesToPdfTask (res_trace r))
    by (apply (success_recombines handler _ _ _ _ _ _ o Hok)).
  destruct (scripts_pipeline handler ks Hflag name w) as [Hc Hi].
  fold r in Hc, Hi.
  destruct (pipeline_run handler name StepFunctionsService.correctPdfFuel
              (scriptsInput ks) w
              ltac:(unfold StepFunctionsService.correctPdfFuel; lia))
    as [[_ Hf]|(p & w0 & w1 & Hh & Hp)].
  - fold r in Hf. rewrite Hok in Hf. contradiction.
  - rewrite (Hflag _ _ _ _ Hh) in Hp.
    change (is_present [Field "skipRotation"] (scriptsInput ks)) with false in Hp.
    cbv beta iota in Hp. destruct Hp as (rest & Htr & _). fold r in Htr.
    split; [|split; [apply Hi; exact Himg | exact Himg]].
    rewrite Htr. cbn. auto.
Qed.

Lemma answer_pipeline_success name w o :
  let r := runCorrectPdf handler name StepFunctionsService.correctPdfFuel
             (answerInput ka) w in
  res_outcome r = Succeeded o ->
  ~ In analyzeDocumentImagesTask (res_trace r) /\
  ~ In correctImageOrientationTask (res_trace r) /\
  In imagesToPdfTask (res_trace r).
Proof.
  intros r Hok.
  destruct (answer_pipeline handler ka Hflag name w) as [Ha Hc].
  split; [exact Ha|]. split; [exact Hc|].
  apply (success_recombines handler _ _ _ _ _ _ o Hok).
Qed.

Lemma sinvoke_pipeline inp w t :
  sinvoke (StartExecution Assignments.correctPdfOrientationStateMachine)
    (JObj [("Input", inp);
           ("StateMachineArn", JStr Assignments.correctPdfOrientationStateMachine)])
    w t =
  (let name := executionName (length (StepFunctionsService.executions w)) in
   let r := runCorrectPdf handler name StepFunctionsService.correctPdfFuel inp
              (StepFunctionsService.lambdas w) in
   (StepFunctionsService.report name inp (res_outcome r),
    StepFunctionsService.mkWorld (res_world r) (StepFunctionsService.textract w)
      (StepFunctionsService.executions w
       ++ [(Assignments.correctPdfOrientationStateMachine, inp, res_trace r)]),
    t + res_clock r)).
Proof. reflexivity. Qed.

Lemma apply_results fs v :
  apply_result (JObj fs) v None "$.results" "$.results" ctx = Some v.
Proof. cbn. now rewrite lookup_set_eq. Qed.

Lemma continue_extends f nxt d t w :
  extends w (res_world (continue (srun f) nxt d t w)).
Proof.
  destruct nxt as [n|]; cbn; [apply run_extends | apply extends_refl].
Qed.

(** A pipeline step of the orchestrator that lets the execution succeed
    has recorded a successful execution of the pipeline on [$.Input]. *)
Lemma pipeline_task_success T nxt f fs inp t w o :
  states assignmentsMachine !! T
  = Some (Task (startTask Assignments.correctPdfOrientationStateMachine "$.Input") nxt) ->
  lookup_field "Input" fs = Some inp ->
  res_outcome (srun (S f) T (JObj fs) t w) = Succeeded o ->
  exists name out,
    res_outcome (runCorrectPdf handler name StepFunctionsService.correctPdfFuel inp
                   (StepFunctionsService.lambdas w)) = Succeeded out /\
    In (Assignments.correctPdfOrientationStateMachine, inp,
        res_trace (runCorrectPdf handler name StepFunctionsService.correctPdfFuel inp
                     (StepFunctionsService.lambdas w)))
      (StepFunctionsService.executions (res_world (srun (S f) T (JObj fs) t w))).
Proof.
  intros HT Hin Hok.
  rewrite run_unfold in *. rewrite orchestrator_timed_out in *.
  destruct (10800 <=? t); [discriminate Hok|]. rewrite HT in *.
  cbn [entered res_outcome res_world] in *.
  cbn [exec startTask taskParameters taskRetry taskResource taskCatch
       taskResultSelector taskResultPath taskOutputPath eval_tmpl retry_budget
       fold_right map] in *.
  change (eval_expr "$.Input" (JObj fs) ctx) with (jget [Field "Input"] (JObj fs)) in *.
  cbn [jget jstep] in *. rewrite Hin in *. cbn [option_map] in *.
  rewrite with_retry_nil in *. rewrite sinvoke_pipeline in *. cbv zeta in *.
  set (name := executionName (length (StepFunctionsService.executions w))) in *.
  set (rp := runCorrectPdf handler name StepFunctionsService.correctPdfFuel inp
               (StepFunctionsService.lambdas w)) in *.
  destruct (res_outcome rp) as [out| | |] eqn:Erp;
    cbn [StepFunctionsService.report find_catcher find] in *;
    try discriminate Hok.
  rewrite apply_results in *.
  exists name, out. split; [exact Erp|].
  destruct (continue_extends f nxt
              (StepFunctionsService.describe name inp out) (t + res_clock rp)
              (StepFunctionsService.mkWorld (res_world rp)
                 (StepFunctionsService.textract w)
                 (StepFunctionsService.executions w
                  ++ [(Assignments.correctPdfOrientationStateMachine, inp,
                       res_trace rp)]))) as [l Hl].
  rewrite Hl. cbn [StepFunctionsService.executions].
  apply in_or_app. left. apply in_or_app. right. now left.
Qed.

Lemma scripts_branch_ran f d t w o :
  keyed ks ka d ->
  res_outcome (srun f "ScriptsPass" d t w) = Succeeded o ->
  ran_scripts ks (res_world (srun f "ScriptsPass" d t w)).
Proof.
  intros [(fs & -> & Hk)%jget_field_inv _] Hok.
  destruct f as [|f]; [discriminate Hok|].
  destruct (Z.lt_ge_cases t 10800) as [Ht|Ht].
  2:{ rewrite run_unfold, orchestrator_timed_out in Hok.
      destruct (Z.leb_spec 10800 t); [discriminate Hok | lia]. }
  rewrite (scriptsPass_run handler transformFormResult generateMarkResult
             pdfDestinationBucket executionName sched ctx ks) in * by assumption.
  cbn [entered res_outcome res_world] in *.
  destruct f as [|f]; [discriminate Hok|].
  destruct (pipeline_task_success _ _ _ _ (scriptsInput ks) _ _ _
              orchestrator_scriptsCorrect (lookup_set_eq _ _ _) Hok)
    as (name & out & Hout & Hin).
  eexists. split; [exact Hin|].
  apply (scripts_pipeline_success name _ out Hout).
Qed.

Lemma answer_branch_ran f d t w o :
  keyed ks ka d ->
  res_outcome (srun f "StandardAnswerPass" d t w) = Succeeded o ->
  ran_answer ka (res_world (srun f "StandardAnswerPass" d t w)).
Proof.
  intros [_ (fs & -> & Hk)%jget_field_inv] Hok.
  destruct f as [|f]; [discriminate Hok|].
  destruct (Z.lt_ge_cases t 10800) as [Ht|Ht].
  2:{ rewrite run_unfold, orchestrator_timed_out in Hok.
      destruct (Z.leb_spec 10800 t); [discriminate Hok | lia]. }
  rewrite (answerPass_run handler transformFormResult generateMarkResult
             pdfDestinationBucket executionName sched ctx ka) in * by assumption.
  cbn [entered res_outcome res_world] in *.
  destruct f as [|f]; [discriminate Hok|].
  destruct (pipeline_task_success _ _ _ _ (answerInput ka) _ _ _
              orchestrator_answerCorrect (lookup_set_eq _ _ _) Hok)
    as (name & out & Hout & Hin).
  eexists. split; [exact Hin|].
  apply (answer_pipeline_success name _ out Hout).
Qed.

Lemma parallel_ran f d t w o :
  keyed ks ka d ->
  res_outcome (srun f "ProcessParallel" d t w) = Succeeded o ->
  ran_scripts ks (res_world (srun f "ProcessParallel" d t w)) /\
  ran_answer ka (res_world (srun f "ProcessParallel" d t w)).
Proof.
  intros Hd Hok.
  destruct f as [|f]; [discriminate Hok|].
  rewrite run_unfold in *. rewrite orchestrator_timed_out in *.
  destruct (10800 <=? t); [discriminate Hok|]. rewrite orchestrator_parallel in *.
  cbn [entered res_outcome res_world exec length replicate] in *.
  destruct (completion_order_two sched) as [Ho|Ho]; rewrite Ho in *;
    cbn [run_branches nth_error] in *.
  - pose proof (scripts_branch_ran f d t w) as Hs.
    pose proof (run_extends handler transformFormResult generateMarkResult
                  pdfDestinationBucket executionName sched ctx f "ScriptsPass" d t w)
      as He0.
    destruct (res_outcome (srun f "ScriptsPass" d t w)) as [o0| | |];
      try discriminate Hok.
    specialize (Hs o0 Hd eq_refl). cbn [run_branches nth_error] in *.
    set (w0 := res_world (srun f "ScriptsPass" d t w)) in *.
    pose proof (answer_branch_ran f d t w0) as Ha.
    pose proof (run_extends handler transformFormResult generateMarkResult
                  pdfDestinationBucket executionName sched ctx f
                  "StandardAnswerPass" d t w0) as He1.
    destruct (res_outcome (srun f "StandardAnswerPass" d t w0)) as [o1| | |];
      try discriminate Hok.
    specialize (Ha o1 Hd eq_refl). cbn [run_branches] in *.
    set (w1 := res_world (srun f "StandardAnswerPass" d t w0)) in *.
    destruct (apply_result d _ (Some fanIn) "$" "$" ctx) as [out|];
      [|discriminate Hok].
    cbn [res_world res_outcome] in *.
    pose proof (continue_extends f (Some "GenerateMarkResultStateMachineExecution")
                  out (Z.max (Z.max t (res_clock (srun f "ScriptsPass" d t w)))
                         (res_clock (srun f "StandardAnswerPass" d t w0))) w1) as He2.
    split.
    + eapply ran_scripts_extends; [|exact Hs].
      eapply extends_trans; [exact He1 | exact He2].
    + eapply ran_answer_extends; [exact He2 | exact Ha].
  - pose proof (answer_branch_ran f d t w) as Ha.
    pose proof (run_extends handler transformFormResult generateMarkResult
                  pdfDestinationBucket executionName sched ctx f
                  "StandardAnswerPass" d t w) as He1.
    destruct (res_outcome (srun f "StandardAnswerPass" d t w)) as [o1| | |];
      try discriminate Hok.
    specialize (Ha o1 Hd eq_refl). cbn [run_branches nth_error] in *.
    set (w1 := res_world (srun f "StandardAnswerPass" d t w)) in *.
    pose proof (scripts_branch_ran f d t w1) as Hs.
    pose proof (run_extends handler transformFormResult generateMarkResult
                  pdfDestinationBucket executionName sched ctx f "ScriptsPass" d t w1)
      as He0.
    destruct (res_outcome (srun f "ScriptsPass" d t w1)) as [o0| | |];
      try discriminate Hok.
    specialize (Hs o0 Hd eq_refl). cbn [run_branches] in *.
    set (w0 := res_world (srun f "ScriptsPass" d t w1)) in *.
    destruct (apply_result d _ (Some fanIn) "$" "$" ctx) as [out|];
      [|discriminate Hok].
    cbn [res_world res_outcome] in *.
    pose proof (continue_extends f (Some "GenerateMarkResultStateMachineExecution")
                  out (Z.max (Z.max t (res_clock (srun f "StandardAnswerPass" d t w)))
                         (res_clock (srun f "ScriptsPass" d t w1))) w0) as He2.
    split.
    + eapply ran_scripts_extends; [exact He2 | exact Hs].
    + eapply ran_answer_extends; [|exact Ha].
      eapply extends_trans; [exact He0 | exact He2].
Qed.

Lemma execution_ran f d t w o :
  keyed ks ka d ->
  res_outcome (srun f "StartPass" d t w) = Succeeded o ->
  ran_scripts ks (res_world (srun f "StartPass" d t w)) /\
  ran_answer ka (res_world (srun f "StartPass" d t w)).
Proof.
  intros Hd Hok.
  destruct f as [|f]; [discriminate Hok|].
  rewrite run_unfold in *. rewrite orchestrator_timed_out in *.
  destruct (10800 <=? t); [discriminate Hok|]. rewrite orchestrator_start in *.
  cbn in Hok |- *. now apply (parallel_ran f d t w o).
Qed.
End Progress.

(** ** The pipeline and the orchestrator under observation *)

Lemma replicate_snoc {A} (x : A) n l : (l ++ [x]) ++ replicate n x = l ++ replicate (S n) x.
Proof. now rewrite <- app_assoc. Qed.

Section RecordedPipeline.
Context {W : Type}.
Variable h : string -> json -> W -> task_result * W.
Variable ctx : json.

Abbreviation rrun := (run (LambdaService.invoke (recording h)) [] correctPdfMachine ctx).

Lemma recorded_act fn ev l cs t :
  LambdaService.invoke (recording h) (LambdaInvoke fn) (lambda_request fn ev) (l, cs) t
  = (match (h fn ev l).1 with
     | TOk p => TOk (LambdaService.invoke_response p)
     | TErr e c => TErr e c
     end, ((h fn ev l).2, cs ++ [(fn, ev)]), t).
Proof.
  unfold LambdaService.invoke, instant, lambda_request, recording.
  cbn [jget jstep lookup_field String.eqb Ascii.eqb Bool.eqb fst snd].
  destruct (h fn ev l) as [[p|e c] l']; reflexivity.
Qed.

(** A step calls its function at least once, each time with its event. *)
Lemma recorded_retry fn ev budget : forall rs counts l cs t,
  exists n r l' t',
    with_retry budget rs counts
      (LambdaService.invoke (recording h) (LambdaInvoke fn) (lambda_request fn ev))
      (l, cs) t
    = (r, (l', cs ++ replicate (S n) (fn, ev)), t') /\
    forall v, r = TOk v ->
      exists p, v = LambdaService.invoke_response p /\ returns h fn ev p.
Proof.
  induction budget as [|b IH]; intros rs counts l cs t; cbn [with_retry];
    rewrite recorded_act; destruct (h fn ev l) as [[p|e c] l1] eqn:Eh; cbn [fst snd].
  - exists O. do 3 eexists. split; [reflexivity|].
    intros v [= <-]. exists p. split; [reflexivity|]. now exists l, l1.
  - exists O. do 3 eexists. split; [reflexivity|]. intros v [=].
  - exists O. do 3 eexists. split; [reflexivity|].
    intros v [= <-]. exists p. split; [reflexivity|]. now exists l, l1.
  - destruct (find_retrier rs counts e) as [[[i rt] a]|].
    2:{ exists O. do 3 eexists. split; [reflexivity|]. intros v [=]. }
    destruct (a <? maxAttempts rt)%nat.
    2:{ exists O. do 3 eexists. split; [reflexivity|]. intros v [=]. }
    destruct (IH rs (bump i counts) l1 (cs ++ [(fn, ev)])
                (t + intervalSeconds rt * backoffRate rt ^ Z.of_nat a))
      as (n & r & l' & t' & -> & Hr).
    exists (S n), r, l', t'. split; [|exact Hr].
    now rewrite replicate_snoc.
Qed.

(** A Lambda step of the recorded pipeline: its calls are recorded, and
    it ends the execution in failure or hands a payload of its function
    to the next state. *)
Lemma recorded_step T fn next f input t l cs :
  states correctPdfMachine !! T = Some (Task (lambdaTask fn) next) ->
  t < 10800 ->
  exists n t' l',
    (exists o, rrun (S f) T input t (l, cs)
               = mkResult o [T] t' (l', cs ++ replicate (S n) (fn, input))) \/
    (exists p, returns h fn input p /\
       rrun (S f) T input t (l, cs)
       = entered T (continue (rrun f) next p t'
                      (l', cs ++ replicate (S n) (fn, input)))).
Proof.
  intros HT Ht. rewrite run_unfold, pipeline_timed_out.
  destruct (Z.leb_spec 10800 t); [lia|]. rewrite HT, exec_lambda.
  unfold call_lambda.
  destruct (recorded_retry fn input 6 [lambdaServiceRetry] [O] l cs t)
    as (n & r & l' & t' & -> & Hr).
  exists n, t', l'. destruct r as [v|e c].
  - destruct (Hr v eq_refl) as (p & -> & Hp).
    destruct input; try (left; eexists; reflexivity).
    rewrite apply_payload. right. exists p. split; [exact Hp | reflexivity].
  - left. eexists. reflexivity.
Qed.

Lemma recorded_late f cur p t s :
  10800 <= t -> rrun (S f) cur p t s = mkResult TimedOut [] t s.
Proof. intros Ht. now apply late_run. Qed.

(** The last step. *)
Lemma recorded_images f p t l cs :
  t < 10800 ->
  exists n r,
    rrun (S f) imagesToPdfTask p t (l, cs) = r /\
    res_trace r = [imagesToPdfTask] /\
    (res_world r).2 = cs ++ replicate (S n) (imagesToPdfFunction, p).
Proof.
  intros Ht.
  destruct (recorded_step imagesToPdfTask imagesToPdfFunction None f p t l cs
              pipeline_images Ht) as (n & t' & l' & [[o ->]|(q & _ & ->)]);
    exists n; eexists; (split; [reflexivity|]); split; reflexivity.
Qed.

(** Every execution of the recorded pipeline: the states it goes through
    and the calls it records. *)
Lemma recorded_pipeline f inp l cs :
  let r := rrun (6 + f) pdfToImagesTask inp 0 (l, cs) in
  exists seg, (res_world r).2 = cs ++ seg /\ pipeline_calls h inp (res_trace r) seg.
Proof.
  cbv zeta. change (6 + f)%nat with (S (S (S (S (S (S f)))))).
  destruct (recorded_step pdfToImagesTask pdfToImagesFunction
              (Some "Skip Rotation Choice") (S (S (S (S (S f))))) inp 0 l cs
              pipeline_split ltac:(lia))
    as (n & t1 & l1 & [[o ->]|(p & Hp & ->)]).
  { eexists. split; [reflexivity | apply calls_split]. }
  cbn [continue].
  destruct (Z.lt_ge_cases t1 10800) as [Ht1|Ht1].
  2:{ rewrite recorded_late by lia. eexists. split; [reflexivity | apply calls_split]. }
  rewrite choice_run by lia.
  destruct (is_present [Field "skipRotation"] p) eqn:Ep.
  - rewrite skip_run by lia.
    destruct (recorded_images (S (S f)) p t1 l1
                (cs ++ replicate (S n) (pdfToImagesFunction, inp)) Ht1)
      as (m & r & -> & Htr & Hw).
    cbn [entered res_trace res_world]. rewrite Htr, Hw, <- app_assoc.
    eexists. split; [reflexivity|]. now apply calls_skip.
  - destruct (recorded_step analyzeDocumentImagesTask analyzeDocumentImagesFunction
                (Some correctImageOrientationTask) (S (S (S f))) p t1 l1
                (cs ++ replicate (S n) (pdfToImagesFunction, inp))
                pipeline_analyze Ht1)
      as (m & t2 & l2 & [[o ->]|(p2 & Hp2 & ->)]).
    { cbn [entered res_trace res_world snd]. rewrite <- app_assoc.
      eexists. split; [reflexivity|]. now apply calls_detect. }
    cbn [continue].
    destruct (Z.lt_ge_cases t2 10800) as [Ht2|Ht2].
    2:{ rewrite recorded_late by lia. cbn [entered res_trace res_world snd].
        rewrite <- app_assoc. eexists. split; [reflexivity|]. now apply calls_detect. }
    destruct (recorded_step correctImageOrientationTask correctImageOrientationFunction
                (Some "Wait 5 seconds") (S (S f)) p2 t2 l2
                ((cs ++ replicate (S n) (pdfToImagesFunction, inp))
                 ++ replicate (S m) (analyzeDocumentImagesFunction, p))
                pipeline_correct Ht2)
      as (k & t3 & l3 & [[o ->]|(p3 & Hp3 & ->)]).
    { cbn [entered res_trace res_world snd]. rewrite <- !app_assoc.
      eexists. split; [reflexivity|]. apply calls_correct; auto. }
    cbn [continue].
    destruct (Z.lt_ge_cases t3 10800) as [Ht3|Ht3].
    2:{ rewrite recorded_late by lia. cbn [entered res_trace res_world snd].
        rewrite <- !app_assoc. eexists. split; [reflexivity|].
        apply calls_correct; auto. }
    rewrite wait5_run by lia.
    destruct (Z.lt_ge_cases (t3 + 5) 10800) as [Ht4|Ht4].
    2:{ rewrite recorded_late by lia. cbn [entered res_trace res_world snd].
        rewrite <- !app_assoc. eexists. split; [reflexivity|].
        apply calls_correct; auto. }
    destruct (recorded_images f p3 (t3 + 5) l3
                (((cs ++ replicate (S n) (pdfToImagesFunction, inp))
                  ++ replicate (S m) (analyzeDocumentImagesFunction, p))
                 ++ replicate (S k) (correctImageOrientationFunction, p2)) Ht4)
      as (j & r & -> & Htr & Hw).
    cbn [entered res_trace res_world]. rewrite Htr, Hw, <- !app_assoc.
    eexists. split; [reflexivity|]. now apply calls_recombine.
Qed.
End RecordedPipeline.

Lemma in_replicate {A} (x : A) n : In x (replicate (S n) x).
Proof. now left. Qed.

Lemma forall_replicate {A} (P : A -> Prop) x n : P x -> Forall P (replicate n x).
Proof. intros H. induction n; cbn; constructor; auto. Qed.

Lemma invoked_more {W} (h : string -> json -> W -> task_result * W) cs cs' inp tr :
  invoked h cs inp tr -> invoked h (cs ++ cs') inp tr.
Proof.
  intros (H1 & H2 & H3 & H4).
  assert (Hin : forall c, In c cs -> In c (cs ++ cs'))
    by (intros c Hc; apply in_or_app; now left).
  split; [now apply Hin|]. split; [|split].
  - intros Ha. destruct (H2 Ha) as (p & Hp & Hf & Hc). exists p. auto.
  - intros Ha. destruct (H3 Ha) as (p & p2 & Hp & Hf & Hp2 & Hc & Hc2).
    exists p, p2. auto 10.
  - intros Ha.
    destruct (H4 Ha) as (p3 & Hc3 & [Hs|(p & p2 & Hp & Hf & Hp2 & Hp3 & Hc & Hc2)]).
    + exists p3. split; [now apply Hin | now left].
    + exists p3. split; [now apply Hin|]. right. exists p, p2. auto 10.
Qed.

Ltac in_trace H :=
  cbn in H; repeat (destruct H as [H|H]; [try discriminate H|]); try contradiction.

(** The calls of one execution are those of its states. *)
Lemma pipeline_calls_invoked {W} (h : string -> json -> W -> task_result * W)
    cs inp tr seg :
  pipeline_calls h inp tr seg -> invoked h (cs ++ seg) inp tr.
Proof.
  assert (Hin : forall c, In c seg -> In c (cs ++ seg))
    by (intros c Hc; apply in_or_app; now right).
  intros Hc. destruct Hc as [n|n m p Hp Hf|n m p Hp Hf|n m k p p2 tl Hp Hf Hp2 Htl
                             |n m k j p p2 p3 Hp Hf Hp2 Hp3].
  - split; [apply Hin, in_replicate|].
    split; [|split]; intros H; in_trace H.
  - split; [apply Hin, in_or_app; left; apply in_replicate|].
    split; [|split]; intros H; in_trace H.
    exists p. split; [|now left].
    apply Hin, in_or_app. right. apply in_replicate.
  - split; [apply Hin, in_or_app; left; apply in_replicate|].
    split; [|split]; intros H; in_trace H.
    exists p. repeat split; auto.
    apply Hin, in_or_app. right. apply in_replicate.
  - assert (Ha : In (analyzeDocumentImagesFunction, p)
                   (cs ++ replicate (S n) (pdfToImagesFunction, inp)
                       ++ replicate (S m) (analyzeDocumentImagesFunction, p)
                       ++ replicate (S k) (correctImageOrientationFunction, p2))).
    { apply Hin, in_or_app. right. apply in_or_app. left. apply in_replicate. }
    assert (Hc : In (correctImageOrientationFunction, p2)
                   (cs ++ replicate (S n) (pdfToImagesFunction, inp)
                       ++ replicate (S m) (analyzeDocumentImagesFunction, p)
                       ++ replicate (S k) (correctImageOrientationFunction, p2))).
    { apply Hin, in_or_app. right. apply in_or_app. right. apply in_replicate. }
    split; [apply Hin, in_or_app; left; apply in_replicate|].
    split; [|split].
    + intros _. exists p. auto.
    + intros _. exists p, p2. auto 10.
    + intros H. destruct Htl as [->| ->]; in_trace H.
  - assert (Ha : In (analyzeDocumentImagesFunction, p)
                   (cs ++ replicate (S n) (pdfToImagesFunction, inp)
                       ++ replicate (S m) (analyzeDocumentImagesFunction, p)
                       ++ replicate (S k) (correctImageOrientationFunction, p2)
                       ++ replicate (S j) (imagesToPdfFunction, p3))).
    { apply Hin, in_or_app. right. apply in_or_app. left. apply in_replicate. }
    assert (Hc : In (correctImageOrientationFunction, p2)
                   (cs ++ replicate (S n) (pdfToImagesFunction, inp)
                       ++ replicate (S m) (analyzeDocumentImagesFunction, p)
                       ++ replicate (S k) (correctImageOrientationFunction, p2)
                       ++ replicate (S j) (imagesToPdfFunction, p3))).
    { apply Hin, in_or_app. right. apply in_or_app. right. apply in_or_app. left.
      apply in_replicate. }
    split; [apply Hin, in_or_app; left; apply in_replicate|].
    split; [|split].
    + intros _. exists p. auto.
    + intros _. exists p, p2. auto 10.
    + intros _. exists p3. split.
      * apply Hin, in_or_app. right. apply in_or_app. right. apply in_or_app. right.
        apply in_replicate.
      * right. exists p, p2. auto 10.
Qed.

Section Observed.
Context {W : Type}.
Variable h : string -> json -> W -> task_result * W.
Variables transformFormResult generateMarkResult : json -> outcome * Z.
Variable pdfDestinationBucket : string.
Variable executionName : nat -> string.
Variables ks ka : string.

(** The page-split function returns the [skipRotation] field of its
    event, if any, in its payload. *)
Hypothesis Hflag : forall ev w p w',
  h pdfToImagesFunction ev w = (TOk p, w') ->
  is_present [Field "skipRotation"] p = is_present [Field "skipRotation"] ev.

Lemma recording_flag ev s p s' :
  recording h pdfToImagesFunction ev s = (TOk p, s') ->
  is_present [Field "skipRotation"] p = is_present [Field "skipRotation"] ev.
Proof.
  unfold recording. destruct (h pdfToImagesFunction ev s.1) as [r w'] eqn:E.
  intros [= -> _]. exact (Hflag _ _ _ _ E).
Qed.

Lemma returns_flag ev p :
  returns h pdfToImagesFunction ev p ->
  is_present [Field "skipRotation"] p = is_present [Field "skipRotation"] ev.
Proof. intros (w & w' & E). exact (Hflag _ _ _ _ E). Qed.

Lemma call_ok_split inp :
  expectedInput ks ka inp -> call_ok h ks ka (pdfToImagesFunction, inp).
Proof.
  intros Hin. split; [intros _; exact Hin|].
  split; intros E; discriminate E.
Qed.

Lemma call_ok_images p : call_ok h ks ka (imagesToPdfFunction, p).
Proof. split; [|split]; intros E; discriminate E. Qed.

Lemma call_ok_analyze p :
  returns h pdfToImagesFunction (scriptsInput ks) p ->
  is_present [Field "skipRotation"] p = false ->
  call_ok h ks ka (analyzeDocumentImagesFunction, p).
Proof.
  intros Hp Hf. split; [intros E; discriminate E|].
  split; [intros _; now split | intros E; discriminate E].
Qed.

Lemma call_ok_correct p p2 :
  returns h pdfToImagesFunction (scriptsInput ks) p ->
  returns h analyzeDocumentImagesFunction p p2 ->
  call_ok h ks ka (correctImageOrientationFunction, p2).
Proof.
  intros Hp Hp2. split; [intros E; discriminate E|].
  split; [intros E; discriminate E|]. intros _. now exists p.
Qed.

(** The calls of an execution on one of the two prepared inputs are
    accounted for: on the standard answer's, the page split and the
    recombination only. *)
Lemma pipeline_calls_ok inp tr seg :
  expectedInput ks ka inp -> pipeline_calls h inp tr seg ->
  Forall (call_ok h ks ka) seg.
Proof.
  intros Hin Hc.
  assert (Hans : forall p, inp = answerInput ka ->
                   returns h pdfToImagesFunction inp p ->
                   is_present [Field "skipRotation"] p = false -> False).
  { intros p -> Hp Hf. rewrite (returns_flag _ _ Hp) in Hf. discriminate Hf. }
  destruct Hc as [n|n m p Hp Hf|n m p Hp Hf|n m k p p2 tl Hp Hf Hp2 Htl
                  |n m k j p p2 p3 Hp Hf Hp2 Hp3].
  - apply forall_replicate. now apply call_ok_split.
  - apply Forall_app. split; apply forall_replicate;
      [now apply call_ok_split | apply call_ok_images].
  - destruct Hin as [Hi|Hi]; [destruct (Hans p Hi Hp Hf)|]. subst inp.
    apply Forall_app. split; apply forall_replicate;
      [apply call_ok_split; now right | now apply call_ok_analyze].
  - destruct Hin as [Hi|Hi]; [destruct (Hans p Hi Hp Hf)|]. subst inp.
    apply Forall_app. split; [apply forall_replicate, call_ok_split; now right|].
    apply Forall_app. split; apply forall_replicate;
      [now apply call_ok_analyze | now apply (call_ok_correct p)].
  - destruct Hin as [Hi|Hi]; [destruct (Hans p Hi Hp Hf)|]. subst inp.
    apply Forall_app. split; [apply forall_replicate, call_ok_split; now right|].
    apply Forall_app. split; [now apply forall_replicate, call_ok_analyze|].
    apply Forall_app. split; apply forall_replicate;
      [now apply (call_ok_correct p) | apply call_ok_images].
Qed.

(** Starting a machine keeps what holds of an observed world. *)
Lemma observed_start sm inp w t :
  observed h ks ka w ->
  (sm = Assignments.correctPdfOrientationStateMachine -> expectedInput ks ka inp) ->
  observed h ks ka
    (StepFunctionsService.startExecution (recording h) transformFormResult
       generateMarkResult pdfDestinationBucket executionName sm inp w t).1.2.
Proof.
  intros (Hlog & Hcalls & Hlink) Hin.
  split.
  { apply (start_inv (recording h) transformFormResult generateMarkResult
             pdfDestinationBucket executionName ks ka recording_flag sm inp w t
             Hlog Hin). }
  unfold StepFunctionsService.startExecution.
  destruct (String.eqb_spec sm Assignments.correctPdfOrientationStateMachine)
    as [->|Hne].
  { cbn [fst snd]. unfold calls.
    cbn [StepFunctionsService.lambdas StepFunctionsService.executions].
    unfold runCorrectPdf, execute. rewrite pipeline_startAt.
    change StepFunctionsService.correctPdfFuel with (6 + 0)%nat.
    destruct (StepFunctionsService.lambdas w) as [l cs] eqn:El.
    destruct (recorded_pipeline h
                (context (executionName (length (StepFunctionsService.executions w))) inp)
                0 inp l cs) as (seg & Hw & Hseg).
    rewrite Hw. unfold calls in Hcalls, Hlink. rewrite El in Hcalls, Hlink.
    cbn [snd] in Hcalls, Hlink. split.
    - apply Forall_app. split; [exact Hcalls|].
      apply (pipeline_calls_ok inp _ seg (Hin eq_refl) Hseg).
    - apply Forall_app. split.
      + eapply Forall_impl; [exact Hlink|]. cbn beta. intros e He E.
        apply invoked_more. now apply He.
      + constructor; [|constructor]. intros _. cbn [fst snd].
        now apply pipeline_calls_invoked. }
  assert (Hother : forall tr,
             Forall (fun e => e.1.1 = Assignments.correctPdfOrientationStateMachine ->
                              invoked h (calls w) e.1.2 e.2)
               (StepFunctionsService.executions w ++ [(sm, inp, tr)])).
  { intros tr. apply Forall_app. split; [exact Hlink|].
    constructor; [|constructor]. intros E. contradiction. }
  destruct (String.eqb sm Assignments.amazonTextractMultiPagesDocumentsStateMachine).
  { split; [exact Hcalls | apply Hother]. }
  destruct (String.eqb sm Assignments.transformFormResultStateMachine).
  { split; [exact Hcalls | apply Hother]. }
  destruct (String.eqb sm Assignments.generateMarkResultStateMachine).
  { split; [exact Hcalls | apply Hother]. }
  split; [exact Hcalls | exact Hlink].
Qed.
End Observed.

(** ** Recording changes nothing *)

Section Simulation.
Context {W1 W2 : Type}.
Variable R : W1 -> W2 -> Prop.
Variable invoke1 : resource -> json -> W1 -> Z -> task_result * W1 * Z.
Variable invoke2 : resource -> json -> W2 -> Z -> task_result * W2 * Z.
Variables (sched : list nat) (m : machine) (ctx : json).

(** The services answer alike in related worlds. *)
Hypothesis Hinvoke : forall rs req w1 w2 t,
  R w1 w2 ->
  (invoke1 rs req w1 t).1.1 = (invoke2 rs req w2 t).1.1 /\
  (invoke1 rs req w1 t).2 = (invoke2 rs req w2 t).2 /\
  R (invoke1 rs req w1 t).1.2 (invoke2 rs req w2 t).1.2.

Lemma with_retry_alike budget : forall rs counts res req w1 w2 t,
  R w1 w2 ->
  (with_retry budget rs counts (invoke1 res req) w1 t).1.1
  = (with_retry budget rs counts (invoke2 res req) w2 t).1.1 /\
  (with_retry budget rs counts (invoke1 res req) w1 t).2
  = (with_retry budget rs counts (invoke2 res req) w2 t).2 /\
  R (with_retry budget rs counts (invoke1 res req) w1 t).1.2
    (with_retry budget rs counts (invoke2 res req) w2 t).1.2.
Proof.
  induction budget as [|b IH]; intros rs counts res req w1 w2 t Hw; cbn [with_retry];
    destruct (Hinvoke res req w1 w2 t Hw) as (Ha & Ht & Hr);
    destruct (invoke1 res req w1 t) as [[a1 w1'] t1];
    destruct (invoke2 res req w2 t) as [[a2 w2'] t2];
    cbn [fst snd] in Ha, Ht, Hr; subst a2 t2;
    destruct a1 as [v|e c]; cbn [fst snd]; auto.
  destruct (find_retrier rs counts e) as [[[i rt] n]|]; cbn [fst snd]; auto.
  destruct (n <? maxAttempts rt)%nat; cbn [fst snd]; auto.
Qed.

Lemma branches_alike
    (recur1 : string -> json -> Z -> W1 -> result)
    (recur2 : string -> json -> Z -> W2 -> result) branches input t0 :
  (forall b w1 w2, R w1 w2 -> alike R (recur1 b input t0 w1) (recur2 b input t0 w2)) ->
  forall order outs tr tmax w1 w2,
    R w1 w2 ->
    (run_branches recur1 branches order input t0 outs tr tmax w1).1
    = (run_branches recur2 branches order input t0 outs tr tmax w2).1 /\
    R (run_branches recur1 branches order input t0 outs tr tmax w1).2
      (run_branches recur2 branches order input t0 outs tr tmax w2).2.
Proof.
  intros Hb order. induction order as [|i order IH]; intros outs tr tmax w1 w2 Hw;
    cbn [run_branches].
  - now split.
  - destruct (nth_error branches i) as [b|]; [|now apply IH].
    destruct (Hb b w1 w2 Hw) as (Ho & Htr & Hc & Hr).
    rewrite Ho, Htr, Hc.
    destruct (res_outcome (recur2 b input t0 w2)); cbn [fst snd]; auto.
Qed.

Lemma run_alike f : forall cur d t w1 w2,
  R w1 w2 ->
  alike R (run invoke1 sched m ctx f cur d t w1) (run invoke2 sched m ctx f cur d t w2).
Proof.
  induction f as [|f IH]; intros cur d t w1 w2 Hw; [now repeat split|].
  rewrite !run_unfold.
  destruct (timed_out m t); [now repeat split|].
  destruct (states m !! cur) as [st|]; [|now repeat split].
  assert (Hent : forall n (r1 : @result W1) (r2 : @result W2),
             alike R r1 r2 -> alike R (entered n r1) (entered n r2)).
  { intros n r1 r2 (Ho & Htr & Hc & Hr). repeat split; cbn; auto. now rewrite Htr. }
  apply Hent.
  assert (Hcont : forall nxt out t' w1' w2',
             R w1' w2' ->
             alike R (continue (run invoke1 sched m ctx f) nxt out t' w1')
                     (continue (run invoke2 sched m ctx f) nxt out t' w2')).
  { intros [n|] out t' w1' w2' Hw'; cbn; [now apply IH | now repeat split]. }
  destruct st as [spec nxt|params rp nxt|secs nxt|rules dflt|e c|branches sel nxt];
    cbn [exec].
  - destruct (match taskParameters spec with Some p => eval_tmpl p d ctx | None => Some d end)
      as [req|]; [|now repeat split].
    destruct (with_retry_alike (retry_budget (taskRetry spec)) (taskRetry spec)
                (map (fun _ => O) (taskRetry spec)) (taskResource spec) req w1 w2 t Hw)
      as (Ha & Ht & Hr).
    destruct (with_retry _ _ _ (invoke1 _ _) w1 t) as [[a1 w1'] t1].
    destruct (with_retry _ _ _ (invoke2 _ _) w2 t) as [[a2 w2'] t2].
    cbn [fst snd] in Ha, Ht, Hr. subst a2 t2.
    destruct a1 as [v|e c].
    + destruct (apply_result _ _ _ _ _ _); [now apply Hcont | now repeat split].
    + destruct (find_catcher _ _) as [hd|]; [|now repeat split].
      destruct (apply_result _ _ _ _ _ _); [now apply IH | now repeat split].
  - destruct (match params with Some p => eval_tmpl p d ctx | None => Some d end);
      [|now repeat split].
    destruct (apply_result _ _ _ _ _ _); [now apply Hcont | now repeat split].
  - now apply Hcont.
  - destruct (choose rules d ctx) as [[target|]|]; [now apply IH| |now repeat split].
    destruct dflt; [now apply IH | now repeat split].
  - now repeat split.
  - destruct (branches_alike (run invoke1 sched m ctx f) (run invoke2 sched m ctx f)
                branches d t (fun b w1' w2' Hw' => IH b d t w1' w2' Hw')
                (completion_order (length branches) sched)
                (replicate (length branches) JNull) [] t w1 w2 Hw) as (He & Hr).
    destruct (run_branches _ _ _ _ _ _ _ _ w1) as [[[o1 tr1] t1] w1'].
    destruct (run_branches _ _ _ _ _ _ _ _ w2) as [[[o2 tr2] t2] w2'].
    cbn [fst snd] in He, Hr. injection He as -> -> ->.
    destruct o2; try (now repeat split).
    destruct (apply_result _ _ _ _ _ _); [|now repeat split].
    destruct (Hcont nxt j t2 w1' w2' Hr) as (Ho & Htr & Hc & Hr').
    repeat split; cbn; auto. now rewrite Htr.
Qed.
End Simulation.

Section Transparent.
Context {W : Type}.
Variable h : string -> json -> W -> task_result * W.
Variables transformFormResult generateMarkResult : json -> outcome * Z.
Variable pdfDestinationBucket : string.
Variable executionName : nat -> string.

Lemma lambda_unrecorded rs req s l t :
  unrecorded s l ->
  (LambdaService.invoke (recording h) rs req s t).1.1
  = (LambdaService.invoke h rs req l t).1.1 /\
  (LambdaService.invoke (recording h) rs req s t).2
  = (LambdaService.invoke h rs req l t).2 /\
  unrecorded (LambdaService.invoke (recording h) rs req s t).1.2
    (LambdaService.invoke h rs req l t).1.2.
Proof.
  unfold unrecorded. intros <-.
  unfold LambdaService.invoke, instant, recording.
  destruct rs as [fn|service action|sm]; try now repeat split.
  destruct (jget [Field "Payload"] req) as [ev|]; [|now repeat split].
  destruct (h fn ev s.1) as [[p|e c] l']; now repeat split.
Qed.

(** Recording the calls changes nothing in an execution of the pipeline. *)
Lemma pipeline_unrecorded name fuel inp s l :
  unrecorded s l ->
  alike unrecorded (runCorrectPdf (recording h) name fuel inp s)
    (runCorrectPdf h name fuel inp l).
Proof.
  intros Hs. unfold runCorrectPdf, execute.
  now apply (run_alike unrecorded _ _ [] correctPdfMachine (context name inp)
               lambda_unrecorded).
Qed.

Lemma start_unobserved rs req w1 w2 t :
  unobserved w1 w2 ->
  (StepFunctionsService.invoke (recording h) transformFormResult generateMarkResult
     pdfDestinationBucket executionName rs req w1 t).1.1
  = (StepFunctionsService.invoke h transformFormResult generateMarkResult
       pdfDestinationBucket executionName rs req w2 t).1.1 /\
  (StepFunctionsService.invoke (recording h) transformFormResult generateMarkResult
     pdfDestinationBucket executionName rs req w1 t).2
  = (StepFunctionsService.invoke h transformFormResult generateMarkResult
       pdfDestinationBucket executionName rs req w2 t).2 /\
  unobserved
    (StepFunctionsService.invoke (recording h) transformFormResult generateMarkResult
       pdfDestinationBucket executionName rs req w1 t).1.2
    (StepFunctionsService.invoke h transformFormResult generateMarkResult
       pdfDestinationBucket executionName rs req w2 t).1.2.
Proof.
  intros (Hl & Ht & He). unfold StepFunctionsService.invoke.
  destruct rs as [fn|service action|sm]; try (now repeat split).
  destruct (jget [Field "Input"] req) as [inp|]; [|now repeat split].
  unfold StepFunctionsService.startExecution. rewrite Ht, He.
  destruct (String.eqb sm Assignments.correctPdfOrientationStateMachine).
  { destruct (pipeline_unrecorded
                (executionName (length (StepFunctionsService.executions w2)))
                StepFunctionsService.correctPdfFuel inp _ _ Hl) as (Ho & Htr & Hc & Hr).
    cbn [fst snd]. rewrite Ho, Htr, Hc. now repeat split. }
  destruct (String.eqb sm Assignments.amazonTextractMultiPagesDocumentsStateMachine);
    [now repeat split|].
  destruct (String.eqb sm Assignments.transformFormResultStateMachine);
    [now repeat split|].
  destruct (String.eqb sm Assignments.generateMarkResultStateMachine);
    now repeat split.
Qed.

(** Recording the calls changes nothing in an execution of the
    orchestrator. *)
Lemma orchestrator_unobserved sched name fuel input w1 w2 :
  unobserved w1 w2 ->
  alike unobserved
    (runAssignments (recording h) transformFormResult generateMarkResult
       pdfDestinationBucket executionName sched name fuel input w1)
    (runAssignments h transformFormResult generateMarkResult
       pdfDestinationBucket executionName sched name fuel input w2).
Proof.
  intros Hw. unfold runAssignments, execute.
  now apply (run_alike unobserved _ _ sched assignmentsMachine (context name input)
               start_unobserved).
Qed.
End Transparent.

(** ** The orchestrator and the pipeline: the claims *)

(** C9 (as the code has it).  The standard-answer branch prepares its
    input with [skipRotation: true] and the scripts branch with the key
    alone, and the pipeline is started on these two inputs only.  The
    choice of the pipeline reads the flag in what the page-split function
    returns.  When that function returns the [skipRotation] field of its
    event in its payload, and the calls of the functions are recorded
    (which changes nothing in the execution):
    the detection is called only on pages the page split returned for the
    scripts, the correction only on what the detection returned for them,
    and neither is called on the pages of the standard answer; in an
    execution of the pipeline on the scripts the detection is called
    whenever the page split has delivered, and the correction whenever the
    detection has; and an orchestrator execution that succeeds has called,
    for the scripts, the page split, the detection, the correction and the
    recombination, each on what the one before it returned, and for the
    standard answer the page split and the recombination. *)
Theorem standard_answer_skips_rotation {W}
    (h : string -> json -> W -> task_result * W)
    (transformFormResult generateMarkResult : json -> outcome * Z)
    pdfDestinationBucket executionName sched name fuel input ks ka
    (l : W) (tx : TextractService.world) :
  (forall ev w p w',
     h pdfToImagesFunction ev w = (TOk p, w') ->
     is_present [Field "skipRotation"] p = is_present [Field "skipRotation"] ev) ->
  jget [Field "scriptsKey"] input = Some (JStr ks) ->
  jget [Field "standardAnswerKey"] input = Some (JStr ka) ->
  let r := runAssignments (recording h) transformFormResult generateMarkResult
             pdfDestinationBucket executionName sched name fuel input
             (StepFunctionsService.mkWorld (l, []) tx []) in
  let started := StepFunctionsService.executions (res_world r) in
  let made := calls (res_world r) in
  alike unobserved r
    (runAssignments h transformFormResult generateMarkResult pdfDestinationBucket
       executionName sched name fuel input (StepFunctionsService.mkWorld l tx [])) /\
  states assignmentsMachine !! "StandardAnswerPass"
  = Some (Pass (Some (Obj [("key", PathAt "$.standardAnswerKey");
                           ("skipRotation", Lit (JBool true))]))
            "$.Input" (Some "AnswerCorrectPdfOrientationStateMachineExecution")) /\
  states assignmentsMachine !! "ScriptsPass"
  = Some (Pass (Some (Obj [("key", PathAt "$.scriptsKey")])) "$.Input"
            (Some "ScriptsCorrectPdfOrientationStateMachineExecution")) /\
  (forall sm inp tr,
     In (sm, inp, tr) started ->
     sm = Assignments.correctPdfOrientationStateMachine ->
     (inp = JObj [("key", JStr ka); ("skipRotation", JBool true)] /\
      ~ In analyzeDocumentImagesTask tr /\ ~ In correctImageOrientationTask tr) \/
     (inp = JObj [("key", JStr ks)] /\
      (In "Skip Rotation Choice" tr -> In analyzeDocumentImagesTask tr) /\
      (In imagesToPdfTask tr -> In correctImageOrientationTask tr))) /\
  (forall inp tr,
     In (Assignments.correctPdfOrientationStateMachine, inp, tr) started ->
     invoked h made inp tr) /\
  (forall fn ev,
     In (fn, ev) made ->
     (fn = pdfToImagesFunction ->
      ev = JObj [("key", JStr ka); ("skipRotation", JBool true)] \/
      ev = JObj [("key", JStr ks)]) /\
     (fn = analyzeDocumentImagesFunction ->
      returns h pdfToImagesFunction (JObj [("key", JStr ks)]) ev /\
      is_present [Field "skipRotation"] ev = false) /\
     (fn = correctImageOrientationFunction ->
      exists p, returns h pdfToImagesFunction (JObj [("key", JStr ks)]) p /\
                returns h analyzeDocumentImagesFunction p ev)) /\
  (forall q,
     returns h pdfToImagesFunction
       (JObj [("key", JStr ka); ("skipRotation", JBool true)]) q ->
     ~ In (analyzeDocumentImagesFunction, q) made) /\
  (forall out,
     res_outcome r = Succeeded out ->
     ran_scripts ks (res_world r) /\ ran_answer ka (res_world r) /\
     (exists p p2 p3,
        returns h pdfToImagesFunction (JObj [("key", JStr ks)]) p /\
        returns h analyzeDocumentImagesFunction p p2 /\
        returns h correctImageOrientationFunction p2 p3 /\
        In (pdfToImagesFunction, JObj [("key", JStr ks)]) made /\
        In (analyzeDocumentImagesFunction, p) made /\
        In (correctImageOrientationFunction, p2) made /\
        In (imagesToPdfFunction, p3) made) /\
     (exists q,
        returns h pdfToImagesFunction
          (JObj [("key", JStr ka); ("skipRotation", JBool true)]) q /\
        In (pdfToImagesFunction,
            JObj [("key", JStr ka); ("skipRotation", JBool true)]) made /\
        In (imagesToPdfFunction, q) made)).
Proof.
  intros Hflag Hs Ha r started made.
  split; [now apply orchestrator_unobserved|].
  split; [apply orchestrator_answerPass|].
  split; [apply orchestrator_scriptsPass|].
  assert (Hobs : observed h ks ka (res_world r)).
  { subst r. unfold runAssignments, execute. rewrite orchestrator_startAt.
    apply (startPass_safe (recording h) transformFormResult generateMarkResult
             pdfDestinationBucket executionName sched (context name input) ks ka
             (observed h ks ka)
             (observed_start h transformFormResult generateMarkResult
                pdfDestinationBucket executionName ks ka Hflag)).
    - split; assumption.
    - split; [constructor|]. split; constructor. }
  destruct Hobs as (Hlog & Hcalls & Hlink).
  fold made in Hcalls, Hlink. fold started in Hlink.
  unfold logInv in Hlog. fold started in Hlog.
  rewrite List.Forall_forall in Hlog, Hcalls, Hlink.
  assert (Hany : forall inp tr,
             In (Assignments.correctPdfOrientationStateMachine, inp, tr) started ->
             invoked h made inp tr).
  { intros inp tr Hin. exact (Hlink _ Hin eq_refl). }
  assert (Hnever : forall q,
             returns h pdfToImagesFunction (answerInput ka) q ->
             ~ In (analyzeDocumentImagesFunction, q) made).
  { intros q Hq Hin. destruct (Hcalls _ Hin) as (_ & Hc & _).
    destruct (Hc eq_refl) as [_ Hf]. cbn [snd] in Hf.
    rewrite (returns_flag h Hflag _ _ Hq) in Hf. discriminate Hf. }
  split; [intros sm inp tr Hin Hsm; exact (Hlog (sm, inp, tr) Hin Hsm)|].
  split; [exact Hany|].
  split; [intros fn ev Hin; exact (Hcalls (fn, ev) Hin)|].
  split; [exact Hnever|].
  intros out Hok.
  destruct (execution_ran (recording h) transformFormResult generateMarkResult
              pdfDestinationBucket executionName sched (context name input) ks ka
              (recording_flag h Hflag) fuel input 0
              (StepFunctionsService.mkWorld (l, []) tx []) out (conj Hs Ha))
    as [Hrs Hra].
  { subst r. unfold runAssignments, execute in Hok.
    rewrite orchestrator_startAt in Hok. exact Hok. }
  change (ran_scripts ks (res_world r)) in Hrs.
  change (ran_answer ka (res_world r)) in Hra.
  split; [exact Hrs|]. split; [exact Hra|]. split.
  - destruct Hrs as (tr & Hin & Htr1 & Htr2 & Htr3).
    destruct (Hany _ _ Hin) as (Hsplit & _ & _ & Himg).
    destruct (Himg Htr3)
      as (p3 & Hc3 & [[Hp3 Hf]|(p & p2 & Hp & Hf & Hp2 & Hp3 & Hc & Hc2)]).
    + rewrite (returns_flag h Hflag _ _ Hp3) in Hf. discriminate Hf.
    + exists p, p2, p3. auto 10.
  - destruct Hra as (tr & Hin & Htr1 & Htr2 & Htr3).
    destruct (Hany _ _ Hin) as (Hsplit & _ & _ & Himg).
    destruct (Himg Htr3)
      as (p3 & Hc3 & [[Hp3 Hf]|(p & p2 & Hp & Hf & Hp2 & Hp3 & Hc & Hc2)]).
    + exists p3. auto.
    + rewrite (returns_flag h Hflag _ _ Hp) in Hf. discriminate Hf.
Qed.

Lemma standard_answer_skips_rotation_witness :
  In (analyzeDocumentImagesFunction, scriptsInput "s.pdf")
    (calls (res_world (runAssignments (recording echo) transformed marked
                         "pdf-destination" executionNames [1%nat; 0%nat] "top" 20
                         bothKeys demoRecorded))) /\
  ~ In (analyzeDocumentImagesFunction, answerInput "a.pdf")
      (calls (res_world (runAssignments (recording echo) transformed marked
                           "pdf-destination" executionNames [1%nat; 0%nat] "top" 20
                           bothKeys demoRecorded))).
Proof.
  assert (Hok : exists out,
             res_outcome (runAssignments (recording echo) transformed marked
                            "pdf-destination" executionNames [1%nat; 0%nat] "top" 20
                            bothKeys demoRecorded) = Succeeded out)
    by (vm_compute; eexists; reflexivity).
  destruct Hok as [out Hok].
  assert (Hflag : forall ev w p w',
             echo pdfToImagesFunction ev w = (TOk p, w') ->
             is_present [Field "skipRotation"] p
             = is_present [Field "skipRotation"] ev).
  { intros ev w p w' H. unfold echo in H. inversion H. reflexivity. }
  destruct (standard_answer_skips_rotation echo transformed marked
              "pdf-destination" executionNames [1%nat; 0%nat] "top" 20 bothKeys
              "s.pdf" "a.pdf" tt textractDone Hflag eq_refl eq_refl)
    as (_ & _ & _ & _ & _ & _ & Hnever & Hran).
  split.
  - destruct (Hran out Hok) as (_ & _ & (p & p2 & p3 & Hp & _ & _ & _ & Hc & _) & _).
    destruct Hp as (w & w' & Hp). unfold echo in Hp. injection Hp as <- _.
    exact Hc.
  - apply Hnever. exists tt, tt. reflexivity.
Defined.

(** C9, the claim as stated fails.  With a page split that returns the
    key of its event and not its [skipRotation] field, the orchestrator
    succeeds and the detection and the correction are called on the pages
    of the standard answer, whose pipeline was started with the flag.
    With functions that reject their events, the page split is called on
    the scripts and the detection is called on nothing. *)
Lemma page_split_decides_rotation :
  (let r := runAssignments (recording keyOnly) transformed marked "pdf-destination"
              executionNames [] "top" 6 bothKeys demoRecorded in
   (exists out, res_outcome r = Succeeded out) /\
   In (pdfToImagesFunction, JObj [("key", JStr "a.pdf"); ("skipRotation", JBool true)])
     (calls (res_world r)) /\
   In (analyzeDocumentImagesFunction, JObj [("key", JStr "a.pdf")])
     (calls (res_world r)) /\
   In (correctImageOrientationFunction, JObj [("key", JStr "a.pdf")])
     (calls (res_world r))) /\
  (let r := runAssignments (recording rejecting) transformed marked "pdf-destination"
              executionNames [] "top" 6 bothKeys demoRecorded in
   In (pdfToImagesFunction, JObj [("key", JStr "s.pdf")]) (calls (res_world r)) /\
   forall ev, ~ In (analyzeDocumentImagesFunction, ev) (calls (res_world r))).
Proof.
  split.
  - cbv zeta. split; [vm_compute; eexists; reflexivity|].
    vm_compute. auto 20.
  - cbv zeta. split; [vm_compute; auto|].
    intros ev. vm_compute. intros H.
    repeat (destruct H as [H|H]; [discriminate H|]). exact H.
Qed.




(* ================================================================== *)
(** * Further properties                                              *)
(* ================================================================== *)

(** ** lib/lambda-helper.ts: the construct ids *)

Lemma append_assoc (a b c : string) : (a +:+ b) +:+ c = a +:+ (b +:+ c).
Proof.
  induction a as [|x a IH]; [reflexivity|].
  change (String x ((a +:+ b) +:+ c) = String x (a +:+ (b +:+ c))). now rewrite IH.
Qed.

Lemma append_cons x (a b : string) : String x a +:+ b = String x (a +:+ b).
Proof. reflexivity. Qed.

Lemma append_nil_l (a : string) : "" +:+ a = a.
Proof. reflexivity. Qed.

Lemma rev_app_append s : forall acc, String.rev_app s acc = String.rev s +:+ acc.
Proof.
  unfold String.rev. induction s as [|c s IH]; intros acc; [reflexivity|].
  cbn [String.rev_app]. rewrite (IH (String c acc)), (IH (String c "")).
  now rewrite append_assoc.
Qed.

Lemma rev_cons c s : String.rev (String c s) = String.rev s +:+ String c "".
Proof. unfold String.rev at 1. cbn [String.rev_app]. apply rev_app_append. Qed.

Lemma split_aux_cur sep s : forall cur,
  Str.split_aux sep cur s =
  (String.rev cur +:+ hd EmptyString (Str.split sep s)) :: tl (Str.split sep s).
Proof.
  unfold Str.split. induction s as [|c s IH]; intros cur; cbn [Str.split_aux].
  - cbn [hd tl]. change (String.rev "") with "". now rewrite append_empty_r.
  - destruct (Ascii.eqb c sep).
    + cbn [hd tl]. change (String.rev "") with "". now rewrite append_empty_r.
    + rewrite (IH (String c cur)), (IH (String c EmptyString)).
      cbn [hd tl]. rewrite !rev_cons.
      change (String.rev "") with "". rewrite append_nil_l.
      now rewrite !append_assoc.
Qed.

Lemma split_cons sep c s :
  Str.split sep (String c s) =
  if Ascii.eqb c sep then EmptyString :: Str.split sep s
  else String c (hd EmptyString (Str.split sep s)) :: tl (Str.split sep s).
Proof.
  unfold Str.split at 1. cbn [Str.split_aux]. destruct (Ascii.eqb c sep).
  - reflexivity.
  - rewrite split_aux_cur. reflexivity.
Qed.

Lemma split_nonempty sep s : Str.split sep s <> [].
Proof.
  destruct s as [|c s]; [discriminate|]. rewrite split_cons.
  destruct (Ascii.eqb c sep); discriminate.
Qed.

Lemma split_app sep a b :
  Str.split sep (a +:+ String sep b) = Str.split sep a ++ Str.split sep b.
Proof.
  induction a as [|c a IH].
  - rewrite append_nil_l, split_cons, Ascii.eqb_refl. reflexivity.
  - rewrite append_cons, !split_cons. destruct (Ascii.eqb c sep).
    + now rewrite IH.
    + rewrite IH. pose proof (split_nonempty sep a) as H.
      destruct (Str.split sep a) as [|x l]; [contradiction|]. reflexivity.
Qed.

Lemma split_no_sep sep s : has_char sep s = false -> Str.split sep s = [s].
Proof.
  induction s as [|c s IH]; intros H; [reflexivity|].
  cbn [has_char] in H. apply orb_false_iff in H as [Hc Hs].
  rewrite split_cons, Hc, (IH Hs). reflexivity.
Qed.

Lemma join_app l1 l2 : Str.join (l1 ++ l2) = Str.join l1 +:+ Str.join l2.
Proof.
  induction l1 as [|x l1 IH]; [reflexivity|].
  cbn [app Str.join fold_right] in *. fold (Str.join (l1 ++ l2)). fold (Str.join l1).
  now rewrite IH, append_assoc.
Qed.

(** X1.  The id [getLambdaFunction] gives a function is made word by
    word: the id for [a-b] is the id for [a] followed by the id for [b],
    whatever [a] and [b] are (empty, or with hyphens of their own). *)
Theorem function_name_concatenates a b :
  LambdaHelper.getLambdaFunction (a +:+ "-" +:+ b)
  = LambdaHelper.getLambdaFunction a +:+ LambdaHelper.getLambdaFunction b.
Proof.
  unfold LambdaHelper.getLambdaFunction.
  change ("-" +:+ b) with (String "-" b).
  now rewrite split_app, map_app, join_app.
Qed.

(** X2.  The id [getLayerVersion] gives a layer depends on the first
    directory of the asset path alone: what follows the first [/] does not
    count, and the id is that directory's name, capitalised, followed by
    [Layer]. *)
Theorem layer_name_of_directory dir file :
  has_char "/" dir = false ->
  getLayerVersion (dir +:+ "/" +:+ file) = getLayerVersion dir /\
  getLayerVersion dir = LambdaHelper.capitalized dir +:+ "Layer".
Proof.
  intros H. unfold getLayerVersion. change ("/" +:+ file) with (String "/" file).
  rewrite split_app, (split_no_sep _ _ H). cbn [app hd]. split; [reflexivity|].
  unfold LambdaHelper.capitalized. now rewrite append_assoc.
Qed.

Lemma lower_keeps_sep c : Ascii.eqb (Str.lower_char c) "-" = Ascii.eqb c "-".
Proof. destruct c as [[] [] [] [] [] [] [] []]; reflexivity. Qed.

Lemma upper_keeps_sep c : Ascii.eqb (Str.upper_char c) "-" = Ascii.eqb c "-".
Proof. destruct c as [[] [] [] [] [] [] [] []]; reflexivity. Qed.

Lemma upper_lower c : Str.upper_char (Str.lower_char c) = Str.upper_char c.
Proof. destruct c as [[] [] [] [] [] [] [] []]; reflexivity. Qed.

Lemma lower_lower c : Str.lower_char (Str.lower_char c) = Str.lower_char c.
Proof. destruct c as [[] [] [] [] [] [] [] []]; reflexivity. Qed.

Lemma upper_upper c : Str.upper_char (Str.upper_char c) = Str.upper_char c.
Proof. destruct c as [[] [] [] [] [] [] [] []]; reflexivity. Qed.

Lemma lower_upper c : Str.lower_char (Str.upper_char c) = Str.lower_char c.
Proof. destruct c as [[] [] [] [] [] [] [] []]; reflexivity. Qed.

Lemma map_string_map_string f g s :
  Str.map_string f (Str.map_string g s) = Str.map_string (fun c => f (g c)) s.
Proof. induction s as [|c s IH]; cbn; [reflexivity | now rewrite IH]. Qed.

Lemma map_string_ext f g s :
  (forall c, f c = g c) -> Str.map_string f s = Str.map_string g s.
Proof. intros H. induction s as [|c s IH]; cbn; [reflexivity | now rewrite IH, H]. Qed.

Lemma split_map_string f sep s :
  (forall c, Ascii.eqb (f c) sep = Ascii.eqb c sep) ->
  Str.split sep (Str.map_string f s) = map (Str.map_string f) (Str.split sep s).
Proof.
  intros Hf. induction s as [|c s IH]; [reflexivity|].
  cbn [Str.map_string]. rewrite !split_cons, Hf, IH.
  destruct (Ascii.eqb c sep); [reflexivity|].
  pose proof (split_nonempty sep s) as H.
  destruct (Str.split sep s) as [|x l]; [contradiction|]. reflexivity.
Qed.

Lemma capitalized_lower w :
  LambdaHelper.capitalized (Str.toLowerCase w) = LambdaHelper.capitalized w.
Proof.
  unfold LambdaHelper.capitalized, Str.toLowerCase, Str.toUpperCase.
  destruct w as [|c w]; [reflexivity|].
  cbn [Str.map_string Str.charAt0 Str.substring1].
  rewrite upper_lower, map_string_map_string.
  now rewrite (map_string_ext _ Str.lower_char) by apply lower_lower.
Qed.

Lemma capitalized_upper w :
  LambdaHelper.capitalized (Str.toUpperCase w) = LambdaHelper.capitalized w.
Proof.
  unfold LambdaHelper.capitalized, Str.toLowerCase, Str.toUpperCase.
  destruct w as [|c w]; [reflexivity|].
  cbn [Str.map_string Str.charAt0 Str.substring1].
  rewrite upper_upper, map_string_map_string.
  now rewrite (map_string_ext _ Str.lower_char) by apply lower_upper.
Qed.

(** X3.  For an asset path of ASCII characters, the id
    [getLambdaFunction] gives does not depend on the case of the letters
    of the path: the path in lower case and the path in upper case get the
    id of the path as written. *)
Theorem function_name_ignores_case assetPath :
  ascii7 assetPath = true ->
  LambdaHelper.getLambdaFunction (Str.toLowerCase assetPath)
  = LambdaHelper.getLambdaFunction assetPath /\
  LambdaHelper.getLambdaFunction (Str.toUpperCase assetPath)
  = LambdaHelper.getLambdaFunction assetPath.
Proof.
  intros _. unfold LambdaHelper.getLambdaFunction, Str.toLowerCase, Str.toUpperCase.
  rewrite !split_map_string by (apply lower_keeps_sep || apply upper_keeps_sep).
  rewrite !map_map. split; f_equal; apply map_ext; intros w.
  - now rewrite <- (capitalized_lower w).
  - now rewrite <- (capitalized_upper w).
Qed.

Lemma function_name_ignores_case_witness :
  ascii7 "pdf-to-Images" = true /\
  LambdaHelper.getLambdaFunction "pdf-to-images" = "PdfFunctionToFunctionImagesFunction" /\
  LambdaHelper.getLambdaFunction "PDF-TO-IMAGES" = "PdfFunctionToFunctionImagesFunction".
Proof.
  split; [reflexivity|].
  destruct (function_name_ignores_case "pdf-to-Images" eq_refl) as [Hl Hu].
  split; [exact Hl | exact Hu].
Defined.

Lemma layer_name_of_directory_witness :
  has_char "/" "ghostscript" = false /\
  getLayerVersion "ghostscript/ghostscript.zip" = "GhostscriptLayer".
Proof.
  split; [reflexivity|].
  destruct (layer_name_of_directory "ghostscript" "ghostscript.zip" eq_refl) as [H1 H2].
  exact (eq_trans H1 H2).
Defined.

Lemma prefix_split p : forall s,
  String.prefix p s = true -> s = p +:+ Str.drop_string (String.length p) s.
Proof.
  induction p as [|a p IH]; intros s H; [reflexivity|].
  destruct s as [|b s]; [discriminate H|]. cbn [String.prefix] in H.
  destruct (ascii_dec a b) as [->|]; [|discriminate H].
  cbn [String.length Str.drop_string]. rewrite append_cons. f_equal. now apply IH.
Qed.

Lemma prefix_append p r : String.prefix p (p +:+ r) = true.
Proof.
  induction p as [|a p IH]; [destruct r; reflexivity|].
  rewrite append_cons. cbn [String.prefix]. destruct (ascii_dec a a); [exact IH|contradiction].
Qed.

Lemma replace_first_eq pat by_ s :
  Str.replace_first pat by_ s =
  if String.prefix pat s then by_ +:+ Str.drop_string (String.length pat) s
  else match s with
       | EmptyString => EmptyString
       | String c s' => String c (Str.replace_first pat by_ s')
       end.
Proof. destruct s; reflexivity. Qed.

Lemma replace_first_spec pat by_ : forall s,
  (exists a b, s = a +:+ pat +:+ b) ->
  exists pre post,
    s = pre +:+ pat +:+ post /\
    Str.replace_first pat by_ s = pre +:+ by_ +:+ post /\
    forall a b, s = a +:+ pat +:+ b -> (String.length pre <= String.length a)%nat.
Proof.
  induction s as [|c s IH]; intros (a & b & Hs); rewrite replace_first_eq.
  - destruct a; [|discriminate Hs]. rewrite append_nil_l in Hs.
    destruct pat; [|discriminate Hs].
    exists EmptyString, EmptyString. cbn. split; [reflexivity|]. split; [reflexivity|].
    intros; lia.
  - destruct (String.prefix pat (String c s)) eqn:Hp.
    + exists EmptyString, (Str.drop_string (String.length pat) (String c s)).
      rewrite !append_nil_l. split; [now apply prefix_split|].
      split; [reflexivity|]. intros; cbn; lia.
    + assert (Hne : forall a' b', String c s = a' +:+ pat +:+ b' ->
                exists a'', a' = String c a'' /\ s = a'' +:+ pat +:+ b').
      { intros a' b' H'. destruct a' as [|x a''].
        - rewrite append_nil_l in H'. rewrite H', prefix_append in Hp. discriminate Hp.
        - rewrite append_cons in H'. inversion H'; subst. now exists a''. }
      destruct (Hne a b Hs) as (a'' & -> & Hs').
      destruct (IH (ex_intro _ a'' (ex_intro _ b Hs'))) as (pre & post & H1 & H2 & H3).
      exists (String c pre), post. rewrite !append_cons.
      split; [now rewrite <- H1|]. split; [now rewrite H2|].
      intros a' b' H'. destruct (Hne a' b' H') as (a3 & -> & H4).
      cbn [String.length]. specialize (H3 a3 b' H4). lia.
Qed.

Lemma function_name_has_suffix assetPath :
  exists a b, LambdaHelper.getLambdaFunction assetPath = a +:+ "Function" +:+ b.
Proof.
  unfold LambdaHelper.getLambdaFunction.
  pose proof (split_nonempty "-" assetPath) as H.
  destruct (Str.split "-" assetPath) as [|w ws]; [contradiction|].
  exists (LambdaHelper.capitalized w),
    (Str.join (map (fun c => LambdaHelper.capitalized c +:+ "Function") ws)).
  cbn [map Str.join fold_right]. now rewrite append_assoc.
Qed.

(** X4.  Every id [getLambdaFunction] makes contains [Function], so
    [getLambdaInvokeTask] always renames: the id of the task is the id of
    the function with its first [Function] replaced by [Task], and in a
    scope where that id is free the task is created under it, with the
    function as its resource. *)
Theorem task_id_replaces_first assetPath :
  let fn := LambdaHelper.getLambdaFunction assetPath in
  exists pre post,
    fn = pre +:+ "Function" +:+ post /\
    (forall a b, fn = a +:+ "Function" +:+ b ->
       (String.length pre <= String.length a)%nat) /\
    forall g : scope,
      g !! (pre +:+ "Task" +:+ post) = None ->
      LambdaHelper.getLambdaInvokeTask fn g
      = Some (mkChain (pre +:+ "Task" +:+ post) [pre +:+ "Task" +:+ post],
              <[pre +:+ "Task" +:+ post := Task (lambdaTask fn) None]> g).
Proof.
  intros fn.
  destruct (replace_first_spec "Function" "Task" fn (function_name_has_suffix assetPath))
    as (pre & post & H1 & H2 & H3).
  exists pre, post. split; [exact H1|]. split; [exact H3|].
  intros g Hg. unfold LambdaHelper.getLambdaInvokeTask, new_LambdaInvoke, construct.
  rewrite H2, Hg. reflexivity.
Qed.

Lemma task_id_replaces_first_witness :
  exists c g,
    LambdaHelper.getLambdaInvokeTask (LambdaHelper.getLambdaFunction "pdf-to-Images") ∅
    = Some (c, g).
Proof.
  destruct (task_id_replaces_first "pdf-to-Images") as (pre & post & _ & _ & H).
  do 2 eexists. apply H. apply lookup_empty.
Defined.


(** ** The interpreter: fuel *)

Section Fuel.
Context {W : Type}.
Variable invoke : resource -> json -> W -> Z -> task_result * W * Z.
Variables (sched : list nat) (m : machine) (ctx : json).

Abbreviation grun := (run invoke sched m ctx).

Lemma continue_more_fuel f k nxt out t w :
  (forall cur d t w, res_outcome (grun f cur d t w) <> OutOfFuel ->
     grun (f + k) cur d t w = grun f cur d t w) ->
  res_outcome (continue (grun f) nxt out t w) <> OutOfFuel ->
  continue (grun (f + k)) nxt out t w = continue (grun f) nxt out t w.
Proof. intros IH H. destruct nxt as [n|]; cbn in *; [now apply IH | reflexivity]. Qed.

Lemma branches_more_fuel f k branches input t0 :
  (forall cur d t w, res_outcome (grun f cur d t w) <> OutOfFuel ->
     grun (f + k) cur d t w = grun f cur d t w) ->
  forall order outs tr tmax w,
    (run_branches (grun f) branches order input t0 outs tr tmax w).1.1.1 <> OutOfFuel ->
    run_branches (grun (f + k)) branches order input t0 outs tr tmax w
    = run_branches (grun f) branches order input t0 outs tr tmax w.
Proof.
  intros IH order. induction order as [|i order IHo]; intros outs tr tmax w H;
    [reflexivity|].
  cbn [run_branches] in *. destruct (nth_error branches i) as [b|]; [|now apply IHo].
  assert (Hb : res_outcome (grun f b input t0 w) <> OutOfFuel).
  { intros E. rewrite E in H. now apply H. }
  rewrite (IH _ _ _ _ Hb).
  destruct (res_outcome (grun f b input t0 w)); try reflexivity.
  now apply IHo.
Qed.

(** An execution that ended is the same with more fuel. *)
Lemma run_more_fuel k f : forall cur d t w,
  res_outcome (grun f cur d t w) <> OutOfFuel ->
  grun (f + k) cur d t w = grun f cur d t w.
Proof.
  induction f as [|f IH]; intros cur d t w H; [now contradiction H|].
  change (S f + k)%nat with (S (f + k)). rewrite !run_unfold in *.
  destruct (timed_out m t); [reflexivity|].
  destruct (states m !! cur) as [st|]; [|reflexivity].
  cbn [entered res_outcome] in H. f_equal.
  destruct st as [spec nxt|params rp nxt|secs nxt|rules dflt|e c|branches sel nxt];
    cbn [exec] in *.
  - destruct (match taskParameters spec with Some p => eval_tmpl p d ctx | None => Some d end)
      as [req|]; [|reflexivity].
    destruct (with_retry _ _ _ _ w t) as [[[v|e c] w'] t'].
    + destruct (apply_result _ _ _ _ _ _); [|reflexivity].
      now apply continue_more_fuel.
    + destruct (find_catcher _ _) as [h|]; [|reflexivity].
      destruct (apply_result _ _ _ _ _ _); [|reflexivity]. now apply IH.
  - destruct (match params with Some p => eval_tmpl p d ctx | None => Some d end);
      [|reflexivity].
    destruct (apply_result _ _ _ _ _ _); [|reflexivity]. now apply continue_more_fuel.
  - now apply continue_more_fuel.
  - destruct (choose rules d ctx) as [[target|]|]; [now apply IH| |reflexivity].
    destruct dflt; [now apply IH | reflexivity].
  - reflexivity.
  - assert (Hb : (run_branches (grun f) branches
                    (completion_order (length branches) sched) d t
                    (replicate (length branches) JNull) [] t w).1.1.1 <> OutOfFuel).
    { intros E. destruct (run_branches (grun f) _ _ _ _ _ _ _ _) as [[[o tr] t'] w'].
      cbn in E. subst o. now apply H. }
    rewrite (branches_more_fuel f k branches d t IH _ _ _ _ _ Hb).
    destruct (run_branches (grun f) _ _ _ _ _ _ _ _) as [[[o tr] t'] w'].
    destruct o; try reflexivity.
    destruct (apply_result _ _ _ _ _ _); [|reflexivity].
    cbn [res_outcome] in H. now rewrite continue_more_fuel.
Qed.

Lemma run_enough_fuel f f' cur d t w :
  (f <= f')%nat ->
  res_outcome (grun f cur d t w) <> OutOfFuel ->
  grun f' cur d t w = grun f cur d t w.
Proof.
  intros Hle H. replace f' with (f + (f' - f))%nat by lia. now apply run_more_fuel.
Qed.
End Fuel.

(** The first index below [N] at which [P] holds, if any. *)
Lemma first_terminal (P : nat -> bool) N :
  (forall i, (i < N)%nat -> P i = false) \/
  exists n, (n < N)%nat /\ P n = true /\ forall i, (i < n)%nat -> P i = false.
Proof.
  induction N as [|N [IH|(n & Hn & Hp & Hlt)]].
  - left. intros i Hi. lia.
  - destruct (P N) eqn:E.
    + right. exists N. split; [lia|]. split; [exact E | exact IH].
    + left. intros i Hi. destruct (Nat.eq_dec i N) as [->|]; [exact E | apply IH; lia].
  - right. exists n. split; [lia|]. split; assumption.
Qed.

(** ** The job runner: every execution *)

Section RunnerEdges.
Variables (src dst name : string) (inp : json).

Abbreviation trun :=
  (run TextractService.invoke [] (textractMachine src dst) (context name inp)).

Lemma eval_key d ctx : eval_expr "$.key" d ctx = jget [Field "key"] d.
Proof. reflexivity. Qed.

Lemma submit_request d :
  task_request (submitTask src dst) d (context name inp) =
  match jget [Field "key"] d with
  | Some v =>
      Some (JObj [("ClientRequestToken", JStr name);
                  ("DocumentLocation",
                   JObj [("S3Object", JObj [("Bucket", JStr src); ("Name", v)])]);
                  ("FeatureTypes", JArr [JStr "FORMS"; JStr "TABLES"]);
                  ("JobTag", JStr name);
                  ("OutputConfig", JObj [("S3Bucket", JStr dst); ("S3Prefix", v)])])
  | None => None
  end.
Proof.
  unfold task_request, submitTask. cbn [taskParameters eval_tmpl].
  rewrite !eval_key.
  change (eval_expr "$$.Execution.Name" d (context name inp)) with (Some (JStr name)).
  destruct (jget [Field "key"] d); reflexivity.
Qed.

(** Without a key the submission cannot build its request. *)
Lemma submit_no_key f d t w :
  t < 10800 -> jget [Field "key"] d = None ->
  trun (S f) "RunAmazonTextract" d t w =
  mkResult (Failed "States.Runtime" "path or state could not be resolved")
    ["RunAmazonTextract"] t w.
Proof.
  intros Ht Hk. rewrite run_unfold, runner_timed_out.
  destruct (Z.leb_spec 10800 t); [lia|]. rewrite runner_submit.
  cbn [exec]. fold (task_request (submitTask src dst) d (context name inp)).
  rewrite submit_request, Hk. reflexivity.
Qed.

Lemma submit_bad_key f d v t w :
  t < 10800 -> jget [Field "key"] d = Some v -> (forall k, v <> JStr k) ->
  trun (S f) "RunAmazonTextract" d t w =
  mkResult (Failed "Textract.InvalidParameterException" "DocumentLocation")
    ["RunAmazonTextract"] t w.
Proof.
  intros Ht Hk Hv. rewrite run_unfold, runner_timed_out.
  destruct (Z.leb_spec 10800 t); [lia|]. rewrite runner_submit.
  cbn [exec]. fold (task_request (submitTask src dst) d (context name inp)).
  rewrite submit_request, Hk.
  cbn [submitTask taskRetry taskResource retry_budget fold_right map].
  rewrite with_retry_nil.
  unfold TextractService.invoke, instant, TextractService.startDocumentAnalysis.
  cbn [jget jstep lookup_field String.eqb Ascii.eqb Bool.eqb].
  destruct v; try reflexivity. now contradiction (Hv s).
Qed.
End RunnerEdges.


Lemma runner_ends src dst name input w fuel :
  (540 <= fuel)%nat ->
  runner_end name input w (runTextract src dst name fuel input w).
Proof.
  intros Hf.
  destruct (jget [Field "key"] input) as [v|] eqn:Hk.
  2:{ unfold runTextract, execute. rewrite runner_startAt.
      destruct fuel as [|f]; [lia|]. rewrite submit_no_key by (auto; lia).
      constructor. intros k. congruence. }
  destruct v as [| | |k| |].
  4:{ destruct (first_terminal
                  (fun i => terminal (TextractService.jobStatus w (job name w)
                                        (i + TextractService.polls w))) 179)
        as [Hnone|(n & Hn & Hp & Hlt)].
      - replace fuel with (3 * 179 + 3 + (fuel - 540))%nat by lia.
        rewrite (runner_timeout src dst name input k w) by auto.
        now apply (end_timeout name input w k).
      - replace fuel with (3 * n + 5 + (fuel - (3 * n + 5)))%nat by lia.
        rewrite (runner_terminal src dst name input k w n) by auto.
        now apply (end_terminal name input w k n). }
  all: unfold runTextract, execute; rewrite runner_startAt;
    destruct fuel as [|f]; [lia|];
    erewrite submit_bad_key by (try exact Hk; try lia; intros k; discriminate);
    constructor; intros k; congruence.
Qed.

(** X5.  An input without a [key] cannot be submitted: the execution
    fails at the submission with the error [States.Runtime], no other state
    is entered, and the Textract service is left as it was. *)
Theorem runner_needs_key src dst name input w fuel :
  jget [Field "key"] input = None ->
  (0 < fuel)%nat ->
  let r := runTextract src dst name fuel input w in
  (exists c, res_outcome r = Failed "States.Runtime" c) /\
  res_trace r = ["RunAmazonTextract"] /\
  res_world r = w.
Proof.
  intros Hk Hf r. subst r. unfold runTextract, execute. rewrite runner_startAt.
  destruct fuel as [|f]; [lia|]. rewrite submit_no_key by (auto; lia).
  split; [eexists; reflexivity|]. split; reflexivity.
Qed.

Lemma runner_needs_key_witness :
  res_trace (runTextract "pdf-source" "pdf-destination" "exec-1" 542
               (JObj [("scriptsKey", JStr "s.pdf")]) (textractWith ["SUCCEEDED"]))
  = ["RunAmazonTextract"] /\
  TextractService.started
    (res_world (runTextract "pdf-source" "pdf-destination" "exec-1" 542
                  (JObj [("scriptsKey", JStr "s.pdf")]) (textractWith ["SUCCEEDED"])))
  = [].
Proof.
  destruct (runner_needs_key "pdf-source" "pdf-destination" "exec-1"
              (JObj [("scriptsKey", JStr "s.pdf")]) (textractWith ["SUCCEEDED"]) 542
              eq_refl ltac:(lia)) as (_ & Ht & Hw).
  split; [exact Ht|]. rewrite Hw. reflexivity.
Defined.

(** A successful execution of the runner saw SUCCEEDED at its first
    terminal poll. *)
Lemma runner_success_inv src dst name input w fuel o :
  res_outcome (runTextract src dst name fuel input w) = Succeeded o ->
  exists k n,
    jget [Field "key"] input = Some (JStr k) /\
    (n < 179)%nat /\
    (forall i, (i < n)%nat ->
       terminal (TextractService.jobStatus w (job name w) (i + TextractService.polls w))
       = false) /\
    TextractService.jobStatus w (job name w) (n + TextractService.polls w)
    = "SUCCEEDED" /\
    o = finished k (job name w).
Proof.
  intros H.
  pose proof (runner_ends src dst name input w (fuel + 540) ltac:(lia)) as He.
  assert (Heq : runTextract src dst name (fuel + 540) input w
                = runTextract src dst name fuel input w).
  { unfold runTextract, execute. apply run_more_fuel.
    unfold runTextract, execute in H. rewrite H. discriminate. }
  rewrite Heq in He.
  inversion He as [e c Hk Hr|k n Hk Hn Hlt Hterm Hr|k Hk Hnone Hr];
    rewrite <- Hr in H; cbn [res_outcome] in H; try discriminate H.
  exists k, n. split; [exact Hk|]. split; [exact Hn|]. split; [exact Hlt|].
  unfold terminal in Hterm.
  destruct (String.eqb _ "FAILED") eqn:Ef; [discriminate H|].
  cbn [orb] in Hterm. apply String.eqb_eq in Hterm.
  split; [exact Hterm|]. now inversion H.
Qed.

(** X6.  The runner succeeds only on a job that reported SUCCEEDED:
    in every successful execution the input has a string key, some poll
    before the timeout returned SUCCEEDED, no poll before it returned a
    terminal status, and the output is the record of that key, the job of
    this execution and the prefix [<key>/<jobId>]. *)
Theorem runner_success_converse src dst name input w fuel o :
  res_outcome (runTextract src dst name fuel input w) = Succeeded o ->
  exists k n,
    jget [Field "key"] input = Some (JStr k) /\
    (n < 179)%nat /\
    (forall i, (i < n)%nat ->
       terminal (TextractService.jobStatus w (job name w) (i + TextractService.polls w))
       = false) /\
    TextractService.jobStatus w (job name w) (n + TextractService.polls w)
    = "SUCCEEDED" /\
    o = JObj [("key", JStr k); ("JobId", JStr (job name w));
              ("textractPrefix", JStr (k +:+ "/" +:+ job name w))].
Proof.
  intros H.
  destruct (runner_success_inv src dst name input w fuel o H)
    as (k & n & Hk & Hn & Hlt & Hs & ->).
  exists k, n. split; [exact Hk|]. split; [exact Hn|]. split; [exact Hlt|].
  split; [exact Hs | reflexivity].
Qed.

Lemma runner_success_converse_witness :
  exists n,
    TextractService.jobStatus (textractWith ["IN_PROGRESS"; "SUCCEEDED"]) "job-0" n
    = "SUCCEEDED".
Proof.
  destruct (runner_success_converse "pdf-destination" "pdf-destination" "exec-1" aPdf
              (textractWith ["IN_PROGRESS"; "SUCCEEDED"]) 8 (finished "a.pdf" "job-0")
              eq_refl) as (k & n & _ & _ & _ & Hs & _).
  exists (n + TextractService.polls (textractWith ["IN_PROGRESS"; "SUCCEEDED"]))%nat.
  exact Hs.
Defined.

(** X7.  The polling loop is bounded: given fuel for 180 turns, every
    execution of the runner ends (in success, failure or timeout), after a
    whole number of minutes and at most 180 of them, and it is timed out
    exactly when its clock reaches 180 minutes. *)
Theorem runner_always_ends src dst name input w fuel :
  (540 <= fuel)%nat ->
  let r := runTextract src dst name fuel input w in
  res_outcome r <> OutOfFuel /\
  0 <= res_clock r <= 10800 /\
  (exists q, res_clock r = 60 * q) /\
  (res_outcome r = TimedOut <-> res_clock r = 10800).
Proof.
  intros Hf r. subst r.
  destruct (runner_ends src dst name input w fuel Hf)
    as [e c Hk|k n Hk Hn Hlt Hterm|k Hk Hnone]; cbn [res_outcome res_clock].
  - split; [discriminate|]. split; [lia|]. split; [now exists 0|].
    split; [discriminate | lia].
  - split; [destruct (String.eqb _ "FAILED"); discriminate|].
    split; [lia|]. split; [now exists (Z.of_nat n + 1)|].
    split; [destruct (String.eqb _ "FAILED"); discriminate | lia].
  - split; [discriminate|]. split; [lia|]. split; [now exists 180|].
    split; reflexivity.
Qed.

Lemma runner_always_ends_witness :
  res_outcome (runTextract "pdf-destination" "pdf-destination" "exec-1" 540 aPdf
                 (textractWith [])) <> OutOfFuel.
Proof.
  destruct (runner_always_ends "pdf-destination" "pdf-destination" "exec-1" aPdf
              (textractWith []) 540 ltac:(lia)) as (H & _).
  exact H.
Defined.

(** X8.  An execution of the runner that runs to its end starts at most
    one job, the one of its own submission, and polls at most 179 times. *)
Theorem runner_one_submission src dst name input w fuel :
  (540 <= fuel)%nat ->
  let w' := res_world (runTextract src dst name fuel input w) in
  (TextractService.started w' = TextractService.started w \/
   TextractService.started w' = TextractService.started w ++ [job name w]) /\
  (TextractService.polls w <= TextractService.polls w'
   <= TextractService.polls w + 179)%nat.
Proof.
  intros Hf w'. subst w'.
  assert (Hp : TextractService.polls (after_submit name w) = TextractService.polls w)
    by apply request_job_polls.
  destruct (runner_ends src dst name input w fuel Hf)
    as [e c Hk|k n Hk Hn Hlt Hterm|k Hk Hnone];
    cbn [res_world advance TextractService.started TextractService.polls].
  - split; [now left | lia].
  - split; [apply request_job_started | rewrite Hp; lia].
  - split; [apply request_job_started | rewrite Hp; lia].
Qed.

Lemma runner_one_submission_witness :
  (TextractService.polls
     (res_world (runTextract "pdf-destination" "pdf-destination" "exec-1" 542 aPdf
                   (textractWith []))) <= 179)%nat.
Proof.
  destruct (runner_one_submission "pdf-destination" "pdf-destination" "exec-1" aPdf
              (textractWith []) 542 ltac:(lia)) as (_ & _ & H).
  exact H.
Defined.


(** ** The orientation pipeline: every execution *)

Section PipelineRuns.
Context {W : Type}.
Variable handler : string -> json -> W -> task_result * W.
Variable ctx : json.

Abbreviation prun := (run (LambdaService.invoke handler) [] correctPdfMachine ctx).

Lemma call_lambda_direct fn event w t p w' :
  handler fn event w = (TOk p, w') ->
  call_lambda handler fn event w t = (TOk (LambdaService.invoke_response p), w', t).
Proof.
  intros H. unfold call_lambda. cbn [with_retry].
  unfold LambdaService.invoke, instant, lambda_request.
  cbn [jget jstep lookup_field String.eqb Ascii.eqb Bool.eqb]. now rewrite H.
Qed.

(** A Lambda step whose function answers at once hands its payload on. *)
Lemma lambda_ok_step T fn next f fs t w p w' :
  states correctPdfMachine !! T = Some (Task (lambdaTask fn) next) ->
  t < 10800 ->
  handler fn (JObj fs) w = (TOk p, w') ->
  prun (S f) T (JObj fs) t w = entered T (continue (prun f) next p t w').
Proof.
  intros HT Ht Hh. rewrite run_unfold, pipeline_timed_out.
  destruct (Z.leb_spec 10800 t); [lia|].
  rewrite HT, exec_lambda, (call_lambda_direct _ _ _ _ _ _ Hh), apply_payload.
  reflexivity.
Qed.

(** A Lambda step ends the execution in failure or hands a payload on. *)
Lemma lambda_step_ends T fn next f input t w :
  states correctPdfMachine !! T = Some (Task (lambdaTask fn) next) ->
  t < 10800 ->
  (exists e c t' w', prun (S f) T input t w = mkResult (Failed e c) [T] t' w') \/
  (exists p w' t', prun (S f) T input t w = entered T (continue (prun f) next p t' w')).
Proof.
  intros HT Ht. rewrite run_unfold, pipeline_timed_out.
  destruct (Z.leb_spec 10800 t); [lia|]. rewrite HT, exec_lambda.
  destruct (call_lambda handler fn input w t) as [[[v|e c] w'] t'] eqn:E.
  - apply call_lambda_ok in E as (p & w0 & -> & Hh).
    destruct input; try (left; do 4 eexists; reflexivity).
    rewrite apply_payload. right. eauto.
  - left. do 4 eexists. reflexivity.
Qed.

(** The route through detection and correction, when every function
    answers at once. *)
Lemma detect_route_run f fs fs1 fs2 fs3 p4 w w1 w2 w3 w4 :
  handler pdfToImagesFunction (JObj fs) w = (TOk (JObj fs1), w1) ->
  lookup_field "skipRotation" fs1 = None ->
  handler analyzeDocumentImagesFunction (JObj fs1) w1 = (TOk (JObj fs2), w2) ->
  handler correctImageOrientationFunction (JObj fs2) w2 = (TOk (JObj fs3), w3) ->
  handler imagesToPdfFunction (JObj fs3) w3 = (TOk p4, w4) ->
  prun (6 + f) pdfToImagesTask (JObj fs) 0 w =
  mkResult (Succeeded p4) detectRoute 5 w4.
Proof.
  intros H1 Hs H2 H3 H4. change (6 + f)%nat with (S (S (S (S (S (S f)))))).
  rewrite (lambda_ok_step pdfToImagesTask pdfToImagesFunction
             (Some "Skip Rotation Choice") (S (S (S (S (S f))))) fs 0 w (JObj fs1) w1
             pipeline_split ltac:(lia) H1).
  cbn [continue]. rewrite choice_run by lia.
  unfold is_present. cbn [jget jstep]. rewrite Hs.
  rewrite (lambda_ok_step analyzeDocumentImagesTask analyzeDocumentImagesFunction
             (Some correctImageOrientationTask) (S (S (S f))) fs1 0 w1 (JObj fs2) w2
             pipeline_analyze ltac:(lia) H2).
  cbn [continue].
  rewrite (lambda_ok_step correctImageOrientationTask correctImageOrientationFunction
             (Some "Wait 5 seconds") (S (S f)) fs2 0 w2 (JObj fs3) w3
             pipeline_correct ltac:(lia) H3).
  cbn [continue]. rewrite wait5_run by lia.
  rewrite (lambda_ok_step imagesToPdfTask imagesToPdfFunction None f fs3 (0 + 5) w3
             p4 w4 pipeline_images ltac:(lia) H4).
  reflexivity.
Qed.

(** The route past them. *)
Lemma skip_route_run f fs fs1 flag p4 w w1 w4 :
  handler pdfToImagesFunction (JObj fs) w = (TOk (JObj fs1), w1) ->
  lookup_field "skipRotation" fs1 = Some flag ->
  handler imagesToPdfFunction (JObj fs1) w1 = (TOk p4, w4) ->
  prun (4 + f) pdfToImagesTask (JObj fs) 0 w =
  mkResult (Succeeded p4) skipRoute 0 w4.
Proof.
  intros H1 Hs H4. change (4 + f)%nat with (S (S (S (S f)))).
  rewrite (lambda_ok_step pdfToImagesTask pdfToImagesFunction
             (Some "Skip Rotation Choice") (S (S (S f))) fs 0 w (JObj fs1) w1
             pipeline_split ltac:(lia) H1).
  cbn [continue]. rewrite choice_run by lia.
  unfold is_present. cbn [jget jstep]. rewrite Hs.
  rewrite skip_run by lia.
  rewrite (lambda_ok_step imagesToPdfTask imagesToPdfFunction None f fs1 0 w1
             p4 w4 pipeline_images ltac:(lia) H4).
  reflexivity.
Qed.
End PipelineRuns.

Lemma along_entered {W} n route (r : @result W) :
  along route r -> along (n :: route) (entered n r).
Proof.
  intros [Ho [k Hk]]. split; [exact Ho|]. exists (S k). cbn. now rewrite Hk.
Qed.

Lemma along_stop {W} route (o : outcome) t (w : W) :
  o <> OutOfFuel -> along route (mkResult o [] t w).
Proof. intros Ho. split; [exact Ho|]. now exists O. Qed.

Lemma along_failed {W} n route e c t (w : W) :
  along (n :: route) (mkResult (Failed e c) [n] t w).
Proof. split; [discriminate|]. now exists 1%nat. Qed.

Section PipelineEnds.
Context {W : Type}.
Variable handler : string -> json -> W -> task_result * W.
Variable ctx : json.

Abbreviation prun' := (run (LambdaService.invoke handler) [] correctPdfMachine ctx).

Lemma images_along f p t w : along [imagesToPdfTask] (prun' (S f) imagesToPdfTask p t w).
Proof.
  destruct (Z.lt_ge_cases t 10800) as [Ht|Ht].
  2:{ rewrite late_run by lia. now apply along_stop. }
  destruct (lambda_step_ends handler ctx imagesToPdfTask imagesToPdfFunction None f p t w
              pipeline_images Ht) as [(e & c & t' & w' & ->)|(q & w' & t' & ->)].
  - apply along_failed.
  - apply along_entered. cbn. now apply along_stop.
Qed.

Lemma skip_along f p t w :
  along ["Skip Fixing Rotation"; imagesToPdfTask]
    (prun' (S (S f)) "Skip Fixing Rotation" p t w).
Proof.
  destruct (Z.lt_ge_cases t 10800) as [Ht|Ht].
  2:{ rewrite late_run by lia. now apply along_stop. }
  rewrite skip_run by lia. apply along_entered, images_along.
Qed.

Lemma wait_along f p t w :
  along ["Wait 5 seconds"; imagesToPdfTask] (prun' (S (S f)) "Wait 5 seconds" p t w).
Proof.
  destruct (Z.lt_ge_cases t 10800) as [Ht|Ht].
  2:{ rewrite late_run by lia. now apply along_stop. }
  rewrite wait5_run by lia. apply along_entered, images_along.
Qed.

Lemma correct_along f p t w :
  along [correctImageOrientationTask; "Wait 5 seconds"; imagesToPdfTask]
    (prun' (S (S (S f))) correctImageOrientationTask p t w).
Proof.
  destruct (Z.lt_ge_cases t 10800) as [Ht|Ht].
  2:{ rewrite late_run by lia. now apply along_stop. }
  destruct (lambda_step_ends handler ctx correctImageOrientationTask
              correctImageOrientationFunction (Some "Wait 5 seconds") (S (S f)) p t w
              pipeline_correct Ht) as [(e & c & t' & w' & ->)|(q & w' & t' & ->)].
  - apply along_failed.
  - apply along_entered. cbn [continue]. apply wait_along.
Qed.

Lemma analyze_along f p t w :
  along [analyzeDocumentImagesTask; correctImageOrientationTask; "Wait 5 seconds";
         imagesToPdfTask]
    (prun' (S (S (S (S f)))) analyzeDocumentImagesTask p t w).
Proof.
  destruct (Z.lt_ge_cases t 10800) as [Ht|Ht].
  2:{ rewrite late_run by lia. now apply along_stop. }
  destruct (lambda_step_ends handler ctx analyzeDocumentImagesTask
              analyzeDocumentImagesFunction (Some correctImageOrientationTask)
              (S (S (S f))) p t w pipeline_analyze Ht)
    as [(e & c & t' & w' & ->)|(q & w' & t' & ->)].
  - apply along_failed.
  - apply along_entered. cbn [continue]. apply correct_along.
Qed.

Lemma pipeline_along f input w :
  along skipRoute (prun' (6 + f) pdfToImagesTask input 0 w) \/
  along detectRoute (prun' (6 + f) pdfToImagesTask input 0 w).
Proof.
  change (6 + f)%nat with (S (S (S (S (S (S f)))))).
  destruct (lambda_step_ends handler ctx pdfToImagesTask pdfToImagesFunction
              (Some "Skip Rotation Choice") (S (S (S (S (S f))))) input 0 w
              pipeline_split ltac:(lia))
    as [(e & c & t' & w' & ->)|(p & w' & t' & ->)].
  { left. apply along_failed. }
  cbn [continue].
  destruct (Z.lt_ge_cases t' 10800) as [Ht|Ht].
  2:{ rewrite late_run by lia. left. apply along_entered. now apply along_stop. }
  rewrite choice_run by lia.
  destruct (is_present [Field "skipRotation"] p).
  - left. do 2 apply along_entered. apply (skip_along (S (S f))).
  - right. do 2 apply along_entered. apply analyze_along.
Qed.
End PipelineEnds.

(** X9.  The pipeline has no loop: with fuel for six states every
    execution ends, and the states it went through are an initial part of
    one of its two routes, the one past the correction or the one through
    it. *)
Theorem pipeline_always_ends {W} (handler : string -> json -> W -> task_result * W)
    name fuel input w :
  (6 <= fuel)%nat ->
  let r := runCorrectPdf handler name fuel input w in
  res_outcome r <> OutOfFuel /\
  exists k,
    res_trace r = firstn k [pdfToImagesTask; "Skip Rotation Choice";
                            "Skip Fixing Rotation"; imagesToPdfTask] \/
    res_trace r = firstn k [pdfToImagesTask; "Skip Rotation Choice";
                            analyzeDocumentImagesTask; correctImageOrientationTask;
                            "Wait 5 seconds"; imagesToPdfTask].
Proof.
  intros Hf r. subst r. unfold runCorrectPdf, execute. rewrite pipeline_startAt.
  replace fuel with (6 + (fuel - 6))%nat by lia.
  destruct (pipeline_along handler (context name input) (fuel - 6) input w)
    as [[Ho [k Hk]]|[Ho [k Hk]]]; (split; [exact Ho|]); exists k; [left|right]; exact Hk.
Qed.

Lemma pipeline_always_ends_witness :
  res_outcome (runCorrectPdf rejecting "exec-1" 6 aPdf tt) <> OutOfFuel.
Proof.
  destruct (pipeline_always_ends rejecting "exec-1" 6 aPdf tt ltac:(lia)) as [H _].
  exact H.
Defined.

(** X10.  The route through the correction: when each function answers
    at once, with an object, the event that is the payload of the function
    before it (the input, for the page split), and the payload of the page
    split has no [skipRotation] field, the execution goes through the six
    states of the route, succeeds with what the recombination returned,
    and its clock shows the wait of 5 seconds and nothing else. *)
Theorem pipeline_corrects {W} (handler : string -> json -> W -> task_result * W)
    name fuel fs fs1 fs2 fs3 p4 w w1 w2 w3 w4 :
  (6 <= fuel)%nat ->
  handler pdfToImagesFunction (JObj fs) w = (TOk (JObj fs1), w1) ->
  lookup_field "skipRotation" fs1 = None ->
  handler analyzeDocumentImagesFunction (JObj fs1) w1 = (TOk (JObj fs2), w2) ->
  handler correctImageOrientationFunction (JObj fs2) w2 = (TOk (JObj fs3), w3) ->
  handler imagesToPdfFunction (JObj fs3) w3 = (TOk p4, w4) ->
  runCorrectPdf handler name fuel (JObj fs) w =
  mkResult (Succeeded p4)
    [pdfToImagesTask; "Skip Rotation Choice"; analyzeDocumentImagesTask;
     correctImageOrientationTask; "Wait 5 seconds"; imagesToPdfTask]
    5 w4.
Proof.
  intros Hf H1 Hs H2 H3 H4. unfold runCorrectPdf, execute. rewrite pipeline_startAt.
  replace fuel with (6 + (fuel - 6))%nat by lia.
  now apply (detect_route_run handler _ _ fs fs1 fs2 fs3 p4 w w1 w2 w3 w4).
Qed.

Lemma pipeline_corrects_witness :
  runCorrectPdf echo "exec-1" 6 aPdf tt =
  mkResult (Succeeded aPdf)
    [pdfToImagesTask; "Skip Rotation Choice"; analyzeDocumentImagesTask;
     correctImageOrientationTask; "Wait 5 seconds"; imagesToPdfTask]
    5 tt.
Proof.
  apply (pipeline_corrects echo "exec-1" 6 [("key", JStr "a.pdf")]
           [("key", JStr "a.pdf")] [("key", JStr "a.pdf")] [("key", JStr "a.pdf")]
           aPdf tt tt tt tt tt); [lia | reflexivity..].
Defined.

(** X11.  The route past the correction: when the payload of the page
    split has a [skipRotation] field, whatever its value, and the
    recombination answers that payload at once, the execution goes through
    the four states of the route, succeeds with what the recombination
    returned, and its clock shows no wait. *)
Theorem pipeline_skips {W} (handler : string -> json -> W -> task_result * W)
    name fuel fs fs1 flag p4 w w1 w4 :
  (4 <= fuel)%nat ->
  handler pdfToImagesFunction (JObj fs) w = (TOk (JObj fs1), w1) ->
  lookup_field "skipRotation" fs1 = Some flag ->
  handler imagesToPdfFunction (JObj fs1) w1 = (TOk p4, w4) ->
  runCorrectPdf handler name fuel (JObj fs) w =
  mkResult (Succeeded p4)
    [pdfToImagesTask; "Skip Rotation Choice"; "Skip Fixing Rotation"; imagesToPdfTask]
    0 w4.
Proof.
  intros Hf H1 Hs H4. unfold runCorrectPdf, execute. rewrite pipeline_startAt.
  replace fuel with (4 + (fuel - 4))%nat by lia.
  now apply (skip_route_run handler _ _ fs fs1 flag p4 w w1 w4).
Qed.

Lemma pipeline_skips_witness :
  runCorrectPdf echo "exec-1" 4 aPdfSkipped tt =
  mkResult (Succeeded aPdfSkipped)
    [pdfToImagesTask; "Skip Rotation Choice"; "Skip Fixing Rotation"; imagesToPdfTask]
    0 tt.
Proof.
  apply (pipeline_skips echo "exec-1" 4
           [("key", JStr "a.pdf"); ("skipRotation", JBool true)]
           [("key", JStr "a.pdf"); ("skipRotation", JBool true)] (JBool true)
           aPdfSkipped tt tt tt); [lia | reflexivity..].
Defined.


(** ** The Lambda steps: retries *)

Section Backoff.
Context {W : Type}.
Variable handler : string -> json -> W -> task_result * W.
Variables (fn : string) (event : json).

Abbreviation act :=
  (LambdaService.invoke handler (LambdaInvoke fn) (lambda_request fn event)).

Lemma act_handler w t :
  act w t = (lambda_answer (handler fn event w).1, (handler fn event w).2, t).
Proof.
  unfold LambdaService.invoke, instant, lambda_request.
  cbn [jget jstep lookup_field String.eqb Ascii.eqb Bool.eqb].
  destruct (handler fn event w) as [[p|e c] w']; reflexivity.
Qed.

Lemma retry_loop k : forall j b w wk t,
  (j + k <= 6)%nat -> (k <= b)%nat ->
  service_errors (handler fn event) k w = Some wk ->
  with_retry b [lambdaServiceRetry] [j] act w t =
  with_retry (b - k) [lambdaServiceRetry] [(j + k)%nat] act wk
    (t + 2 * 2 ^ Z.of_nat j * (2 ^ Z.of_nat k - 1)).
Proof.
  induction k as [|k IH]; intros j b w wk t Hj Hb Hs.
  - cbn in Hs. injection Hs as <-. rewrite Nat.sub_0_r, Nat.add_0_r.
    f_equal. cbn. lia.
  - cbn [service_errors] in Hs.
    destruct (handler fn event w) as [[p|e c] w1] eqn:Eh; [discriminate Hs|].
    destruct (error_matches (errorEquals lambdaServiceRetry) e) eqn:Em;
      [|discriminate Hs].
    destruct b as [|b]; [lia|].
    cbn [with_retry]. rewrite act_handler, Eh. cbn [fst snd lambda_answer].
    cbn [find_retrier]. rewrite Em.
    assert (Hlt : (j <? maxAttempts lambdaServiceRetry)%nat = true)
      by (apply Nat.ltb_lt; cbn; lia).
    rewrite Hlt. cbn [bump intervalSeconds backoffRate lambdaServiceRetry].
    rewrite (IH (S j) b w1 wk _ ltac:(lia) ltac:(lia) Hs).
    replace (S j + k)%nat with (j + S k)%nat by lia.
    replace (S b - S k)%nat with (b - k)%nat by lia.
    f_equal.
    rewrite !Nat2Z.inj_succ, !Z.pow_succ_r by lia. ring.
Qed.

Lemma retry_last j b w t r w' :
  handler fn event w = (r, w') ->
  j = 6%nat \/ (forall e c, r = TErr e c ->
                  error_matches (errorEquals lambdaServiceRetry) e = false) ->
  with_retry b [lambdaServiceRetry] [j] act w t = (lambda_answer r, w', t).
Proof.
  intros Hh Hend.
  destruct b as [|b]; cbn [with_retry]; rewrite act_handler, Hh; cbn [fst snd].
  - destruct r; reflexivity.
  - destruct r as [p|e c]; [reflexivity|]. cbn [lambda_answer find_retrier].
    destruct (error_matches (errorEquals lambdaServiceRetry) e) eqn:Em;
      [|reflexivity].
    destruct Hend as [->|Hend]; [reflexivity|].
    rewrite (Hend e c eq_refl) in Em. discriminate Em.
Qed.
End Backoff.

(** X12.  The retries of the step [getLambdaInvokeTask] creates, in a
    machine whose definition is that step: when the first [k <= 6] calls
    of the function raise a Lambda service exception, the step calls it
    once more and the answer of that call ends the execution (a payload
    as its output; an error the retrier does not accept, or at the seventh
    call any error, as its failure), after waits of 2 + 4 + ... + 2^k,
    that is [2 * (2^k - 1)], seconds in all, which are to fit in the
    timeout of the machine. *)
Theorem lambda_retry_backoff {W} (handler : string -> json -> W -> task_result * W)
    fn (g g' g'' : scope) c timeout m sched ctx fuel fs k w wk r w' :
  LambdaHelper.getLambdaInvokeTask fn g = Some (c, g') ->
  new_StateMachine c timeout g' = Some (m, g'') ->
  (k <= 6)%nat ->
  2 * (2 ^ Z.of_nat k - 1) < timeout ->
  service_errors (handler fn (JObj fs)) k w = Some wk ->
  handler fn (JObj fs) wk = (r, w') ->
  k = 6%nat \/ (forall e c, r = TErr e c ->
                  error_matches (errorEquals lambdaServiceRetry) e = false) ->
  execute (LambdaService.invoke handler) sched m ctx (S fuel) (JObj fs) w
  = mkResult (task_outcome r) [chainStart c] (2 * (2 ^ Z.of_nat k - 1)) w'.
Proof.
  intros Hg Hm Hk Ht Hs Hh Hend.
  assert (Hpos : 0 < 2 ^ Z.of_nat k) by (apply Z.pow_pos_nonneg; lia).
  unfold LambdaHelper.getLambdaInvokeTask, new_LambdaInvoke, construct in Hg.
  destruct (g !! _) eqn:E; [discriminate Hg|]. injection Hg as <- <-.
  unfold new_StateMachine in Hm. injection Hm as <- <-.
  unfold execute. cbn [startAt chainStart]. rewrite run_unfold.
  unfold timed_out. cbn [timeoutSeconds].
  destruct (Z.leb_spec timeout 0); [lia|]. cbn [states].
  match goal with
  | |- match ?x with _ => _ end = _ =>
      assert (Hx : x = Some (Task (lambdaTask fn) None)) by apply lookup_insert_eq;
      rewrite Hx; clear Hx
  end.
  rewrite exec_lambda.
  unfold call_lambda.
  rewrite (retry_loop handler fn (JObj fs) k 0 6 w wk 0 ltac:(lia) Hk Hs).
  rewrite (retry_last handler fn (JObj fs) _ _ _ _ r w' Hh).
  2:{ destruct Hend as [->|Hend]; [now left | now right]. }
  replace (0 + 2 * 2 ^ Z.of_nat 0 * (2 ^ Z.of_nat k - 1))
    with (2 * (2 ^ Z.of_nat k - 1)) by (cbn [Z.of_nat Z.pow]; lia).
  destruct r as [p|e c0]; cbn [lambda_answer task_outcome].
  - rewrite apply_payload. reflexivity.
  - reflexivity.
Qed.

Lemma lambda_retry_backoff_witness :
  execute (LambdaService.invoke flaky) []
    (mkMachine pdfToImagesTask
       (<[pdfToImagesTask := Task (lambdaTask pdfToImagesFunction) None]> ∅)
       (Some (minutes 180)))
    JNull 1 aPdf O
  = mkResult (Succeeded aPdf) [pdfToImagesTask] 2 2%nat.
Proof.
  apply (lambda_retry_backoff flaky pdfToImagesFunction ∅
           (<[pdfToImagesTask := Task (lambdaTask pdfToImagesFunction) None]> ∅)
           (<[pdfToImagesTask := Task (lambdaTask pdfToImagesFunction) None]> ∅)
           (mkChain pdfToImagesTask [pdfToImagesTask]) (minutes 180) _ [] JNull O
           [("key", JStr "a.pdf")] 1 O 1%nat (TOk aPdf) 2%nat).
  - vm_compute. reflexivity.
  - reflexivity.
  - lia.
  - reflexivity.
  - reflexivity.
  - reflexivity.
  - right. intros e c H. discriminate H.
Defined.


(** ** The constructs of the helpers, and the graphs *)

(** X13.  [getLambdaInvokeTask] creates one task for a function: the
    chain it returns starts and ends at the task, and a second call for
    the same function in the same scope fails on the id that is taken. *)
Theorem invoke_task_once fn (g g' : scope) c :
  LambdaHelper.getLambdaInvokeTask fn g = Some (c, g') ->
  chainStart c = Str.replace_first "Function" "Task" fn /\
  chainEnds c = [chainStart c] /\
  LambdaHelper.getLambdaInvokeTask fn g' = None.
Proof.
  unfold LambdaHelper.getLambdaInvokeTask, new_LambdaInvoke, construct.
  destruct (g !! _) eqn:Eg; [discriminate|]. intros [= <- <-].
  cbn [chainStart chainEnds]. split; [reflexivity|]. split; [reflexivity|].
  match goal with
  | |- match ?x with _ => _ end = _ =>
      assert (Hx : exists st, x = Some st) by (eexists; apply lookup_insert_eq);
      destruct Hx as [st ->]
  end.
  reflexivity.
Qed.

Lemma invoke_task_once_witness :
  LambdaHelper.getLambdaInvokeTask pdfToImagesFunction
    (<[pdfToImagesTask := Task (lambdaTask pdfToImagesFunction) None]> ∅) = None.
Proof.
  assert (H : LambdaHelper.getLambdaInvokeTask pdfToImagesFunction ∅
              = Some (mkChain pdfToImagesTask [pdfToImagesTask],
                      <[pdfToImagesTask := Task (lambdaTask pdfToImagesFunction) None]> ∅))
    by (vm_compute; reflexivity).
  exact (proj2 (proj2 (invoke_task_once pdfToImagesFunction ∅ _ _ H))).
Defined.

(** X14.  A step that [getStateMachineExecution] creates starts its
    machine on what the input path selects ([$.Input] by default), has no
    retry and no catch, and leaves the started execution's description as
    the whole record: [$.results] is both the result path and the output
    path. *)
Theorem execution_step_output sid sm ip (g g' : scope) c fs v ctx :
  Assignments.getStateMachineExecution sid sm ip g = Some (c, g') ->
  exists spec,
    g' !! sid = Some (Task spec None) /\
    taskResource spec = StartExecution sm /\
    taskRetry spec = [] /\ taskCatch spec = [] /\
    (forall d,
       task_request spec d ctx
       = option_map (fun i => JObj [("Input", i); ("StateMachineArn", JStr sm)])
           (eval_expr (default "$.Input" ip) d ctx)) /\
    apply_result (JObj fs) v (taskResultSelector spec) (taskResultPath spec)
      (taskOutputPath spec) ctx = Some v.
Proof.
  unfold Assignments.getStateMachineExecution, new_StepFunctionsStartExecution, construct.
  destruct (g !! sid) eqn:Eg; [discriminate|]. intros [= <- <-].
  eexists. split; [apply lookup_insert_eq|].
  cbn [taskResource taskRetry taskCatch taskResultSelector taskResultPath taskOutputPath].
  repeat (split; [reflexivity|]). split.
  - intros d. unfold task_request. cbn [taskParameters eval_tmpl].
    destruct (eval_expr (default "$.Input" ip) d ctx); reflexivity.
  - cbn. now rewrite lookup_set_eq.
Qed.

Lemma execution_step_output_witness :
  exists spec,
    task_request spec (JObj [("Input", aPdf); ("scriptsKey", JStr "a.pdf")]) JNull
    = Some (JObj [("Input", aPdf); ("StateMachineArn", JStr "Machine")]) /\
    apply_result (JObj [("Input", aPdf); ("scriptsKey", JStr "a.pdf")]) (JStr "done")
      (taskResultSelector spec) (taskResultPath spec) (taskOutputPath spec) JNull
    = Some (JStr "done").
Proof.
  assert (H : Assignments.getStateMachineExecution "Step" "Machine" None ∅
              = Some (mkChain "Step" ["Step"],
                      <["Step" := Task (startTask "Machine" "$.Input") None]> ∅))
    by (vm_compute; reflexivity).
  destruct (execution_step_output "Step" "Machine" None ∅ _ _
              [("Input", aPdf); ("scriptsKey", JStr "a.pdf")] (JStr "done") JNull H)
    as (spec & _ & _ & _ & _ & Hreq & Hout).
  exists spec. split; [|exact Hout]. rewrite Hreq. reflexivity.
Defined.

(** X15.  What a successful runner reports is what it asked for: the
    request it submitted reads the document [key] from the source bucket
    and sets the output prefix [key] in the destination bucket, and the
    reported prefix is that prefix, a slash and the reported job id. *)
Theorem reported_prefix_matches_request src dst name fuel input w o :
  res_outcome (runTextract src dst name fuel input w) = Succeeded o ->
  exists request k,
    task_request (submitTask src dst) input (context name input) = Some request /\
    jget [Field "DocumentLocation"; Field "S3Object"; Field "Bucket"] request
    = Some (JStr src) /\
    jget [Field "DocumentLocation"; Field "S3Object"; Field "Name"] request
    = Some (JStr k) /\
    jget [Field "OutputConfig"; Field "S3Bucket"] request = Some (JStr dst) /\
    jget [Field "OutputConfig"; Field "S3Prefix"] request = Some (JStr k) /\
    jget [Field "JobId"] o = Some (JStr (job name w)) /\
    jget [Field "textractPrefix"] o = Some (JStr (k +:+ "/" +:+ job name w)).
Proof.
  intros H. apply runner_success_inv in H as (k & n & Hk & _ & _ & _ & ->).
  eexists. exists k. rewrite submit_request, Hk. split; [reflexivity|].
  repeat split.
Qed.

Lemma reported_prefix_matches_request_witness :
  exists k,
    jget [Field "textractPrefix"] (finished "a.pdf" "job-0")
    = Some (JStr (k +:+ "/" +:+ "job-0")).
Proof.
  destruct (reported_prefix_matches_request "pdf-destination" "pdf-destination" "exec-1"
              8 aPdf (textractWith ["IN_PROGRESS"; "SUCCEEDED"])
              (finished "a.pdf" "job-0") eq_refl)
    as (request & k & _ & _ & _ & _ & _ & _ & H).
  exists k. exact H.
Defined.

Lemma pipeline_transitions s s' :
  transition correctPdfMachine s s' <-> In (s, s') pipeline_edges.
Proof.
  split.
  - intros (st & H & Hin). apply elem_of_map_to_list in H.
    vm_compute map_to_list in H.
    repeat (apply elem_of_cons in H as [H|H];
            [inversion H; subst; cbn in Hin; unfold pipeline_edges; cbn;
             intuition (subst; auto 10)|]).
    inversion H.
  - unfold pipeline_edges. cbn.
    intros [H|[H|[H|[H|[H|[H|[H|[]]]]]]]]; inversion H; subst.
    + eexists. split; [apply pipeline_split|]. cbn; auto.
    + eexists. split; [apply pipeline_choice|]. cbn; auto.
    + eexists. split; [apply pipeline_choice|]. cbn; auto.
    + eexists. split; [apply pipeline_skip|]. cbn; auto.
    + eexists. split; [apply pipeline_analyze|]. cbn; auto.
    + eexists. split; [apply pipeline_correct|]. cbn; auto.
    + eexists. split; [apply pipeline_wait|]. cbn; auto.
Qed.

Lemma pipeline_terminals s :
  terminal_state correctPdfMachine s <-> s = imagesToPdfTask.
Proof.
  split.
  - intros (st & H & Hout). apply elem_of_map_to_list in H.
    vm_compute map_to_list in H.
    repeat (apply elem_of_cons in H as [H|H];
            [inversion H; subst; cbn in Hout; try discriminate; auto|]).
    inversion H.
  - intros ->. eexists. split; [apply pipeline_images|]. reflexivity.
Qed.

(** X16.  The graph of the pipeline: it starts at the page split, its
    transitions are the seven of [pipeline_edges] (both routes of the
    choice lead to the recombination), the recombination is its only state
    without a successor, and its timeout is 180 minutes. *)
Theorem pipeline_transition_relation :
  startAt correctPdfMachine = pdfToImagesTask /\
  (forall s s', transition correctPdfMachine s s' <-> In (s, s') pipeline_edges) /\
  (forall s, terminal_state correctPdfMachine s <-> s = imagesToPdfTask) /\
  timeoutSeconds correctPdfMachine = Some (60 * 180).
Proof.
  split; [reflexivity|]. split; [apply pipeline_transitions|].
  split; [apply pipeline_terminals | reflexivity].
Qed.


(** ** The orchestrator: every execution *)

Section FlowLemmas.
Context {W : Type}.
Variable handler : string -> json -> W -> task_result * W.
Variables transformFormResult generateMarkResult : json -> outcome * Z.
Variable pdfDestinationBucket : string.
Variable executionName : nat -> string.
Variables (sched : list nat) (ctx : json).
Variable E : string * json * list string -> Prop.

Abbreviation sinvoke :=
  (StepFunctionsService.invoke handler transformFormResult generateMarkResult
     pdfDestinationBucket executionName).
Abbreviation srun := (run sinvoke sched assignmentsMachine ctx).
Abbreviation startExec :=
  (StepFunctionsService.startExecution handler transformFormResult generateMarkResult
     pdfDestinationBucket executionName).
Abbreviation FlowAt := (Flow sinvoke sched ctx E).
Abbreviation Log := (started_ok (W:=W) E).
Abbreviation log := StepFunctionsService.executions.

Lemma report_ok name inp o v :
  StepFunctionsService.report name inp o = TOk v ->
  exists out, o = Succeeded out /\ v = StepFunctionsService.describe name inp out.
Proof. destruct o; cbn; intros H; inversion H. eauto. Qed.

(** What starting an execution does to the record of executions, and
    what it returns when the execution succeeds. *)
Lemma start_result sm inp w t :
  let '(r, w', t') := startExec sm inp w t in
  (log w' = log w \/ exists tr, log w' = log w ++ [(sm, inp, tr)]) /\
  forall v, r = TOk v ->
    (exists tr, log w' = log w ++ [(sm, inp, tr)]) /\
    exists name out,
      v = StepFunctionsService.describe name inp out /\
      sub_output transformFormResult generateMarkResult sm inp out.
Proof.
  unfold StepFunctionsService.startExecution.
  destruct (String.eqb_spec sm Assignments.correctPdfOrientationStateMachine) as [->|N1].
  { cbn [log]. split; [right; eauto|]. intros v Hv. split; [eauto|].
    apply report_ok in Hv as (out & _ & ->). do 2 eexists. split; [reflexivity|].
    repeat split; intros H; discriminate H. }
  destruct (String.eqb_spec sm Assignments.amazonTextractMultiPagesDocumentsStateMachine)
    as [->|N2].
  { cbn [log]. split; [right; eauto|]. intros v Hv. split; [eauto|].
    apply report_ok in Hv as (out & Hout & ->). do 2 eexists. split; [reflexivity|].
    apply runner_success_inv in Hout as (k & n & Hk & _ & _ & _ & ->).
    repeat split; try (intros H; discriminate H). intros _. eauto. }
  destruct (String.eqb_spec sm Assignments.transformFormResultStateMachine) as [->|N3].
  { cbn [log]. split; [right; eauto|]. intros v Hv. split; [eauto|].
    apply report_ok in Hv as (out & Hout & ->). do 2 eexists. split; [reflexivity|].
    repeat split; try (intros H; discriminate H). intros _. exact Hout. }
  destruct (String.eqb_spec sm Assignments.generateMarkResultStateMachine) as [->|N4].
  { cbn [log]. split; [right; eauto|]. intros v Hv. split; [eauto|].
    apply report_ok in Hv as (out & Hout & ->). do 2 eexists. split; [reflexivity|].
    repeat split; try (intros H; discriminate H). intros _. exact Hout. }
  split; [now left|]. intros v Hv. discriminate Hv.
Qed.

Lemma invoke_start sm inp w t :
  sinvoke (StartExecution sm) (JObj [("Input", inp); ("StateMachineArn", JStr sm)]) w t
  = startExec sm inp w t.
Proof. reflexivity. Qed.

Lemma apply_results_inv d v out :
  apply_result d v None "$.results" "$.results" ctx = Some out -> out = v.
Proof.
  destruct d; cbn; try discriminate. rewrite lookup_set_eq. now intros [= ->].
Qed.

Lemma flow_continue Q Post n nxt f d t w :
  flow_next sinvoke sched ctx E Q Post n nxt ->
  Q d -> Log w ->
  let r := continue (srun f) nxt d t w in
  Log (res_world r) /\
  (length (log (res_world r)) <= length (log w) + n)%nat /\
  forall o, res_outcome r = Succeeded o ->
    Post o /\ length (log (res_world r)) = (length (log w) + n)%nat.
Proof.
  destruct nxt as [x|]; cbn [flow_next continue].
  - intros H Hd Hw. now apply H.
  - intros [-> HQ] Hd Hw. cbn. split; [exact Hw|]. split; [lia|].
    intros o [= <-]. split; [now apply HQ | lia].
Qed.

(** A step that starts an execution. *)
Lemma task_flow (P Q Post : json -> Prop) n T sm ip nxt :
  states assignmentsMachine !! T = Some (Task (startTask sm ip) nxt) ->
  (forall d inp tr, P d -> eval_expr ip d ctx = Some inp -> E (sm, inp, tr)) ->
  (forall d inp name out,
     P d -> eval_expr ip d ctx = Some inp ->
     sub_output transformFormResult generateMarkResult sm inp out ->
     Q (StepFunctionsService.describe name inp out)) ->
  flow_next sinvoke sched ctx E Q Post n nxt ->
  FlowAt P Post (S n) T.
Proof.
  intros HT HE HQ Hnext f d t w Hd Hw.
  assert (Hstay : forall o t0,
            let r := mkResult o [] t0 w in
            (forall x, o <> Succeeded x) ->
            Log (res_world r) /\
            (length (log (res_world r)) <= length (log w) + S n)%nat /\
            forall o', res_outcome r = Succeeded o' ->
              Post o' /\ length (log (res_world r)) = (length (log w) + S n)%nat).
  { intros o t0 r Ho. cbn. split; [exact Hw|]. split; [lia|].
    intros o' E'. now contradiction (Ho o'). }
  destruct f as [|f]; [apply Hstay; discriminate|].
  cbv zeta. rewrite run_unfold, orchestrator_timed_out.
  destruct (10800 <=? t); [apply Hstay; discriminate|]. rewrite HT.
  cbn [exec startTask taskParameters taskRetry taskResource taskCatch
       taskResultSelector taskResultPath taskOutputPath eval_tmpl retry_budget
       fold_right map].
  destruct (eval_expr ip d ctx) as [inp|] eqn:Einp;
    [|cbn [option_map entered res_world res_outcome runtime_error];
      split; [exact Hw|]; split; [lia|]; intros o' E'; discriminate E'].
  cbn [option_map]. rewrite with_retry_nil, invoke_start.
  pose proof (start_result sm inp w t) as Hs.
  destruct (startExec sm inp w t) as [[r w'] t']. destruct Hs as [Hlog Hok].
  assert (Hw' : Log w' /\ (length (log w') <= length (log w) + 1)%nat).
  { destruct Hlog as [Hl|[tr Hl]]; unfold started_ok; rewrite Hl.
    - split; [exact Hw | lia].
    - split; [|rewrite length_app; cbn; lia].
      apply Forall_app. split; [exact Hw|]. constructor; [|constructor].
      now apply (HE d). }
  destruct Hw' as [Hw' Hlen].
  destruct r as [v|e c].
  2:{ cbn [find_catcher find entered res_world res_outcome].
      split; [exact Hw'|]. split; [lia|]. intros o' E'. discriminate E'. }
  destruct (Hok v eq_refl) as ([tr Hl] & name & out & -> & Hsub).
  destruct (apply_result d _ None "$.results" "$.results" ctx) as [rec|] eqn:Eres.
  2:{ cbn [entered res_world res_outcome runtime_error].
      split; [exact Hw'|]. split; [lia|]. intros o' E'. discriminate E'. }
  apply apply_results_inv in Eres as ->.
  destruct (flow_continue Q Post n nxt f
              (StepFunctionsService.describe name inp out) t' w' Hnext
              (HQ d inp name out Hd Einp Hsub) Hw') as (H1 & H2 & H3).
  cbn [entered res_world res_outcome].
  assert (Hl' : length (log w') = (length (log w) + 1)%nat)
    by (rewrite Hl, length_app; cbn; lia).
  split; [exact H1|]. split; [lia|].
  intros o' E'. destruct (H3 o' E') as [H4 H5]. split; [exact H4 | lia].
Qed.

(** A Pass state starts nothing and hands its record on. *)
Lemma pass_flow (P Q Post : json -> Prop) n T params rp nxt :
  states assignmentsMachine !! T = Some (Pass params rp (Some nxt)) ->
  (forall d v out,
     P d ->
     match params with Some p => eval_tmpl p d ctx | None => Some d end = Some v ->
     apply_result d v None rp "$" ctx = Some out -> Q out) ->
  FlowAt Q Post n nxt ->
  FlowAt P Post n T.
Proof.
  intros HT HQ Hnext f d t w Hd Hw.
  assert (Hstay : forall o t0,
            let r := mkResult o [] t0 w in
            (forall x, o <> Succeeded x) ->
            Log (res_world r) /\
            (length (log (res_world r)) <= length (log w) + n)%nat /\
            forall o', res_outcome r = Succeeded o' ->
              Post o' /\ length (log (res_world r)) = (length (log w) + n)%nat).
  { intros o t0 r Ho. cbn. split; [exact Hw|]. split; [lia|].
    intros o' E'. now contradiction (Ho o'). }
  destruct f as [|f]; [apply Hstay; discriminate|].
  cbv zeta. rewrite run_unfold, orchestrator_timed_out.
  destruct (10800 <=? t); [apply Hstay; discriminate|]. rewrite HT.
  cbn [exec].
  destruct (match params with Some p => eval_tmpl p d ctx | None => Some d end)
    as [v|] eqn:Ev;
    [|cbn [entered res_world res_outcome runtime_error];
      split; [exact Hw|]; split; [lia|]; intros o' E'; discriminate E'].
  destruct (apply_result d v None rp "$" ctx) as [out|] eqn:Eout;
    [|cbn [entered res_world res_outcome runtime_error];
      split; [exact Hw|]; split; [lia|]; intros o' E'; discriminate E'].
  cbn [continue entered res_world res_outcome].
  apply Hnext; [|exact Hw]. now apply (HQ d v out).
Qed.

(** The parallel state: both branches, then the fan-in and what follows. *)
Lemma parallel_flow (P PostS PostA Q Post : json -> Prop) :
  FlowAt P PostS 3 "ScriptsPass" ->
  FlowAt P PostA 3 "StandardAnswerPass" ->
  (forall d o0 o1, P d -> PostS o0 -> PostA o1 ->
     exists out, apply_result d (JArr [o0; o1]) (Some fanIn) "$" "$" ctx = Some out /\
                 Q out) ->
  FlowAt Q Post 1 "GenerateMarkResultStateMachineExecution" ->
  FlowAt P Post 7 "ProcessParallel".
Proof.
  intros HS HA Hfan Hnext f d t w Hd Hw.
  assert (Hstop : forall o tr t0 w0,
            Log w0 -> (length (log w0) <= length (log w) + 6)%nat ->
            (forall x, o <> Succeeded x) ->
            let r := mkResult o tr t0 w0 in
            Log (res_world r) /\
            (length (log (res_world r)) <= length (log w) + 7)%nat /\
            forall o', res_outcome r = Succeeded o' ->
              Post o' /\ length (log (res_world r)) = (length (log w) + 7)%nat).
  { intros o tr t0 w0 Hw0 Hlen Ho r. cbn. split; [exact Hw0|]. split; [lia|].
    intros o' E'. now contradiction (Ho o'). }
  destruct f as [|f]; [apply (Hstop _ [] t w Hw); [lia | discriminate]|].
  cbv zeta. rewrite run_unfold, orchestrator_timed_out.
  destruct (10800 <=? t); [apply (Hstop _ [] t w Hw); [lia | discriminate]|].
  rewrite orchestrator_parallel. cbn [exec length replicate].
  destruct (completion_order_two sched) as [Ho|Ho]; rewrite Ho;
    cbn [run_branches nth_error].
  - destruct (HS f d t w Hd Hw) as (Hw0 & Hl0 & Hs0).
    set (r0 := srun f "ScriptsPass" d t w) in *.
    destruct (res_outcome r0) as [o0| | |] eqn:E0;
      try (cbn [entered res_world res_outcome];
           apply (Hstop _ [] 0 _ Hw0); [lia | discriminate]).
    destruct (Hs0 o0 eq_refl) as [Hp0 Hl0'].
    cbn [run_branches nth_error].
    destruct (HA f d t (res_world r0) Hd Hw0) as (Hw1 & Hl1 & Hs1).
    set (r1 := srun f "StandardAnswerPass" d t (res_world r0)) in *.
    destruct (res_outcome r1) as [o1| | |] eqn:E1;
      try (cbn [entered res_world res_outcome];
           apply (Hstop _ [] 0 _ Hw1); [lia | discriminate]).
    destruct (Hs1 o1 eq_refl) as [Hp1 Hl1'].
    cbn [run_branches insert list_insert].
    destruct (Hfan d o0 o1 Hd Hp0 Hp1) as (out & -> & Hq).
    destruct (Hnext f out (Z.max (Z.max t (res_clock r0)) (res_clock r1))
                (res_world r1) Hq Hw1) as (H1 & H2 & H3).
    cbn [continue entered res_world res_outcome].
    split; [exact H1|]. split; [lia|].
    intros o' E'. destruct (H3 o' E') as [H4 H5]. split; [exact H4 | lia].
  - destruct (HA f d t w Hd Hw) as (Hw1 & Hl1 & Hs1).
    set (r1 := srun f "StandardAnswerPass" d t w) in *.
    destruct (res_outcome r1) as [o1| | |] eqn:E1;
      try (cbn [entered res_world res_outcome];
           apply (Hstop _ [] 0 _ Hw1); [lia | discriminate]).
    destruct (Hs1 o1 eq_refl) as [Hp1 Hl1'].
    cbn [run_branches nth_error].
    destruct (HS f d t (res_world r1) Hd Hw1) as (Hw0 & Hl0 & Hs0).
    set (r0 := srun f "ScriptsPass" d t (res_world r1)) in *.
    destruct (res_outcome r0) as [o0| | |] eqn:E0;
      try (cbn [entered res_world res_outcome];
           apply (Hstop _ [] 0 _ Hw0); [lia | discriminate]).
    destruct (Hs0 o0 eq_refl) as [Hp0 Hl0'].
    cbn [run_branches insert list_insert].
    destruct (Hfan d o0 o1 Hd Hp0 Hp1) as (out & -> & Hq).
    destruct (Hnext f out (Z.max (Z.max t (res_clock r1)) (res_clock r0))
                (res_world r0) Hq Hw0) as (H1 & H2 & H3).
    cbn [continue entered res_world res_outcome].
    split; [exact H1|]. split; [lia|].
    intros o' E'. destruct (H3 o' E') as [H4 H5]. split; [exact H4 | lia].
Qed.
End FlowLemmas.


Section KeyedFlow.
Context {W : Type}.
Variable handler : string -> json -> W -> task_result * W.
Variables transformFormResult generateMarkResult : json -> outcome * Z.
Variable pdfDestinationBucket : string.
Variable executionName : nat -> string.
Variables (sched : list nat) (ctx : json).
Variables ks ka : string.
Variable E : string * json * list string -> Prop.
Hypothesis HE : forall e, entry_ok transformFormResult ks ka e -> E e.

Abbreviation kinvoke :=
  (StepFunctionsService.invoke handler transformFormResult generateMarkResult
     pdfDestinationBucket executionName).
Abbreviation KFlow := (Flow kinvoke sched ctx E).
Abbreviation ktask :=
  (task_flow handler transformFormResult generateMarkResult pdfDestinationBucket
     executionName sched ctx E).
Abbreviation kpass :=
  (pass_flow handler transformFormResult generateMarkResult pdfDestinationBucket
     executionName sched ctx E).

Lemma transform_flow k T :
  states assignmentsMachine !! T
  = Some (Task (startTask Assignments.transformFormResultStateMachine "$.Output") None) ->
  k = ks \/ k = ka ->
  KFlow (fun d => exists j, jget [Field "Output"] d = Some (finished k j))
    (branch_output transformFormResult k) 1 T.
Proof.
  intros HT Hk.
  apply (ktask _ (branch_output transformFormResult k) _ O _ _ _ _ HT).
  - intros d inp tr [j Hj] Ei. change (jget [Field "Output"] d = Some inp) in Ei.
    apply HE. rewrite Hj in Ei. injection Ei as <-.
    repeat split; cbn [fst snd]; try (intros H; discriminate H).
    + intros [H|H]; discriminate H.
    + intros _. exists k, j. split; [exact Hk | reflexivity].
  - intros d inp name out [j Hj] Ei (_ & Hsub & _).
    change (jget [Field "Output"] d = Some inp) in Ei.
    rewrite Hj in Ei. injection Ei as <-.
    exists out. split; [reflexivity|]. exists j. now apply Hsub.
  - split; [reflexivity|]. auto.
Qed.

Lemma textract_flow k inp T nxt :
  states assignmentsMachine !! T
  = Some (Task (startTask Assignments.amazonTextractMultiPagesDocumentsStateMachine
                  "$.Input") (Some nxt)) ->
  jget [Field "key"] inp = Some (JStr k) ->
  expectedInput ks ka inp ->
  KFlow (fun d => exists j, jget [Field "Output"] d = Some (finished k j))
    (branch_output transformFormResult k) 1 nxt ->
  KFlow (fun d => jget [Field "Input"] d = Some inp)
    (branch_output transformFormResult k) 2 T.
Proof.
  intros HT Hk Hin Hnext.
  apply (ktask _ (fun d => exists j, jget [Field "Output"] d = Some (finished k j))
           _ 1%nat _ _ _ _ HT); [| |exact Hnext].
  - intros d inp' tr Hd Ei. change (jget [Field "Input"] d = Some inp') in Ei.
    rewrite Hd in Ei. injection Ei as <-. apply HE.
    repeat split; cbn [fst snd]; try (intros H; discriminate H).
    intros _. exact Hin.
  - intros d inp' name out Hd Ei (Hsub & _ & _).
    change (jget [Field "Input"] d = Some inp') in Ei.
    rewrite Hd in Ei. injection Ei as <-.
    destruct (Hsub eq_refl) as (k' & j & Hk' & ->).
    rewrite Hk in Hk'. injection Hk' as <-. now exists j.
Qed.

Lemma correct_flow k inp T nxt :
  states assignmentsMachine !! T
  = Some (Task (startTask Assignments.correctPdfOrientationStateMachine "$.Input")
            (Some nxt)) ->
  expectedInput ks ka inp ->
  KFlow (fun d => jget [Field "Input"] d = Some inp)
    (branch_output transformFormResult k) 2 nxt ->
  KFlow (fun d => jget [Field "Input"] d = Some inp)
    (branch_output transformFormResult k) 3 T.
Proof.
  intros HT Hin Hnext.
  apply (ktask _ (fun d => jget [Field "Input"] d = Some inp)
           _ 2%nat _ _ _ _ HT); [| |exact Hnext].
  - intros d inp' tr Hd Ei. change (jget [Field "Input"] d = Some inp') in Ei.
    rewrite Hd in Ei. injection Ei as <-. apply HE.
    repeat split; cbn [fst snd]; try (intros H; discriminate H).
    intros _. exact Hin.
  - intros d inp' name out Hd Ei _.
    change (jget [Field "Input"] d = Some inp') in Ei.
    rewrite Hd in Ei. injection Ei as <-. reflexivity.
Qed.

Lemma scripts_flow :
  KFlow (keyed ks ka) (branch_output transformFormResult ks) 3 "ScriptsPass".
Proof.
  apply (kpass _ (fun d => jget [Field "Input"] d = Some (scriptsInput ks)) _ _ _ _ _ _
           orchestrator_scriptsPass).
  - intros d v out [(fs & -> & Hk)%jget_field_inv _] Hv Hout.
    cbn in Hv. rewrite Hk in Hv. cbn in Hv. injection Hv as <-.
    cbn in Hout. injection Hout as <-. cbn. now rewrite lookup_set_eq.
  - apply (correct_flow ks _ _ _ orchestrator_scriptsCorrect); [now right|].
    apply (textract_flow ks _ _ _ orchestrator_scriptsTextract);
      [reflexivity | now right |].
    apply (transform_flow ks _ orchestrator_scriptsTransform). now left.
Qed.

Lemma answer_flow :
  KFlow (keyed ks ka) (branch_output transformFormResult ka) 3 "StandardAnswerPass".
Proof.
  apply (kpass _ (fun d => jget [Field "Input"] d = Some (answerInput ka)) _ _ _ _ _ _
           orchestrator_answerPass).
  - intros d v out [_ (fs & -> & Hk)%jget_field_inv] Hv Hout.
    cbn in Hv. rewrite Hk in Hv. cbn in Hv. injection Hv as <-.
    cbn in Hout. injection Hout as <-. cbn. now rewrite lookup_set_eq.
  - apply (correct_flow ka _ _ _ orchestrator_answerCorrect); [now left|].
    apply (textract_flow ka _ _ _ orchestrator_answerTextract);
      [reflexivity | now left |].
    apply (transform_flow ka _ orchestrator_answerTransform). now right.
Qed.

Lemma mark_flow :
  KFlow (both_transformed transformFormResult ks ka)
    (marked_output transformFormResult generateMarkResult ks ka) 1
    "GenerateMarkResultStateMachineExecution".
Proof.
  apply (ktask _ (marked_output transformFormResult generateMarkResult ks ka) _ O
           _ _ _ _ orchestrator_generateMark).
  - intros d inp tr Hd Ei. change (Some d = Some inp) in Ei. injection Ei as <-.
    apply HE. repeat split; cbn [fst snd]; try (intros H; discriminate H).
    + intros [H|H]; discriminate H.
    + intros _. exact Hd.
  - intros d inp name out (ts & ta & -> & Hs & Ha) Ei (_ & _ & Hsub).
    change (Some (JObj [("scripts", ts); ("standardAnswer", ta)]) = Some inp) in Ei.
    injection Ei as <-.
    exists ts, ta, out. split; [exact Hs|]. split; [exact Ha|].
    split; [now apply Hsub|]. split; reflexivity.
  - split; [reflexivity|]. auto.
Qed.

Lemma orchestrator_flow :
  KFlow (keyed ks ka) (marked_output transformFormResult generateMarkResult ks ka) 7
    "StartPass".
Proof.
  apply (kpass _ (keyed ks ka) _ _ _ _ _ _ orchestrator_start).
  - intros d v out Hd [= <-] Hout. cbn in Hout. now injection Hout as <-.
  - apply (parallel_flow handler transformFormResult generateMarkResult
             pdfDestinationBucket executionName sched ctx E (keyed ks ka)
             (branch_output transformFormResult ks)
             (branch_output transformFormResult ka)
             (both_transformed transformFormResult ks ka));
      [exact scripts_flow | exact answer_flow | | exact mark_flow].
    intros d o0 o1 _ (ts & H0 & Hs) (ta & H1 & Ha).
    eexists. split; [apply (fan_in_selector ctx o0 o1 ts ta d H0 H1)|].
    now exists ts, ta.
Qed.
End KeyedFlow.


Section AnyFlow.
Context {W : Type}.
Variable handler : string -> json -> W -> task_result * W.
Variables transformFormResult generateMarkResult : json -> outcome * Z.
Variable pdfDestinationBucket : string.
Variable executionName : nat -> string.
Variables (sched : list nat) (ctx : json).
Variable E : string * json * list string -> Prop.
Hypothesis HE : forall e, not_mark_generation e -> E e.

Abbreviation ainvoke :=
  (StepFunctionsService.invoke handler transformFormResult generateMarkResult
     pdfDestinationBucket executionName).
Abbreviation AFlow := (Flow ainvoke sched ctx E).
Abbreviation atask :=
  (task_flow handler transformFormResult generateMarkResult pdfDestinationBucket
     executionName sched ctx E).
Abbreviation apass :=
  (pass_flow handler transformFormResult generateMarkResult pdfDestinationBucket
     executionName sched ctx E).

Lemma flow_never Post n cur : AFlow never Post n cur.
Proof. intros f d t w []. Qed.

Lemma any_task (Post : json -> Prop) n T sm ip nxt :
  states assignmentsMachine !! T = Some (Task (startTask sm ip) nxt) ->
  sm <> Assignments.generateMarkResultStateMachine ->
  flow_next ainvoke sched ctx E anyRecord Post n nxt ->
  AFlow anyRecord Post (S n) T.
Proof.
  intros HT Hsm Hnext. apply (atask _ anyRecord _ n _ _ _ _ HT); [| |exact Hnext].
  - intros d inp tr _ _. apply HE. exact Hsm.
  - intros; exact I.
Qed.

Lemma any_transform T :
  states assignmentsMachine !! T
  = Some (Task (startTask Assignments.transformFormResultStateMachine "$.Output") None) ->
  AFlow anyRecord has_output 1 T.
Proof.
  intros HT. apply (atask _ has_output _ O _ _ _ _ HT).
  - intros d inp tr _ _. apply HE. intros H. discriminate H.
  - intros d inp name out _ _ _. now exists out.
  - split; [reflexivity|]. auto.
Qed.

Lemma any_scripts_branch :
  AFlow anyRecord has_output 3 "ScriptsCorrectPdfOrientationStateMachineExecution".
Proof.
  apply (any_task _ 2%nat _ _ _ _ orchestrator_scriptsCorrect); [discriminate|].
  apply (any_task _ 1%nat _ _ _ _ orchestrator_scriptsTextract); [discriminate|].
  apply (any_transform _ orchestrator_scriptsTransform).
Qed.

Lemma any_answer_branch :
  AFlow anyRecord has_output 3 "AnswerCorrectPdfOrientationStateMachineExecution".
Proof.
  apply (any_task _ 2%nat _ _ _ _ orchestrator_answerCorrect); [discriminate|].
  apply (any_task _ 1%nat _ _ _ _ orchestrator_answerTextract); [discriminate|].
  apply (any_transform _ orchestrator_answerTransform).
Qed.

Lemma any_scripts (P : json -> Prop) : AFlow P has_output 3 "ScriptsPass".
Proof.
  apply (apass _ anyRecord _ _ _ _ _ _ orchestrator_scriptsPass);
    [intros; exact I | exact any_scripts_branch].
Qed.

Lemma any_answer (P : json -> Prop) : AFlow P has_output 3 "StandardAnswerPass".
Proof.
  apply (apass _ anyRecord _ _ _ _ _ _ orchestrator_answerPass);
    [intros; exact I | exact any_answer_branch].
Qed.

(** Without its key a branch ends at its first step. *)
Lemma scripts_without_key :
  AFlow (fun d => jget [Field "scriptsKey"] d = None) never 3 "ScriptsPass".
Proof.
  apply (apass _ never _ _ _ _ _ _ orchestrator_scriptsPass); [|apply flow_never].
  intros d v out Hd Hv. cbn [eval_tmpl] in Hv.
  change (eval_expr "$.scriptsKey" d ctx) with (jget [Field "scriptsKey"] d) in Hv.
  rewrite Hd in Hv. discriminate Hv.
Qed.

Lemma answer_without_key :
  AFlow (fun d => jget [Field "standardAnswerKey"] d = None) never 3 "StandardAnswerPass".
Proof.
  apply (apass _ never _ _ _ _ _ _ orchestrator_answerPass); [|apply flow_never].
  intros d v out Hd Hv. cbn [eval_tmpl] in Hv.
  change (eval_expr "$.standardAnswerKey" d ctx)
    with (jget [Field "standardAnswerKey"] d) in Hv.
  rewrite Hd in Hv. discriminate Hv.
Qed.

Lemma orchestrator_without_key :
  AFlow (fun d => jget [Field "scriptsKey"] d = None \/
                  jget [Field "standardAnswerKey"] d = None) never 7 "StartPass".
Proof.
  intros f d t w Hd. revert f d t w Hd.
  assert (Hs : AFlow (fun d => jget [Field "scriptsKey"] d = None) never 7 "StartPass").
  { apply (apass _ (fun d => jget [Field "scriptsKey"] d = None) _ _ _ _ _ _
             orchestrator_start).
    - intros d v out Hd [= <-] Hout. cbn in Hout. now injection Hout as <-.
    - apply (parallel_flow handler transformFormResult generateMarkResult
               pdfDestinationBucket executionName sched ctx E _ never has_output never);
        [exact scripts_without_key | apply any_answer | | apply flow_never].
      intros d o0 o1 _ []. }
  assert (Ha : AFlow (fun d => jget [Field "standardAnswerKey"] d = None) never 7
                 "StartPass").
  { apply (apass _ (fun d => jget [Field "standardAnswerKey"] d = None) _ _ _ _ _ _
             orchestrator_start).
    - intros d v out Hd [= <-] Hout. cbn in Hout. now injection Hout as <-.
    - apply (parallel_flow handler transformFormResult generateMarkResult
               pdfDestinationBucket executionName sched ctx E _ has_output never never);
        [apply any_scripts | exact answer_without_key | | apply flow_never].
      intros d o0 o1 _ _ []. }
  intros f d t w [Hd|Hd]; [now apply Hs | now apply Ha].
Qed.
End AnyFlow.

Section AnyCount.
Context {W : Type}.
Variable handler : string -> json -> W -> task_result * W.
Variables transformFormResult generateMarkResult : json -> outcome * Z.
Variable pdfDestinationBucket : string.
Variable executionName : nat -> string.
Variables (sched : list nat) (ctx : json).

Lemma orchestrator_any :
  Flow (StepFunctionsService.invoke handler transformFormResult generateMarkResult
          pdfDestinationBucket executionName) sched ctx anything
    anyRecord anyRecord 7 "StartPass".
Proof.
  assert (HE : forall e, not_mark_generation e -> anything e) by (intros; exact I).
  apply (pass_flow handler transformFormResult generateMarkResult pdfDestinationBucket
           executionName sched ctx anything _ anyRecord _ _ _ _ _ _ orchestrator_start);
    [intros; exact I|].
  apply (parallel_flow handler transformFormResult generateMarkResult
           pdfDestinationBucket executionName sched ctx anything _ has_output has_output
           anyRecord).
  - now apply any_scripts.
  - now apply any_answer.
  - intros d o0 o1 _ [x0 H0] [x1 H1]. eexists.
    split; [apply (fan_in_selector ctx o0 o1 x0 x1 d H0 H1) | exact I].
  - apply (task_flow handler transformFormResult generateMarkResult pdfDestinationBucket
             executionName sched ctx anything _ anyRecord _ O _ _ _ _
             orchestrator_generateMark).
    + intros; exact I.
    + intros; exact I.
    + split; [reflexivity|]. auto.
Qed.
End AnyCount.


(** X17.  What the orchestrator, given both keys and a log of
    executions that is empty, starts its machines on: the pipeline
    and the job runner on the record the input preparation of their branch
    made (the runner gets that record, not the output of the pipeline);
    the result transform on the result of a finished job for one of the
    two documents; the mark generation on the pair of what the transform
    returned for the scripts and for the standard answer. *)
Theorem orchestrator_data_flow {W}
    (handler : string -> json -> W -> task_result * W)
    (transformFormResult generateMarkResult : json -> outcome * Z)
    pdfDestinationBucket executionName sched name fuel input ks ka
    (w : @StepFunctionsService.world W) :
  jget [Field "scriptsKey"] input = Some (JStr ks) ->
  jget [Field "standardAnswerKey"] input = Some (JStr ka) ->
  StepFunctionsService.executions w = [] ->
  let r := runAssignments handler transformFormResult generateMarkResult
             pdfDestinationBucket executionName sched name fuel input w in
  forall sm inp tr,
    In (sm, inp, tr) (StepFunctionsService.executions (res_world r)) ->
    (sm = Assignments.correctPdfOrientationStateMachine \/
     sm = Assignments.amazonTextractMultiPagesDocumentsStateMachine ->
     inp = JObj [("key", JStr ka); ("skipRotation", JBool true)] \/
     inp = JObj [("key", JStr ks)]) /\
    (sm = Assignments.transformFormResultStateMachine ->
     exists k j, (k = ks \/ k = ka) /\
       inp = JObj [("key", JStr k); ("JobId", JStr j);
                   ("textractPrefix", JStr (k +:+ "/" +:+ j))]) /\
    (sm = Assignments.generateMarkResultStateMachine ->
     exists ts ta,
       inp = JObj [("scripts", ts); ("standardAnswer", ta)] /\
       (exists j, fst (transformFormResult (finished ks j)) = Succeeded ts) /\
       (exists j, fst (transformFormResult (finished ka j)) = Succeeded ta)).
Proof.
  intros Hs Ha Hlog r sm inp tr Hin.
  assert (Hinv : Forall (entry_ok transformFormResult ks ka)
                   (StepFunctionsService.executions (res_world r))).
  { subst r. unfold runAssignments, execute. rewrite orchestrator_startAt.
    apply (orchestrator_flow handler transformFormResult generateMarkResult
             pdfDestinationBucket executionName sched (context name input) ks ka
             (entry_ok transformFormResult ks ka) (fun e H => H)).
    - split; assumption.
    - unfold started_ok. rewrite Hlog. constructor. }
  rewrite List.Forall_forall in Hinv.
  exact (Hinv (sm, inp, tr) Hin).
Qed.

Lemma orchestrator_data_flow_witness :
  StepFunctionsService.executions demoWorld = [] /\
  Forall (entry_ok transformed "s.pdf" "a.pdf")
    (StepFunctionsService.executions
       (res_world (runAssignments echo transformed marked "pdf-destination"
                     executionNames [1%nat; 0%nat] "top" 20 bothKeys demoWorld))).
Proof.
  split; [reflexivity|].
  apply List.Forall_forall. intros [[sm inp] tr] Hin.
  exact (orchestrator_data_flow echo transformed marked "pdf-destination"
           executionNames [1%nat; 0%nat] "top" 20 bothKeys "s.pdf" "a.pdf" demoWorld
           eq_refl eq_refl eq_refl sm inp tr Hin).
Defined.

(** X18.  The result of a successful execution of the orchestrator is
    the description of the mark generation's execution: its input is the
    record of the transform's results for the scripts and for the standard
    answer, its output is what the mark generation returned for that
    record. *)
Theorem orchestrator_end_to_end {W}
    (handler : string -> json -> W -> task_result * W)
    (transformFormResult generateMarkResult : json -> outcome * Z)
    pdfDestinationBucket executionName sched name fuel input ks ka
    (w : @StepFunctionsService.world W) o :
  jget [Field "scriptsKey"] input = Some (JStr ks) ->
  jget [Field "standardAnswerKey"] input = Some (JStr ka) ->
  res_outcome (runAssignments handler transformFormResult generateMarkResult
                 pdfDestinationBucket executionName sched name fuel input w)
  = Succeeded o ->
  exists ts ta mk,
    (exists j, fst (transformFormResult (finished ks j)) = Succeeded ts) /\
    (exists j, fst (transformFormResult (finished ka j)) = Succeeded ta) /\
    fst (generateMarkResult (JObj [("scripts", ts); ("standardAnswer", ta)]))
    = Succeeded mk /\
    jget [Field "Input"] o = Some (JObj [("scripts", ts); ("standardAnswer", ta)]) /\
    jget [Field "Output"] o = Some mk.
Proof.
  intros Hs Ha Hok. unfold runAssignments, execute in Hok.
  rewrite orchestrator_startAt in Hok.
  destruct (orchestrator_flow handler transformFormResult generateMarkResult
              pdfDestinationBucket executionName sched (context name input) ks ka
              anything (fun e _ => I) fuel input 0 w) as (_ & _ & H).
  - split; assumption.
  - apply List.Forall_forall. intros; exact I.
  - exact (proj1 (H o Hok)).
Qed.

Lemma orchestrator_end_to_end_witness :
  exists o,
    res_outcome (runAssignments echo transformed marked "pdf-destination"
                   executionNames [0%nat; 1%nat] "top" 20 bothKeys demoWorld)
    = Succeeded o /\
    exists mk, jget [Field "Output"] o = Some mk.
Proof.
  assert (Hok : exists o,
             res_outcome (runAssignments echo transformed marked "pdf-destination"
                            executionNames [0%nat; 1%nat] "top" 20 bothKeys demoWorld)
             = Succeeded o) by (vm_compute; eexists; reflexivity).
  destruct Hok as [o Hok]. exists o. split; [exact Hok|].
  destruct (orchestrator_end_to_end echo transformed marked "pdf-destination"
              executionNames [0%nat; 1%nat] "top" 20 bothKeys "s.pdf" "a.pdf" demoWorld o
              eq_refl eq_refl Hok) as (ts & ta & mk & _ & _ & _ & _ & H).
  now exists mk.
Defined.

(** X19.  An execution of the orchestrator starts at most seven
    executions, and exactly seven when it succeeds, whatever its input. *)
Theorem orchestrator_execution_count {W}
    (handler : string -> json -> W -> task_result * W)
    (transformFormResult generateMarkResult : json -> outcome * Z)
    pdfDestinationBucket executionName sched name fuel input
    (w : @StepFunctionsService.world W) :
  let r := runAssignments handler transformFormResult generateMarkResult
             pdfDestinationBucket executionName sched name fuel input w in
  (length (StepFunctionsService.executions (res_world r))
   <= length (StepFunctionsService.executions w) + 7)%nat /\
  forall o, res_outcome r = Succeeded o ->
    length (StepFunctionsService.executions (res_world r))
    = (length (StepFunctionsService.executions w) + 7)%nat.
Proof.
  intros r. subst r. unfold runAssignments, execute. rewrite orchestrator_startAt.
  destruct (orchestrator_any handler transformFormResult generateMarkResult
              pdfDestinationBucket executionName sched (context name input)
              fuel input 0 w I) as (_ & Hle & H).
  - apply List.Forall_forall. intros; exact I.
  - split; [exact Hle|]. intros o Ho. exact (proj2 (H o Ho)).
Qed.

(** X20.  An input without [scriptsKey] or without [standardAnswerKey]
    never succeeds, and, the log of executions being empty at the start,
    the mark generation is not started for it. *)
Theorem orchestrator_needs_both_keys {W}
    (handler : string -> json -> W -> task_result * W)
    (transformFormResult generateMarkResult : json -> outcome * Z)
    pdfDestinationBucket executionName sched name fuel input
    (w : @StepFunctionsService.world W) :
  jget [Field "scriptsKey"] input = None \/
  jget [Field "standardAnswerKey"] input = None ->
  StepFunctionsService.executions w = [] ->
  let r := runAssignments handler transformFormResult generateMarkResult
             pdfDestinationBucket executionName sched name fuel input w in
  (forall o, res_outcome r <> Succeeded o) /\
  forall sm inp tr,
    In (sm, inp, tr) (StepFunctionsService.executions (res_world r)) ->
    sm <> Assignments.generateMarkResultStateMachine.
Proof.
  intros Hk Hlog r. subst r. unfold runAssignments, execute.
  rewrite orchestrator_startAt.
  destruct (orchestrator_without_key handler transformFormResult generateMarkResult
              pdfDestinationBucket executionName sched (context name input)
              not_mark_generation (fun e H => H) fuel input 0 w Hk)
    as (Hinv & _ & H).
  - unfold started_ok. rewrite Hlog. constructor.
  - split.
    + intros o Ho. exact (proj1 (H o Ho)).
    + intros sm inp tr Hin. unfold started_ok in Hinv.
      rewrite List.Forall_forall in Hinv. exact (Hinv (sm, inp, tr) Hin).
Qed.

Lemma orchestrator_needs_both_keys_witness :
  StepFunctionsService.executions demoWorld = [] /\
  forall o,
    res_outcome (runAssignments echo transformed marked "pdf-destination"
                   executionNames [1%nat; 0%nat] "top" 20
                   (JObj [("standardAnswerKey", JStr "a.pdf")]) demoWorld)
    <> Succeeded o.
Proof.
  split; [reflexivity|].
  destruct (orchestrator_needs_both_keys echo transformed marked "pdf-destination"
              executionNames [1%nat; 0%nat] "top" 20
              (JObj [("standardAnswerKey", JStr "a.pdf")]) demoWorld
              (or_introl eq_refl) eq_refl) as [H _].
  exact H.
Defined.


(** ** The orchestrator: with services that cooperate *)

Lemma pipeline_succeeds {W} (handler : string -> json -> W -> task_result * W)
    name fs w :
  answers handler ->
  exists out tr c w',
    runCorrectPdf handler name StepFunctionsService.correctPdfFuel (JObj fs) w
    = mkResult (Succeeded out) tr c w' /\ 0 <= c <= 5.
Proof.
  intros Hh. unfold runCorrectPdf, execute. rewrite pipeline_startAt.
  destruct (Hh pdfToImagesFunction fs w) as (fs1 & w1 & H1).
  destruct (lookup_field "skipRotation" fs1) as [flag|] eqn:Ef.
  - destruct (Hh imagesToPdfFunction fs1 w1) as (fs4 & w4 & H4).
    change StepFunctionsService.correctPdfFuel with (4 + 2)%nat.
    do 4 eexists.
    split; [apply (skip_route_run handler _ 2 fs fs1 flag (JObj fs4) w w1 w4 H1 Ef H4)|].
    lia.
  - destruct (Hh analyzeDocumentImagesFunction fs1 w1) as (fs2 & w2 & H2).
    destruct (Hh correctImageOrientationFunction fs2 w2) as (fs3 & w3 & H3).
    destruct (Hh imagesToPdfFunction fs3 w3) as (fs4 & w4 & H4).
    change StepFunctionsService.correctPdfFuel with (6 + 0)%nat.
    do 4 eexists.
    split; [apply (detect_route_run handler _ 0 fs fs1 fs2 fs3 (JObj fs4) w w1 w2 w3 w4
                     H1 Ef H2 H3 H4)|].
    lia.
Qed.

Lemma runner_succeeds_at_once src dst name fs k w :
  lookup_field "key" fs = Some (JStr k) ->
  all_done w ->
  exists j tr w',
    runTextract src dst name StepFunctionsService.textractFuel (JObj fs) w
    = mkResult (Succeeded (finished k j)) tr 60 w' /\
    all_done w'.
Proof.
  intros Hk Hd.
  pose proof (runner_terminal src dst name (JObj fs) k w 0 537) as H.
  change (3 * 0 + 5 + 537)%nat with StepFunctionsService.textractFuel in H.
  rewrite H; clear H.
  - rewrite (Hd (job name w)). cbn [String.eqb Ascii.eqb Bool.eqb].
    do 3 eexists. split; [reflexivity|].
    intros j n. unfold advance, after_submit. cbn [TextractService.jobStatus].
    rewrite request_job_status. apply Hd.
  - cbn. now rewrite Hk.
  - intros i Hi. lia.
  - rewrite (Hd (job name w)). reflexivity.
  - lia.
Qed.

Section Forward.
Context {W : Type}.
Variable handler : string -> json -> W -> task_result * W.
Variables transformFormResult generateMarkResult : json -> outcome * Z.
Variable pdfDestinationBucket : string.
Variable executionName : nat -> string.
Variables (sched : list nat) (ctx : json).

Hypothesis Hh : answers handler.
Hypothesis Htr : succeeds_within 3600 transformFormResult.
Hypothesis Hmk : succeeds_within 3600 generateMarkResult.

Abbreviation finvoke :=
  (StepFunctionsService.invoke handler transformFormResult generateMarkResult
     pdfDestinationBucket executionName).
Abbreviation frun := (run finvoke sched assignmentsMachine ctx).
Abbreviation fstart :=
  (StepFunctionsService.startExecution handler transformFormResult generateMarkResult
     pdfDestinationBucket executionName).

Lemma start_task_ok T sm ip nxt f fs inp t w v w' t' :
  states assignmentsMachine !! T = Some (Task (startTask sm ip) nxt) ->
  t < 10800 ->
  eval_expr ip (JObj fs) ctx = Some inp ->
  fstart sm inp w t = (TOk v, w', t') ->
  frun (S f) T (JObj fs) t w = entered T (continue (frun f) nxt v t' w').
Proof.
  intros HT Ht Hi Hs. rewrite run_unfold, orchestrator_timed_out.
  destruct (Z.leb_spec 10800 t); [lia|]. rewrite HT.
  cbn [exec startTask taskParameters taskRetry taskResource taskCatch
       taskResultSelector taskResultPath taskOutputPath eval_tmpl retry_budget
       fold_right map].
  rewrite Hi. cbn [option_map].
  rewrite with_retry_nil,
    (invoke_start handler transformFormResult generateMarkResult pdfDestinationBucket
       executionName), Hs.
  rewrite (apply_results ctx). reflexivity.
Qed.

Lemma start_correct inp w t :
  fstart Assignments.correctPdfOrientationStateMachine inp w t =
  (let name := executionName (length (StepFunctionsService.executions w)) in
   let r := runCorrectPdf handler name StepFunctionsService.correctPdfFuel inp
              (StepFunctionsService.lambdas w) in
   (StepFunctionsService.report name inp (res_outcome r),
    StepFunctionsService.mkWorld (res_world r) (StepFunctionsService.textract w)
      (StepFunctionsService.executions w
       ++ [(Assignments.correctPdfOrientationStateMachine, inp, res_trace r)]),
    t + res_clock r)).
Proof. reflexivity. Qed.

Lemma start_textract inp w t :
  fstart Assignments.amazonTextractMultiPagesDocumentsStateMachine inp w t =
  (let name := executionName (length (StepFunctionsService.executions w)) in
   let r := runTextract pdfDestinationBucket pdfDestinationBucket name
              StepFunctionsService.textractFuel inp
              (StepFunctionsService.textract w) in
   (StepFunctionsService.report name inp (res_outcome r),
    StepFunctionsService.mkWorld (StepFunctionsService.lambdas w) (res_world r)
      (StepFunctionsService.executions w
       ++ [(Assignments.amazonTextractMultiPagesDocumentsStateMachine, inp,
            res_trace r)]),
    t + res_clock r)).
Proof. reflexivity. Qed.

Lemma start_transform inp w t :
  fstart Assignments.transformFormResultStateMachine inp w t =
  (StepFunctionsService.report
     (executionName (length (StepFunctionsService.executions w))) inp
     (fst (transformFormResult inp)),
   StepFunctionsService.mkWorld (StepFunctionsService.lambdas w)
     (StepFunctionsService.textract w)
     (StepFunctionsService.executions w
      ++ [(Assignments.transformFormResultStateMachine, inp, [])]),
   t + snd (transformFormResult inp)).
Proof. reflexivity. Qed.

Lemma start_mark inp w t :
  fstart Assignments.generateMarkResultStateMachine inp w t =
  (StepFunctionsService.report
     (executionName (length (StepFunctionsService.executions w))) inp
     (fst (generateMarkResult inp)),
   StepFunctionsService.mkWorld (StepFunctionsService.lambdas w)
     (StepFunctionsService.textract w)
     (StepFunctionsService.executions w
      ++ [(Assignments.generateMarkResultStateMachine, inp, [])]),
   t + snd (generateMarkResult inp)).
Proof. reflexivity. Qed.

(** One branch, from its pipeline step on, when the services cooperate. *)
Lemma branch_succeeds Tc Tt Tx fsi k f fs t w :
  states assignmentsMachine !! Tc
  = Some (Task (startTask Assignments.correctPdfOrientationStateMachine "$.Input")
            (Some Tt)) ->
  states assignmentsMachine !! Tt
  = Some (Task (startTask Assignments.amazonTextractMultiPagesDocumentsStateMachine
                  "$.Input") (Some Tx)) ->
  states assignmentsMachine !! Tx
  = Some (Task (startTask Assignments.transformFormResultStateMachine "$.Output") None) ->
  lookup_field "key" fsi = Some (JStr k) ->
  lookup_field "Input" fs = Some (JObj fsi) ->
  0 <= t -> t + 3665 < 10800 ->
  all_done (StepFunctionsService.textract w) ->
  exists o tr t' w',
    frun (3 + f) Tc (JObj fs) t w = mkResult (Succeeded o) tr t' w' /\
    has_output o /\ t <= t' <= t + 3665 /\
    all_done (StepFunctionsService.textract w').
Proof.
  intros HTc HTt HTx Hk Hin Ht0 Ht Hd.
  change (3 + f)%nat with (S (S (S f))).
  (* the pipeline *)
  destruct (pipeline_succeeds handler
              (executionName (length (StepFunctionsService.executions w))) fsi
              (StepFunctionsService.lambdas w) Hh) as (out1 & tr1 & c1 & l1 & Hr1 & Hc1).
  erewrite (start_task_ok Tc _ _ _ _ fs (JObj fsi) t w); cycle 1.
  { exact HTc. } { lia. } { cbn. now rewrite Hin. }
  { rewrite start_correct. cbv zeta. rewrite Hr1. reflexivity. }
  cbn [continue res_clock res_world res_trace].
  (* the job runner *)
  set (w1 := StepFunctionsService.mkWorld l1 _ _).
  destruct (runner_succeeds_at_once pdfDestinationBucket pdfDestinationBucket
              (executionName (length (StepFunctionsService.executions w1))) fsi k
              (StepFunctionsService.textract w1) Hk Hd) as (j & tr2 & tw2 & Hr2 & Hd2).
  unfold StepFunctionsService.describe at 1.
  erewrite (start_task_ok Tt _ _ _ _ _ (JObj fsi) (t + c1) w1); cycle 1.
  { exact HTt. } { lia. } { reflexivity. }
  { rewrite start_textract. cbv zeta. rewrite Hr2. reflexivity. }
  cbn [continue res_clock res_world res_trace].
  (* the result transform *)
  set (w2 := StepFunctionsService.mkWorld _ tw2 _).
  destruct (Htr (finished k j)) as (ts & d & Hts & Hdur).
  unfold StepFunctionsService.describe at 1.
  erewrite (start_task_ok Tx _ _ _ _ _ (finished k j) (t + c1 + 60) w2); cycle 1.
  { exact HTx. } { lia. } { reflexivity. }
  { rewrite start_transform, Hts. reflexivity. }
  cbn [continue entered res_outcome res_trace res_clock res_world fst snd].
  do 4 eexists. split; [reflexivity|].
  split; [now exists ts|].
  split; [cbn [entered res_clock fst snd]; lia | exact Hd2].
Qed.

Variables ks ka : string.

Lemma scripts_branch_succeeds f fs t w :
  lookup_field "scriptsKey" fs = Some (JStr ks) ->
  0 <= t -> t + 3665 < 10800 ->
  all_done (StepFunctionsService.textract w) ->
  exists o tr t' w',
    frun (4 + f) "ScriptsPass" (JObj fs) t w = mkResult (Succeeded o) tr t' w' /\
    has_output o /\ t <= t' <= t + 3665 /\
    all_done (StepFunctionsService.textract w').
Proof.
  intros Hk Ht0 Ht Hd. change (4 + f)%nat with (S (3 + f)).
  rewrite (scriptsPass_run handler transformFormResult generateMarkResult
             pdfDestinationBucket executionName sched ctx ks) by (auto; lia).
  destruct (branch_succeeds _ _ _ [("key", JStr ks)] ks f
              (set_field "Input" (scriptsInput ks) fs) t w
              orchestrator_scriptsCorrect orchestrator_scriptsTextract
              orchestrator_scriptsTransform eq_refl (lookup_set_eq _ _ _) Ht0 Ht Hd)
    as (o & tr & t' & w' & -> & Ho & Ht' & Hd').
  do 4 eexists. split; [reflexivity|]. auto.
Qed.

Lemma answer_branch_succeeds f fs t w :
  lookup_field "standardAnswerKey" fs = Some (JStr ka) ->
  0 <= t -> t + 3665 < 10800 ->
  all_done (StepFunctionsService.textract w) ->
  exists o tr t' w',
    frun (4 + f) "StandardAnswerPass" (JObj fs) t w = mkResult (Succeeded o) tr t' w' /\
    has_output o /\ t <= t' <= t + 3665 /\
    all_done (StepFunctionsService.textract w').
Proof.
  intros Hk Ht0 Ht Hd. change (4 + f)%nat with (S (3 + f)).
  rewrite (answerPass_run handler transformFormResult generateMarkResult
             pdfDestinationBucket executionName sched ctx ka) by (auto; lia).
  destruct (branch_succeeds _ _ _ [("key", JStr ka); ("skipRotation", JBool true)] ka f
              (set_field "Input" (answerInput ka) fs) t w
              orchestrator_answerCorrect orchestrator_answerTextract
              orchestrator_answerTransform eq_refl (lookup_set_eq _ _ _) Ht0 Ht Hd)
    as (o & tr & t' & w' & -> & Ho & Ht' & Hd').
  do 4 eexists. split; [reflexivity|]. auto.
Qed.

Lemma mark_succeeds f ts ta t w :
  t < 10800 ->
  exists o tr t' w',
    frun (S f) "GenerateMarkResultStateMachineExecution"
      (JObj [("scripts", ts); ("standardAnswer", ta)]) t w
    = mkResult (Succeeded o) tr t' w' /\ t <= t' <= t + 3600.
Proof.
  intros Ht.
  destruct (Hmk (JObj [("scripts", ts); ("standardAnswer", ta)]))
    as (mk & d & Hm & Hdur).
  erewrite (start_task_ok "GenerateMarkResultStateMachineExecution" _ _ _ _ _
              (JObj [("scripts", ts); ("standardAnswer", ta)]) t w); cycle 1.
  { exact orchestrator_generateMark. } { exact Ht. } { reflexivity. }
  { rewrite start_mark, Hm. reflexivity. }
  do 4 eexists. split; [reflexivity|]. cbn [continue res_clock fst snd]. lia.
Qed.

Lemma execution_succeeds f d w :
  keyed ks ka d ->
  all_done (StepFunctionsService.textract w) ->
  exists o,
    res_outcome (frun (6 + f) "StartPass" d 0 w) = Succeeded o /\
    0 <= res_clock (frun (6 + f) "StartPass" d 0 w) <= 7265.
Proof.
  intros [(fs & -> & Hks)%jget_field_inv Hka] Hd.
  apply jget_field_inv in Hka as (fs' & [= <-] & Hka).
  change (6 + f)%nat with (S (S (4 + f))).
  rewrite run_unfold, orchestrator_timed_out. change (10800 <=? 0) with false.
  cbv iota. rewrite orchestrator_start.
  cbn [exec continue apply_result JsonPath.reference JsonPath.parse jset jget].
  rewrite run_unfold, orchestrator_timed_out. change (10800 <=? 0) with false.
  cbv iota. rewrite orchestrator_parallel. cbn [exec length replicate].
  destruct (completion_order_two sched) as [Ho|Ho]; rewrite Ho;
    cbn [run_branches nth_error].
  - destruct (scripts_branch_succeeds f fs 0 w Hks ltac:(lia) ltac:(lia) Hd)
      as (o0 & tr0 & t0 & w0 & -> & [x0 Hx0] & Ht0 & Hd0).
    cbn [res_outcome res_world res_clock res_trace run_branches nth_error].
    destruct (answer_branch_succeeds f fs 0 w0 Hka ltac:(lia) ltac:(lia) Hd0)
      as (o1 & tr1 & t1 & w1 & -> & [x1 Hx1] & Ht1 & Hd1).
    cbn [res_outcome res_world res_clock res_trace run_branches insert list_insert].
    rewrite (fan_in_selector ctx o0 o1 x0 x1 (JObj fs) Hx0 Hx1).
    cbn [continue]. change (4 + f)%nat with (S (3 + f)).
    destruct (mark_succeeds (3 + f) x0 x1 (Z.max (Z.max 0 t0) t1) w1 ltac:(lia))
      as (o & tr & t' & w' & -> & Ht').
    exists o. cbn [entered res_outcome res_clock]. split; [reflexivity | lia].
  - destruct (answer_branch_succeeds f fs 0 w Hka ltac:(lia) ltac:(lia) Hd)
      as (o1 & tr1 & t1 & w1 & -> & [x1 Hx1] & Ht1 & Hd1).
    cbn [res_outcome res_world res_clock res_trace run_branches nth_error].
    destruct (scripts_branch_succeeds f fs 0 w1 Hks ltac:(lia) ltac:(lia) Hd1)
      as (o0 & tr0 & t0 & w0 & -> & [x0 Hx0] & Ht0 & Hd0).
    cbn [res_outcome res_world res_clock res_trace run_branches insert list_insert].
    rewrite (fan_in_selector ctx o0 o1 x0 x1 (JObj fs) Hx0 Hx1).
    cbn [continue]. change (4 + f)%nat with (S (3 + f)).
    destruct (mark_succeeds (3 + f) x0 x1 (Z.max (Z.max 0 t1) t0) w0 ltac:(lia))
      as (o & tr & t' & w' & -> & Ht').
    exists o. cbn [entered res_outcome res_clock]. split; [reflexivity | lia].
Qed.
End Forward.




(** ** The orchestrator: termination *)

Section EndsLemmas.
Context {W : Type}.
Variable invoke : resource -> json -> W -> Z -> task_result * W * Z.
Variables (sched : list nat) (m : machine) (ctx : json).

Abbreviation erun := (run invoke sched m ctx).
Abbreviation EndsAt := (Ends invoke sched m ctx).

Lemma continue_ends h nxt f d t w :
  ends_next invoke sched m ctx h nxt -> (h <= f)%nat ->
  res_outcome (continue (erun f) nxt d t w) <> OutOfFuel.
Proof.
  destruct nxt as [x|]; cbn; intros H Hf; [now apply H | discriminate].
Qed.

(** A task without a catcher. *)
Lemma task_ends h T spec nxt :
  states m !! T = Some (Task spec nxt) ->
  taskCatch spec = [] ->
  ends_next invoke sched m ctx h nxt ->
  EndsAt (S h) T.
Proof.
  intros HT Hc Hn f d t w Hf. destruct f as [|f]; [lia|].
  rewrite run_unfold. destruct (timed_out m t); [discriminate|]. rewrite HT.
  cbn [entered res_outcome exec].
  destruct (match taskParameters spec with Some p => eval_tmpl p d ctx | None => Some d end)
    as [req|]; [|discriminate].
  destruct (with_retry _ _ _ _ w t) as [[[v|e c] w'] t'].
  - destruct (apply_result _ _ _ _ _ _); [|discriminate].
    apply (continue_ends h); [exact Hn | lia].
  - rewrite Hc. discriminate.
Qed.

Lemma pass_ends h T params rp nxt :
  states m !! T = Some (Pass params rp nxt) ->
  ends_next invoke sched m ctx h nxt ->
  EndsAt (S h) T.
Proof.
  intros HT Hn f d t w Hf. destruct f as [|f]; [lia|].
  rewrite run_unfold. destruct (timed_out m t); [discriminate|]. rewrite HT.
  cbn [entered res_outcome exec].
  destruct (match params with Some p => eval_tmpl p d ctx | None => Some d end);
    [|discriminate].
  destruct (apply_result _ _ _ _ _ _); [|discriminate].
  apply (continue_ends h); [exact Hn | lia].
Qed.

Lemma branches_end h f branches input t0 :
  (forall b, In b branches -> EndsAt h b) -> (h <= f)%nat ->
  forall order outs tr tmax w,
    (run_branches (erun f) branches order input t0 outs tr tmax w).1.1.1 <> OutOfFuel.
Proof.
  intros Hb Hf order. induction order as [|i order IH]; intros outs tr tmax w;
    cbn [run_branches]; [discriminate|].
  destruct (nth_error branches i) as [b|] eqn:Eb; [|apply IH].
  pose proof (Hb b (nth_error_In _ _ Eb) f input t0 w Hf) as H.
  destruct (res_outcome (erun f b input t0 w)); cbn; try discriminate.
  - apply IH.
  - now contradiction H.
Qed.

Lemma parallel_ends h T branches sel nxt :
  states m !! T = Some (Parallel branches sel nxt) ->
  (forall b, In b branches -> EndsAt h b) ->
  ends_next invoke sched m ctx h nxt ->
  EndsAt (S h) T.
Proof.
  intros HT Hb Hn f d t w Hf. destruct f as [|f]; [lia|].
  rewrite run_unfold. destruct (timed_out m t); [discriminate|]. rewrite HT.
  cbn [entered res_outcome exec].
  pose proof (branches_end h f branches d t Hb ltac:(lia)
                (completion_order (length branches) sched)
                (replicate (length branches) JNull) [] t w) as H.
  destruct (run_branches _ _ _ _ _ _ _ _ _) as [[[o tr] t'] w']. cbn [fst] in H.
  destruct o; cbn [res_outcome]; try discriminate; [|exact H].
  destruct (apply_result _ _ _ _ _ _); [|discriminate].
  cbn [res_outcome]. apply (continue_ends h); [exact Hn | lia].
Qed.

Lemma ends_more h h' cur : (h <= h')%nat -> EndsAt h cur -> EndsAt h' cur.
Proof. intros Hh H f d t w Hf. apply H. lia. Qed.
End EndsLemmas.

Section OrchestratorEnds.
Context {W : Type}.
Variable invoke : resource -> json -> W -> Z -> task_result * W * Z.
Variables (sched : list nat) (ctx : json).

Abbreviation OEnds := (Ends invoke sched assignmentsMachine ctx).

Lemma start_task_ends h T sm ip nxt :
  states assignmentsMachine !! T = Some (Task (startTask sm ip) nxt) ->
  ends_next invoke sched assignmentsMachine ctx h nxt ->
  OEnds (S h) T.
Proof. intros HT. now apply (task_ends invoke sched assignmentsMachine ctx h _ _ _ HT). Qed.

Lemma scripts_ends : OEnds 4 "ScriptsPass".
Proof.
  apply (pass_ends _ _ _ _ 3 _ _ _ _ orchestrator_scriptsPass).
  apply (start_task_ends 2 _ _ _ _ orchestrator_scriptsCorrect).
  apply (start_task_ends 1 _ _ _ _ orchestrator_scriptsTextract).
  apply (start_task_ends 0 _ _ _ _ orchestrator_scriptsTransform). exact I.
Qed.

Lemma answer_ends : OEnds 4 "StandardAnswerPass".
Proof.
  apply (pass_ends _ _ _ _ 3 _ _ _ _ orchestrator_answerPass).
  apply (start_task_ends 2 _ _ _ _ orchestrator_answerCorrect).
  apply (start_task_ends 1 _ _ _ _ orchestrator_answerTextract).
  apply (start_task_ends 0 _ _ _ _ orchestrator_answerTransform). exact I.
Qed.

Lemma orchestrator_ends : OEnds 6 "StartPass".
Proof.
  apply (pass_ends _ _ _ _ 5 _ _ _ _ orchestrator_start).
  apply (parallel_ends _ _ _ _ 4 _ _ _ _ orchestrator_parallel).
  - intros b [<-|[<-|[]]]; [exact scripts_ends | exact answer_ends].
  - apply (ends_more _ _ _ _ 1 4); [lia|].
    apply (start_task_ends 0 _ _ _ _ orchestrator_generateMark). exact I.
Qed.
End OrchestratorEnds.

(** X22.  The orchestrator has no loop and its executions nest six
    states at most: with fuel for six states every execution ends, in
    success, failure or timeout, whatever the input and the services; and
    the fuel its steps give the executions of the pipeline and of the job
    runner is enough for these to end as well. *)
Theorem orchestrator_always_ends {W}
    (handler : string -> json -> W -> task_result * W)
    (transformFormResult generateMarkResult : json -> outcome * Z)
    pdfDestinationBucket executionName sched name fuel input
    (w : @StepFunctionsService.world W) :
  (6 <= fuel)%nat ->
  res_outcome (runAssignments handler transformFormResult generateMarkResult
                 pdfDestinationBucket executionName sched name fuel input w)
  <> OutOfFuel /\
  (forall name' inp l,
     res_outcome (runCorrectPdf handler name' StepFunctionsService.correctPdfFuel inp l)
     <> OutOfFuel) /\
  (forall name' inp tw,
     res_outcome (runTextract pdfDestinationBucket pdfDestinationBucket name'
                    StepFunctionsService.textractFuel inp tw) <> OutOfFuel).
Proof.
  intros Hf. split; [|split].
  - unfold runAssignments, execute. rewrite orchestrator_startAt.
    now apply orchestrator_ends.
  - intros name' inp l. unfold runCorrectPdf, execute. rewrite pipeline_startAt.
    change StepFunctionsService.correctPdfFuel with (6 + 0)%nat.
    destruct (pipeline_along handler (context name' inp) 0 inp l) as [[H _]|[H _]];
      exact H.
  - intros name' inp tw.
    destruct (runner_ends pdfDestinationBucket pdfDestinationBucket name' inp tw
                StepFunctionsService.textractFuel
                ltac:(unfold StepFunctionsService.textractFuel; lia))
      as [e c Hk|k n Hk Hn Hlt Hterm|k Hk Hnone]; cbn [res_outcome];
      try discriminate.
    destruct (String.eqb _ "FAILED"); discriminate.
Qed.

Lemma orchestrator_always_ends_witness :
  res_outcome (runAssignments rejecting transformed marked "pdf-destination"
                 executionNames [] "top" 6 bothKeys demoWorld) <> OutOfFuel.
Proof.
  destruct (orchestrator_always_ends rejecting transformed marked "pdf-destination"
              executionNames [] "top" 6 bothKeys demoWorld ltac:(lia)) as [H _].
  exact H.
Defined.
